(** * BadSMTP: the per-connection SMTP session engine

    A shallow embedding of the session engine of BadSMTP
    ([server/session.go], [smtp/errors.go], [smtp/state.go],
    [smtp/commands.go], [smtp/address.go]), with the parts of
    [server/config.go] and [auth/auth.go] a session depends on, and the
    properties of it that the specification states.

    Conventions.
    - A Go [string] is a byte string: Rocq's [string] (a list of 8-bit
      [ascii]).  [len(s)] is [String.length].
    - A Go [int] is a [Z]; [strconv.Atoi] fails outside the 64-bit range.
    - A Go [error] is an [option error]: [None] is [nil].
    - A method with receiver [s *Session] is a function
      [Session -> Session * option error] (explicit state passing).
    - Functions of Go's standard library whose result depends on Unicode
      tables or on [net/mail] are fields of the class [GoStd]; every theorem
      holds for every implementation of them.  The instance [asciiStd]
      implements them for ASCII input and is used for concrete runs only. *)

From Stdlib Require Import String Ascii List ZArith Bool Lia.
From Stdlib Require Import DecimalString.
Import ListNotations.
Local Open Scope string_scope.
Local Open Scope Z_scope.

Set Implicit Arguments.

(* ================================================================== *)
(** * Go's standard library *)
(* ================================================================== *)

(** The Unicode-aware part of Go's standard library, and [net/mail]. *)
Class GoStd : Type := {
  (** [strings.ToLower], [strings.ToUpper] *)
  strings_ToLower : string -> string;
  strings_ToUpper : string -> string;
  (** [strings.TrimSpace] *)
  strings_TrimSpace : string -> string;
  (** [strings.EqualFold] *)
  strings_EqualFold : string -> string -> bool;
  (** [strings.Fields] *)
  strings_Fields : string -> list string;
  (** [mail.ParseAddress]: the [Address] field on success *)
  mail_ParseAddress : string -> option string;
  (** [mail.ReadMessage] followed by [io.ReadAll] of the body: the header
      map (key, values) and the body bytes *)
  mail_ReadMessage : string -> option (list (string * list string) * string);
  (** the runes a [for _, r := range s] loop visits *)
  utf8_runes : string -> list Z;
  (** [unicode.IsLetter], [unicode.IsNumber] *)
  unicode_IsLetter : Z -> bool;
  unicode_IsNumber : Z -> bool;
  (** [getDomainRegex().MatchString]: the domain pattern of
      [smtp/commands.go], whose classes are the Unicode categories L, N, M *)
  domainRegex_MatchString : string -> bool
}.

(** Byte-level functions of the packages [strings], [strconv] and [fmt]. *)
Module gostd.

Definition len (s : string) : Z := Z.of_nat (String.length s).

Definition byte_in (c : ascii) (cutset : string) : bool :=
  existsb (Ascii.eqb c) (list_ascii_of_string cutset).

Definition is_digit (c : ascii) : bool :=
  let n := Z.of_N (N_of_ascii c) in (48 <=? n) && (n <=? 57).

Definition is_lower (c : ascii) : bool :=
  let n := Z.of_N (N_of_ascii c) in (97 <=? n) && (n <=? 122).

Definition is_upper (c : ascii) : bool :=
  let n := Z.of_N (N_of_ascii c) in (65 <=? n) && (n <=? 90).

(** [strings.HasPrefix(s, prefix)] *)
Definition HasPrefix (s prefix : string) : bool := String.prefix prefix s.

(** [s[:n]] and [s[n:]] *)
Fixpoint take (n : nat) (s : string) : string :=
  match n, s with
  | S n', String c t => String c (take n' t)
  | _, _ => EmptyString
  end.

Fixpoint drop (n : nat) (s : string) : string :=
  match n, s with
  | S n', String _ t => drop n' t
  | _, _ => s
  end.

(** [strings.HasSuffix(s, suffix)] *)
Definition HasSuffix (s suffix : string) : bool :=
  (String.length suffix <=? String.length s)%nat &&
  String.eqb (drop (String.length s - String.length suffix) s) suffix.

(** [strings.Index(s, substr)]: [None] is Go's [-1]. *)
Fixpoint Index (s substr : string) : option nat :=
  if String.prefix substr s then Some O
  else match s with
       | EmptyString => None
       | String _ t => option_map S (Index t substr)
       end.

(** [strings.LastIndex(s, substr)] for a one-byte [substr]. *)
Fixpoint LastIndexByte (s : string) (b : ascii) : option nat :=
  match s with
  | EmptyString => None
  | String c t =>
      match LastIndexByte t b with
      | Some i => Some (S i)
      | None => if Ascii.eqb c b then Some O else None
      end
  end.

(** [strings.Contains(s, substr)] *)
Definition Contains (s substr : string) : bool :=
  match Index s substr with Some _ => true | None => false end.

(** [strings.TrimLeft(s, cutset)], for an ASCII cutset. *)
Fixpoint TrimLeft (s cutset : string) : string :=
  match s with
  | EmptyString => EmptyString
  | String c t => if byte_in c cutset then TrimLeft t cutset else s
  end.

Definition rev_string (s : string) : string :=
  string_of_list_ascii (rev (list_ascii_of_string s)).

(** [strings.TrimRight(s, cutset)], [strings.Trim(s, cutset)] *)
Definition TrimRight (s cutset : string) : string :=
  rev_string (TrimLeft (rev_string s) cutset).

Definition Trim (s cutset : string) : string :=
  TrimRight (TrimLeft s cutset) cutset.

(** [strings.TrimPrefix(s, prefix)] *)
Definition TrimPrefix (s prefix : string) : string :=
  if HasPrefix s prefix then drop (String.length prefix) s else s.

(** [strings.Split(s, sep)] for a one-byte separator. *)
Fixpoint SplitByte (s : string) (sep : ascii) : list string :=
  match s with
  | EmptyString => [EmptyString]
  | String c t =>
      if Ascii.eqb c sep then EmptyString :: SplitByte t sep
      else match SplitByte t sep with
           | h :: r => String c h :: r
           | [] => [String c EmptyString]
           end
  end.

(** [strings.Join(elems, sep)] *)
Fixpoint Join (elems : list string) (sep : string) : string :=
  match elems with
  | [] => EmptyString
  | [x] => x
  | x :: r => x ++ sep ++ Join r sep
  end.

(** The longest prefix of [s] whose bytes satisfy [p], and the rest. *)
Fixpoint span (p : ascii -> bool) (s : string) : string * string :=
  match s with
  | EmptyString => (EmptyString, EmptyString)
  | String c t =>
      if p c then let (a, b) := span p t in (String c a, b)
      else (EmptyString, s)
  end.

Fixpoint all_bytes (p : ascii -> bool) (s : string) : bool :=
  match s with
  | EmptyString => true
  | String c t => p c && all_bytes p t
  end.

Definition maxInt : Z := 9223372036854775807.
Definition minInt : Z := -9223372036854775808.

Definition digit_val (c : ascii) : option Z :=
  if is_digit c then Some (Z.of_N (N_of_ascii c) - 48) else None.

Fixpoint parse_digits (acc : Z) (s : string) : option Z :=
  match s with
  | EmptyString => Some acc
  | String c t =>
      match digit_val c with
      | Some d => parse_digits (acc * 10 + d) t
      | None => None
      end
  end.

(** [strconv.Atoi]: an optional sign and at least one decimal digit;
    [None] is a syntax or a range error. *)
Definition Atoi (s : string) : option Z :=
  let '(neg, body) :=
    match s with
    | String "-" t => (true, t)
    | String "+" t => (false, t)
    | _ => (false, s)
    end in
  match body with
  | EmptyString => None
  | _ =>
      match parse_digits 0 body with
      | None => None
      | Some n =>
          let v := if neg then - n else n in
          if (minInt <=? v) && (v <=? maxInt) then Some v else None
      end
  end.

(** [fmt.Sprintf("%d", n)] *)
Definition itoa (n : Z) : string := NilZero.string_of_int (Z.to_int n).

Definition CRLF : string := String "013" (String "010" EmptyString).

End gostd.


(* ================================================================== *)
(** * Package smtp *)
(* ================================================================== *)

Module smtp.

(** ** smtp/state.go *)

Inductive State : Type :=
| StateGreeting | StateHelo | StateAuth | StateMail
| StateRcpt | StateData | StateBdat | StateQuit.

Definition State_eqb (a b : State) : bool :=
  match a, b with
  | StateGreeting, StateGreeting | StateHelo, StateHelo
  | StateAuth, StateAuth | StateMail, StateMail
  | StateRcpt, StateRcpt | StateData, StateData
  | StateBdat, StateBdat | StateQuit, StateQuit => true
  | _, _ => false
  end.


(** [State.String] *)
Definition State_String (s : State) : string :=
  match s with
  | StateGreeting => "GREETING"
  | StateHelo => "HELO"
  | StateAuth => "AUTH"
  | StateMail => "MAIL"
  | StateRcpt => "RCPT"
  | StateData => "DATA"
  | StateBdat => "BDAT"
  | StateQuit => "QUIT"
  end.

(** [State.CanTransitionTo] *)
Definition transitions : list (State * list State) :=
  [ (StateGreeting, [StateHelo]);
    (StateHelo, [StateMail; StateAuth]);
    (StateAuth, [StateMail]);
    (StateMail, [StateRcpt; StateQuit]);
    (StateRcpt, [StateData; StateBdat; StateRcpt]);
    (StateData, [StateMail; StateQuit]);
    (StateBdat, [StateBdat; StateMail; StateQuit]);
    (StateQuit, []) ].

Definition CanTransitionTo (s next : State) : bool :=
  match find (fun e => State_eqb (fst e) s) transitions with
  | Some (_, m) => existsb (State_eqb next) m
  | None => false
  end.

(** ** smtp/errors.go *)

Definition Code220 : Z := 220.
Definition Code221 : Z := 221.
Definition Code250 : Z := 250.
Definition Code354 : Z := 354.
Definition Code421 : Z := 421.
Definition Code450 : Z := 450.
Definition Code451 : Z := 451.
Definition Code452 : Z := 452.
Definition Code500 : Z := 500.
Definition Code501 : Z := 501.
Definition Code502 : Z := 502.
Definition Code503 : Z := 503.
Definition Code504 : Z := 504.
Definition Code521 : Z := 521.
Definition Code535 : Z := 535.
Definition Code550 : Z := 550.
Definition Code551 : Z := 551.
Definition Code552 : Z := 552.
Definition Code553 : Z := 553.
Definition Code554 : Z := 554.
Definition Code571 : Z := 571.

(** The package-level map [errorMessages]; its keys are distinct. *)
Definition errorMessages : list (Z * string) :=
  [ (Code421, "Service not available, closing transmission channel");
    (Code450, "Requested mail action not taken: mailbox unavailable");
    (Code451, "Requested action aborted: local error in processing");
    (Code452, "Requested action not taken: insufficient system storage");
    (Code500, "Syntax error, command unrecognized");
    (Code501, "Syntax error in parameters or arguments");
    (Code502, "Command not implemented");
    (Code503, "Bad sequence of commands");
    (Code504, "Command parameter not implemented");
    (Code521, "Machine does not accept mail");
    (Code535, "Authentication failed");
    (Code550, "Requested action not taken: mailbox unavailable");
    (Code551, "User not local; please try forward path");
    (Code552, "Requested mail action aborted: exceeded storage allocation");
    (Code553, "Requested action not taken: mailbox name not allowed");
    (Code554, "Transaction failed");
    (Code571, "Blocked - see https://example.com/blocked") ].

(** A map read [m[k]]: the value and whether the key exists. *)
Definition map_lookup {V : Type} (m : list (Z * V)) (k : Z) : option V :=
  option_map snd (find (fun e => Z.eqb (fst e) k) m).

(** [GetErrorMessage] *)
Definition GetErrorMessage (code : Z) : string :=
  match map_lookup errorMessages code with
  | Some msg => msg
  | None => "Unknown error"
  end.

Record ErrorResult : Type := {
  Code : Z;          (* main 3-digit error code *)
  Enhanced : string; (* optional enhanced code, empty when absent *)
  Message : string   (* full error message *)
}.

(** [extendedRegex]: [^([a-z]+)(\d{3})_(\d+)\.(\d+)\.(\d+)@].  The
    character classes of adjacent pieces are disjoint, so each repetition
    takes the longest run.  The result is the list of capture groups 1-5. *)
Definition three_digits (s : string) : option (string * string) :=
  let d := gostd.take 3 s in
  if (String.length d =? 3)%nat && gostd.all_bytes gostd.is_digit d
  then Some (d, gostd.drop 3 s) else None.

Definition digits_then (s : string) (stop : ascii) : option (string * string) :=
  let (d, r) := gostd.span gostd.is_digit s in
  match d, r with
  | String _ _, String c r' => if Ascii.eqb c stop then Some (d, r') else None
  | _, _ => None
  end.

Definition extendedRegex (s : string) : option (list string) :=
  let (verb, r1) := gostd.span gostd.is_lower s in
  match verb with
  | EmptyString => None
  | _ =>
      match three_digits r1 with
      | Some (code, String "_" r2) =>
          match digits_then r2 "." with
          | Some (x, r3) =>
              match digits_then r3 "." with
              | Some (y, r4) =>
                  match digits_then r4 "@" with
                  | Some (z, _) => Some [verb; code; x; y; z]
                  | None => None
                  end
              | None => None
              end
          | None => None
          end
      | _ => None
      end
  end.

(** [basicRegex]: [^([a-z]+)(\d{3})@], capture groups 1-2. *)
Definition basicRegex (s : string) : option (list string) :=
  let (verb, r1) := gostd.span gostd.is_lower s in
  match verb with
  | EmptyString => None
  | _ =>
      match three_digits r1 with
      | Some (code, String "@" _) => Some [verb; code]
      | _ => None
      end
  end.

(** [heloRegex]: [^(?:helo|ehlo)(\d{3})\.], capture group 1. *)
Definition heloRegex (s : string) : option string :=
  if gostd.HasPrefix s "helo" || gostd.HasPrefix s "ehlo" then
    match three_digits (gostd.drop 4 s) with
    | Some (code, String "." _) => Some code
    | _ => None
    end
  else None.

Section WithStd.
Context {L : GoStd}.

(** [parsePrefixedError]: the enhanced pattern first, then the basic
    one. *)
Definition parsePrefixedError (prefix email : string) : option ErrorResult :=
  let email := strings_ToLower email in
  let enhanced_form :=
    match extendedRegex email with
    | Some [verb; c; x; y; z] =>
        if strings_EqualFold verb prefix then
          match gostd.Atoi c with
          | Some code =>
              let enhanced := x ++ "." ++ y ++ "." ++ z in
              let message :=
                gostd.itoa code ++ " " ++ enhanced ++ " " ++ GetErrorMessage code in
              Some {| Code := code; Enhanced := enhanced; Message := message |}
          | None => None
          end
        else None
    | _ => None
    end in
  match enhanced_form with
  | Some r => Some r
  | None =>
      match basicRegex email with
      | Some [verb; c] =>
          if strings_EqualFold verb prefix then
            match gostd.Atoi c with
            | Some code =>
                Some {| Code := code; Enhanced := "";
                        Message := gostd.itoa code ++ " " ++ GetErrorMessage code |}
            | None => None
            end
          else None
      | _ => None
      end
  end.

Definition ExtractMailFromError := parsePrefixedError "mail".
Definition ExtractRcptToError := parsePrefixedError "rcpt".
Definition ExtractDataError := parsePrefixedError "data".
Definition ExtractBdatError := parsePrefixedError "bdat".
Definition ExtractRsetError := parsePrefixedError "rset".
Definition ExtractQuitError := parsePrefixedError "quit".
Definition ExtractStartTLSError := parsePrefixedError "starttls".
Definition ExtractNoopError := parsePrefixedError "noop".
Definition ExtractAuthError := parsePrefixedError "auth".

(** [ExtractHeloError] *)
Definition ExtractHeloError (hostname : string) : option ErrorResult :=
  let hostname := strings_ToLower hostname in
  match heloRegex hostname with
  | Some c =>
      match gostd.Atoi c with
      | Some code =>
          Some {| Code := code; Enhanced := "";
                  Message := gostd.itoa code ++ " " ++ GetErrorMessage code |}
      | None => None
      end
  | None => None
  end.

End WithStd.

(** ** smtp/commands.go *)

Definition CmdHELO := "HELO".
Definition CmdEHLO := "EHLO".
Definition CmdAUTH := "AUTH".
Definition CmdMAIL := "MAIL".
Definition CmdRCPT := "RCPT".
Definition CmdDATA := "DATA".
Definition CmdBDAT := "BDAT".
Definition CmdRSET := "RSET".
Definition CmdNOOP := "NOOP".
Definition CmdQUIT := "QUIT".
Definition CmdSTARTTLS := "STARTTLS".
Definition CmdVRFY := "VRFY".

Record Command : Type := { Name : string; Args : list string }.

(** A map keyed by command names. *)
Definition cmd_lookup {V : Type} (m : list (string * V)) (k : string) : option V :=
  option_map snd (find (fun e => String.eqb (fst e) k) m).

(** [Command.IsValid] *)
Definition validCommands : list (string * bool) :=
  [ (CmdHELO, true); (CmdEHLO, true); (CmdAUTH, true); (CmdMAIL, true);
    (CmdRCPT, true); (CmdDATA, true); (CmdBDAT, true); (CmdRSET, true);
    (CmdNOOP, true); (CmdQUIT, true); (CmdSTARTTLS, true); (CmdVRFY, true) ].

Definition IsValid (c : Command) : bool :=
  match cmd_lookup validCommands (Name c) with
  | Some b => b
  | None => false
  end.

(** [Command.IsAllowedInState] *)
Definition allowed : list (string * list State) :=
  [ (CmdHELO, [StateHelo; StateMail]);
    (CmdEHLO, [StateHelo; StateMail]);
    (CmdAUTH, [StateMail; StateAuth]);
    (CmdMAIL, [StateMail]);
    (CmdRCPT, [StateRcpt]);
    (CmdDATA, [StateRcpt]);
    (CmdBDAT, [StateRcpt; StateBdat]);
    (CmdRSET, [StateHelo; StateMail; StateRcpt; StateAuth]);
    (CmdNOOP, [StateHelo; StateMail; StateRcpt; StateData; StateBdat; StateAuth]);
    (CmdQUIT, [StateHelo; StateMail; StateRcpt; StateData; StateBdat; StateAuth]);
    (CmdSTARTTLS, [StateHelo; StateMail]);
    (CmdVRFY, [StateGreeting; StateHelo; StateAuth; StateMail; StateRcpt;
               StateData; StateBdat; StateQuit]) ].

Definition IsAllowedInState (c : Command) (state : State) : bool :=
  match cmd_lookup allowed (Name c) with
  | Some m => existsb (State_eqb state) m
  | None => false
  end.

Definition syntaxError : string := "501 Syntax error in parameters".

Section Commands.
Context {L : GoStd}.

(** [ParseCommand]: [None] is the error for an empty command. *)
Definition ParseCommand (line : string) : option Command :=
  match strings_Fields line with
  | [] => None
  | name :: args => Some {| Name := strings_ToUpper name; Args := args |}
  end.

(** [Command.ValidateArgs]: [Some msg] is the error [msg]. *)
Definition ValidateArgs (c : Command) : option string :=
  let need_one :=
    match Args c with [] => Some syntaxError | _ => None end in
  let need_prefix (p : string) :=
    match Args c with
    | [] => Some syntaxError
    | a :: _ =>
        if negb (gostd.HasPrefix (strings_ToUpper a) p)
        then Some syntaxError else None
    end in
  if String.eqb (Name c) CmdHELO then need_one
  else if String.eqb (Name c) CmdEHLO then need_one
  else if String.eqb (Name c) CmdAUTH then need_one
  else if String.eqb (Name c) CmdMAIL then need_prefix "FROM:"
  else if String.eqb (Name c) CmdRCPT then need_prefix "TO:"
  else if String.eqb (Name c) CmdBDAT then
    match Args c with
    | [] => Some syntaxError
    | [_] => None
    | _ :: a1 :: _ =>
        if negb (strings_EqualFold a1 "LAST") then Some syntaxError else None
    end
  else if String.eqb (Name c) CmdVRFY then need_one
  else None.

Definition MaxDomainLength : Z := 255.
Definition MaxLocalPartLength : Z := 64.

(** [ValidateDomain] *)
Definition ValidateDomain (domain : string) : bool :=
  if String.eqb domain "" then false
  else if gostd.len domain >? MaxDomainLength then false
  else domainRegex_MatchString domain.

(** ** smtp/address.go *)

Definition maxASCII : Z := 127.

(** [asciiLocalRe]: a non-empty run of the listed ASCII bytes. *)
Definition asciiLocalByte (c : ascii) : bool :=
  gostd.is_lower c || gostd.is_upper c || gostd.is_digit c
  || gostd.byte_in c ".!#$%&'*+/=?^_`{|}~-".

Definition asciiLocalRe (s : string) : bool :=
  negb (String.eqb s "") && gostd.all_bytes asciiLocalByte s.

Definition dquote : string := String "034" EmptyString.

(** [ParseAddress]; the empty string means none found. *)
Definition ParseAddress (raw : string) : string :=
  let raw := strings_TrimSpace raw in
  if String.eqb raw "" then ""
  else
    match mail_ParseAddress raw with
    | Some a => a
    | None =>
        let fix tokens (l : list string) : string :=
          match l with
          | [] => ""
          | tok :: rest =>
              let trim := gostd.Trim tok ("<>,'" ++ dquote) in
              if gostd.Contains trim "@" then
                match mail_ParseAddress trim with
                | Some a2 => a2
                | None => trim
                end
              else tokens rest
          end in
        tokens (strings_Fields raw)
    end.

(** [ExtractMailboxFromArg] *)
Definition ExtractMailboxFromArg (arg : string) : string :=
  let upper := strings_ToUpper arg in
  let arg :=
    if gostd.HasPrefix upper "FROM:" then gostd.drop 5 arg
    else if gostd.HasPrefix upper "TO:" then gostd.drop 3 arg
    else arg in
  let arg := strings_TrimSpace arg in
  let addr := ParseAddress arg in
  if negb (String.eqb addr "") then addr
  else gostd.Trim arg "<>".

(** [NormaliseMailbox] *)
Definition NormaliseMailbox (mailbox : string) : string :=
  let mailbox := strings_TrimSpace mailbox in
  match gostd.LastIndexByte mailbox "@" with
  | None => ""
  | Some at_ =>
      let local := gostd.take at_ mailbox in
      let domain := strings_ToLower (gostd.drop (S at_) mailbox) in
      local ++ "@" ++ domain
  end.

(** [isAllowedLocalRune] *)
Definition isAllowedLocalRune (r : Z) (allowUTF8Local : bool) : bool :=
  if existsb (Z.eqb r)
       (map (fun c => Z.of_N (N_of_ascii c))
            (list_ascii_of_string ".!#$%&'*+/=?^_`{|}~-"))
  then true
  else if unicode_IsLetter r || unicode_IsNumber r then
    if negb allowUTF8Local && (r >? maxASCII) then false else true
  else false.

(** [checkParsedAddress] *)
Definition checkParsedAddress (addr : string) (allowUTF8Local : bool) : bool :=
  match gostd.LastIndexByte addr "@" with
  | None => false
  | Some at_ =>
      let local := gostd.take at_ addr in
      if negb allowUTF8Local
      then forallb (fun r => negb (r >? maxASCII)) (utf8_runes local)
      else true
  end.

(** [validateFallbackLocal] *)
Definition validateFallbackLocal (local : string) (allowUTF8Local : bool) : bool :=
  if gostd.HasPrefix local dquote && gostd.HasSuffix local dquote
  then gostd.len local >=? 2
  else if allowUTF8Local
  then forallb (fun r => isAllowedLocalRune r true) (utf8_runes local)
  else asciiLocalRe local.

(** [IsValidMailbox] *)
Definition IsValidMailbox (mailbox : string) (allowUTF8Local : bool) : bool :=
  let mailbox := strings_TrimSpace mailbox in
  match mail_ParseAddress mailbox with
  | Some a => checkParsedAddress a allowUTF8Local
  | None =>
      match mail_ParseAddress ("<" ++ mailbox ++ ">") with
      | Some a2 => checkParsedAddress a2 allowUTF8Local
      | None =>
          match gostd.LastIndexByte mailbox "@" with
          | None => false
          | Some at_ =>
              let local := gostd.take at_ mailbox in
              let domain := gostd.drop (S at_) mailbox in
              if String.eqb local "" || String.eqb domain "" then false
              else if (gostd.len local >? MaxLocalPartLength)
                      || (gostd.len domain >? MaxDomainLength) then false
              else if negb (ValidateDomain domain) then false
              else validateFallbackLocal local allowUTF8Local
          end
      end
  end.

(** [isDelimiter], applied to [rune(raw[i])]: a byte read as a rune. *)
Definition isDelimiter (c : ascii) : bool :=
  let n := Z.of_N (N_of_ascii c) in
  if ((9 <=? n) && (n <=? 13)) || (n =? 32) || (n =? 133) || (n =? 160)
  then true
  else gostd.byte_in c "<>(),;:".

(** [angleAddrRe]: [<([^>]+)>], leftmost match, capture group 1. *)
Fixpoint angleAddrRe (s : string) : option string :=
  match s with
  | EmptyString => None
  | String c t =>
      let here :=
        if Ascii.eqb c "<" then
          let (run, rest) := gostd.span (fun b => negb (Ascii.eqb b ">")) t in
          match run, rest with
          | String _ _, String _ _ => Some run
          | _, _ => None
          end
        else None in
      match here with
      | Some m => Some m
      | None => angleAddrRe t
      end
  end.

(** [ExtractMailbox] *)
Definition ExtractMailbox (raw : string) : string :=
  let addr := ParseAddress raw in
  if negb (String.eqb addr "") then addr
  else
    let raw := strings_TrimSpace raw in
    match angleAddrRe raw with
    | Some m => strings_TrimSpace m
    | None =>
        match gostd.LastIndexByte raw "@" with
        | None => ""
        | Some at_ =>
            (* expand left: the bytes before '@' back to a delimiter *)
            let left := gostd.rev_string (gostd.take at_ raw) in
            let l := fst (gostd.span (fun b => negb (isDelimiter b)) left) in
            (* expand right: the bytes after '@' up to a delimiter *)
            let r := fst (gostd.span (fun b => negb (isDelimiter b))
                                     (gostd.drop (S at_) raw)) in
            gostd.Trim (gostd.rev_string l ++ "@" ++ r) (dquote ++ "'<> ,")
        end
    end.

End Commands.

End smtp.

(* ================================================================== *)
(** * Package server: the session *)
(* ================================================================== *)

Module server.
Import smtp.

(** ** Data *)

(** A Go [error] value. *)
Inductive error : Type :=
| EOF                    (* io.EOF *)
| ErrWrite               (* a failed conn.Write *)
| ErrRead                (* a failed read from the connection *)
| ErrMsg (msg : string)  (* fmt.Errorf(msg) *)
| Panic.                 (* a run-time panic (index out of range) *)

Inductive Res (A : Type) : Type :=
| Ok (a : A)
| Err (e : error).
Arguments Err {A} e.

(** [Capabilities] *)
Record Capabilities : Type := {
  Size : bool;
  Pipelining : bool;
  EnhancedStatusCodes : bool;
  SMTPUTF8 : bool;
  Chunking : bool;
  STARTTLS : bool;
  EightBitMIME : bool
}.

(** The [net.Conn] of the session, seen from the server: the byte strings
    written so far, whether [Close] was called, and the network's answer
    to a write ([accepts written b] is whether writing [b] succeeds). *)
Record Conn : Type := {
  written : list string;
  closed : bool;
  accepts : list string -> string -> bool
}.

(** [tls.ConnectionState], as far as the session reads it. *)
Record ConnectionState : Type := { Version : Z; CipherSuite : Z }.

(** [User] (extensions.go) *)
Record User : Type := { Username : string; Active : bool }.

(** [Message] (extensions.go); [ClientIP] and [Timestamp], which come from
    the logger and the clock, are left out. *)
Record Message : Type := {
  From : string;
  To : list string;
  Content : string;
  Headers : list (string * string);
  MsgSize : Z;
  Hostname : string;
  TLSUsed : bool
}.

(** [Config], as far as the session reads it.  [SMTPExtensions] is empty
    (the default), and [HasTLS] is constantly true in the source. *)
Record Config : Type := {
  DropImmediate : bool;
  GreetingDelay : Z;
  DropDelay : Z;
  CommandDelay : Z;
  TLSHostname : string;
  CapabilityParser : option (string -> list string -> list string)
}.

Definition HasTLS (c : Config) : bool := true.

Definition MaxMessageSize : Z := 10 * 1024 * 1024.
Definition MaxCommandLength : Z := 4096.
Definition ServerGreeting : string :=
  "BadSMTP - The Reliably Unreliable Mail Server https://badsmtp.com".
Definition DefaultTLSHostname : string := "badsmtp.test".
Definition advertisedSizeMin : Z := 1000.
Definition advertisedSizeMax : Z := 10000000.

(** [Session].  [storeLog] records the calls of
    [config.MessageStore.Store], in order. *)
Record Session : Type := {
  conn : Conn;
  state : State;
  heloName : string;
  mailFrom : string;
  rcptTo : list string;
  authenticated : bool;
  config : Config;
  tlsState : option ConnectionState;
  hostname : string;
  capabilities : Capabilities;
  responseQueue : list string;
  pipeliningMode : bool;
  advertisedSize : Z;
  bdatBuffer : string;
  dataErrorResult : option ErrorResult;
  rsetErrorResult : option ErrorResult;
  quitErrorResult : option ErrorResult;
  startTLSErrorResult : option ErrorResult;
  noopErrorResult : option ErrorResult;
  authErrorResult : option ErrorResult;
  storeLog : list Message
}.

(** What the environment does while one command is handled: the client's
    bytes, the TLS library, the message store and the authenticator. *)
Record Extern : Type := {
  (** [connReader.Peek(1)] succeeds within the detection deadline *)
  peekMore : bool;
  (** [tp.ReadDotBytes()] *)
  readDotBytes : Res string;
  (** [readBDATChunk(n)] *)
  readBDATChunk : Z -> Res string;
  (** [handler.Authenticate]: the payloads of the [334] prompts it writes
      and, when every write succeeds, the user name or an error *)
  authPrompts : list string;
  authUsername : option string;
  (** [config.Authenticator.Authenticate(username, "")] *)
  authenticate : string -> option User;
  (** [obtainTLSCertificate] succeeds *)
  certificate : bool;
  (** [tlsConn.Handshake()] and the resulting [ConnectionState] *)
  handshake : option ConnectionState;
  (** [config.MessageStore.Store(msg)]: [Some txt] is an error whose text
      is [txt] *)
  store : Message -> option string
}.

(** *** Field updates *)

Definition set_conn (v : Conn) (s : Session) : Session :=
  {| conn := v; state := state s; heloName := heloName s; mailFrom := mailFrom s;
     rcptTo := rcptTo s; authenticated := authenticated s; config := config s;
     tlsState := tlsState s; hostname := hostname s; capabilities := capabilities s;
     responseQueue := responseQueue s; pipeliningMode := pipeliningMode s;
     advertisedSize := advertisedSize s; bdatBuffer := bdatBuffer s;
     dataErrorResult := dataErrorResult s; rsetErrorResult := rsetErrorResult s;
     quitErrorResult := quitErrorResult s;
     startTLSErrorResult := startTLSErrorResult s;
     noopErrorResult := noopErrorResult s; authErrorResult := authErrorResult s;
     storeLog := storeLog s |}.

Definition set_state (v : State) (s : Session) : Session :=
  {| conn := conn s; state := v; heloName := heloName s; mailFrom := mailFrom s;
     rcptTo := rcptTo s; authenticated := authenticated s; config := config s;
     tlsState := tlsState s; hostname := hostname s; capabilities := capabilities s;
     responseQueue := responseQueue s; pipeliningMode := pipeliningMode s;
     advertisedSize := advertisedSize s; bdatBuffer := bdatBuffer s;
     dataErrorResult := dataErrorResult s; rsetErrorResult := rsetErrorResult s;
     quitErrorResult := quitErrorResult s;
     startTLSErrorResult := startTLSErrorResult s;
     noopErrorResult := noopErrorResult s; authErrorResult := authErrorResult s;
     storeLog := storeLog s |}.

Definition set_heloName (v : string) (s : Session) : Session :=
  {| conn := conn s; state := state s; heloName := v; mailFrom := mailFrom s;
     rcptTo := rcptTo s; authenticated := authenticated s; config := config s;
     tlsState := tlsState s; hostname := hostname s; capabilities := capabilities s;
     responseQueue := responseQueue s; pipeliningMode := pipeliningMode s;
     advertisedSize := advertisedSize s; bdatBuffer := bdatBuffer s;
     dataErrorResult := dataErrorResult s; rsetErrorResult := rsetErrorResult s;
     quitErrorResult := quitErrorResult s;
     startTLSErrorResult := startTLSErrorResult s;
     noopErrorResult := noopErrorResult s; authErrorResult := authErrorResult s;
     storeLog := storeLog s |}.

Definition set_mailFrom (v : string) (s : Session) : Session :=
  {| conn := conn s; state := state s; heloName := heloName s; mailFrom := v;
     rcptTo := rcptTo s; authenticated := authenticated s; config := config s;
     tlsState := tlsState s; hostname := hostname s; capabilities := capabilities s;
     responseQueue := responseQueue s; pipeliningMode := pipeliningMode s;
     advertisedSize := advertisedSize s; bdatBuffer := bdatBuffer s;
     dataErrorResult := dataErrorResult s; rsetErrorResult := rsetErrorResult s;
     quitErrorResult := quitErrorResult s;
     startTLSErrorResult := startTLSErrorResult s;
     noopErrorResult := noopErrorResult s; authErrorResult := authErrorResult s;
     storeLog := storeLog s |}.

Definition set_rcptTo (v : list string) (s : Session) : Session :=
  {| conn := conn s; state := state s; heloName := heloName s; mailFrom := mailFrom s;
     rcptTo := v; authenticated := authenticated s; config := config s;
     tlsState := tlsState s; hostname := hostname s; capabilities := capabilities s;
     responseQueue := responseQueue s; pipeliningMode := pipeliningMode s;
     advertisedSize := advertisedSize s; bdatBuffer := bdatBuffer s;
     dataErrorResult := dataErrorResult s; rsetErrorResult := rsetErrorResult s;
     quitErrorResult := quitErrorResult s;
     startTLSErrorResult := startTLSErrorResult s;
     noopErrorResult := noopErrorResult s; authErrorResult := authErrorResult s;
     storeLog := storeLog s |}.

Definition set_authenticated (v : bool) (s : Session) : Session :=
  {| conn := conn s; state := state s; heloName := heloName s; mailFrom := mailFrom s;
     rcptTo := rcptTo s; authenticated := v; config := config s;
     tlsState := tlsState s; hostname := hostname s; capabilities := capabilities s;
     responseQueue := responseQueue s; pipeliningMode := pipeliningMode s;
     advertisedSize := advertisedSize s; bdatBuffer := bdatBuffer s;
     dataErrorResult := dataErrorResult s; rsetErrorResult := rsetErrorResult s;
     quitErrorResult := quitErrorResult s;
     startTLSErrorResult := startTLSErrorResult s;
     noopErrorResult := noopErrorResult s; authErrorResult := authErrorResult s;
     storeLog := storeLog s |}.

Definition set_tlsState (v : option ConnectionState) (s : Session) : Session :=
  {| conn := conn s; state := state s; heloName := heloName s; mailFrom := mailFrom s;
     rcptTo := rcptTo s; authenticated := authenticated s; config := config s;
     tlsState := v; hostname := hostname s; capabilities := capabilities s;
     responseQueue := responseQueue s; pipeliningMode := pipeliningMode s;
     advertisedSize := advertisedSize s; bdatBuffer := bdatBuffer s;
     dataErrorResult := dataErrorResult s; rsetErrorResult := rsetErrorResult s;
     quitErrorResult := quitErrorResult s;
     startTLSErrorResult := startTLSErrorResult s;
     noopErrorResult := noopErrorResult s; authErrorResult := authErrorResult s;
     storeLog := storeLog s |}.

Definition set_capabilities (v : Capabilities) (s : Session) : Session :=
  {| conn := conn s; state := state s; heloName := heloName s; mailFrom := mailFrom s;
     rcptTo := rcptTo s; authenticated := authenticated s; config := config s;
     tlsState := tlsState s; hostname := hostname s; capabilities := v;
     responseQueue := responseQueue s; pipeliningMode := pipeliningMode s;
     advertisedSize := advertisedSize s; bdatBuffer := bdatBuffer s;
     dataErrorResult := dataErrorResult s; rsetErrorResult := rsetErrorResult s;
     quitErrorResult := quitErrorResult s;
     startTLSErrorResult := startTLSErrorResult s;
     noopErrorResult := noopErrorResult s; authErrorResult := authErrorResult s;
     storeLog := storeLog s |}.

Definition set_responseQueue (v : list string) (s : Session) : Session :=
  {| conn := conn s; state := state s; heloName := heloName s; mailFrom := mailFrom s;
     rcptTo := rcptTo s; authenticated := authenticated s; config := config s;
     tlsState := tlsState s; hostname := hostname s; capabilities := capabilities s;
     responseQueue := v; pipeliningMode := pipeliningMode s;
     advertisedSize := advertisedSize s; bdatBuffer := bdatBuffer s;
     dataErrorResult := dataErrorResult s; rsetErrorResult := rsetErrorResult s;
     quitErrorResult := quitErrorResult s;
     startTLSErrorResult := startTLSErrorResult s;
     noopErrorResult := noopErrorResult s; authErrorResult := authErrorResult s;
     storeLog := storeLog s |}.

Definition set_pipeliningMode (v : bool) (s : Session) : Session :=
  {| conn := conn s; state := state s; heloName := heloName s; mailFrom := mailFrom s;
     rcptTo := rcptTo s; authenticated := authenticated s; config := config s;
     tlsState := tlsState s; hostname := hostname s; capabilities := capabilities s;
     responseQueue := responseQueue s; pipeliningMode := v;
     advertisedSize := advertisedSize s; bdatBuffer := bdatBuffer s;
     dataErrorResult := dataErrorResult s; rsetErrorResult := rsetErrorResult s;
     quitErrorResult := quitErrorResult s;
     startTLSErrorResult := startTLSErrorResult s;
     noopErrorResult := noopErrorResult s; authErrorResult := authErrorResult s;
     storeLog := storeLog s |}.

Definition set_advertisedSize (v : Z) (s : Session) : Session :=
  {| conn := conn s; state := state s; heloName := heloName s; mailFrom := mailFrom s;
     rcptTo := rcptTo s; authenticated := authenticated s; config := config s;
     tlsState := tlsState s; hostname := hostname s; capabilities := capabilities s;
     responseQueue := responseQueue s; pipeliningMode := pipeliningMode s;
     advertisedSize := v; bdatBuffer := bdatBuffer s;
     dataErrorResult := dataErrorResult s; rsetErrorResult := rsetErrorResult s;
     quitErrorResult := quitErrorResult s;
     startTLSErrorResult := startTLSErrorResult s;
     noopErrorResult := noopErrorResult s; authErrorResult := authErrorResult s;
     storeLog := storeLog s |}.

Definition set_bdatBuffer (v : string) (s : Session) : Session :=
  {| conn := conn s; state := state s; heloName := heloName s; mailFrom := mailFrom s;
     rcptTo := rcptTo s; authenticated := authenticated s; config := config s;
     tlsState := tlsState s; hostname := hostname s; capabilities := capabilities s;
     responseQueue := responseQueue s; pipeliningMode := pipeliningMode s;
     advertisedSize := advertisedSize s; bdatBuffer := v;
     dataErrorResult := dataErrorResult s; rsetErrorResult := rsetErrorResult s;
     quitErrorResult := quitErrorResult s;
     startTLSErrorResult := startTLSErrorResult s;
     noopErrorResult := noopErrorResult s; authErrorResult := authErrorResult s;
     storeLog := storeLog s |}.

Definition set_storeLog (v : list Message) (s : Session) : Session :=
  {| conn := conn s; state := state s; heloName := heloName s; mailFrom := mailFrom s;
     rcptTo := rcptTo s; authenticated := authenticated s; config := config s;
     tlsState := tlsState s; hostname := hostname s; capabilities := capabilities s;
     responseQueue := responseQueue s; pipeliningMode := pipeliningMode s;
     advertisedSize := advertisedSize s; bdatBuffer := bdatBuffer s;
     dataErrorResult := dataErrorResult s; rsetErrorResult := rsetErrorResult s;
     quitErrorResult := quitErrorResult s;
     startTLSErrorResult := startTLSErrorResult s;
     noopErrorResult := noopErrorResult s; authErrorResult := authErrorResult s;
     storeLog := v |}.

(** The six error-simulation slots, in the order of the source:
    data, rset, quit, starttls, noop, auth. *)
Record Pending : Type := {
  p_data : option ErrorResult;
  p_rset : option ErrorResult;
  p_quit : option ErrorResult;
  p_starttls : option ErrorResult;
  p_noop : option ErrorResult;
  p_auth : option ErrorResult
}.

Definition pending (s : Session) : Pending :=
  {| p_data := dataErrorResult s; p_rset := rsetErrorResult s;
     p_quit := quitErrorResult s; p_starttls := startTLSErrorResult s;
     p_noop := noopErrorResult s; p_auth := authErrorResult s |}.

Definition noPending : Pending :=
  {| p_data := None; p_rset := None; p_quit := None;
     p_starttls := None; p_noop := None; p_auth := None |}.

Definition set_pending (v : Pending) (s : Session) : Session :=
  {| conn := conn s; state := state s; heloName := heloName s; mailFrom := mailFrom s;
     rcptTo := rcptTo s; authenticated := authenticated s; config := config s;
     tlsState := tlsState s; hostname := hostname s; capabilities := capabilities s;
     responseQueue := responseQueue s; pipeliningMode := pipeliningMode s;
     advertisedSize := advertisedSize s; bdatBuffer := bdatBuffer s;
     dataErrorResult := p_data v; rsetErrorResult := p_rset v;
     quitErrorResult := p_quit v;
     startTLSErrorResult := p_starttls v;
     noopErrorResult := p_noop v; authErrorResult := p_auth v;
     storeLog := storeLog s |}.

(** ** The connection *)

(** [conn.Write(b)]: [true] when the write succeeded. *)
Definition conn_Write (b : string) (c : Conn) : Conn * bool :=
  if closed c then (c, false)
  else if accepts c (written c) b
  then ({| written := written c ++ [b]; closed := false; accepts := accepts c |}, true)
  else (c, false).

(** [conn.Close()] *)
Definition conn_Close (c : Conn) : Conn :=
  {| written := written c; closed := true; accepts := accepts c |}.

(** ** Responses *)

Section Ops.
Context {L : GoStd}.

Definition tab : string := String "009" EmptyString.

(** [isResponse421] *)
Definition isResponse421 (response : string) : bool :=
  if String.eqb response "" then false
  else
    let first :=
      match gostd.Index response gostd.CRLF with
      | Some idx => gostd.take idx response
      | None => response
      end in
    let first := gostd.TrimLeft first (" " ++ tab) in
    let numeric :=
      if gostd.len first >=? 3 then gostd.Atoi (gostd.take 3 first) else None in
    match numeric with
    | Some code => Z.eqb code Code421
    | None =>
        (* fallback: compare with the canonical message *)
        let canon := strings_ToLower (strings_TrimSpace (GetErrorMessage Code421)) in
        strings_EqualFold (strings_TrimSpace first) canon
        || strings_EqualFold
             (strings_TrimSpace (gostd.TrimPrefix first "421 ")) canon
    end.

(** The loop of [flushResponses]: write the responses in order and stop
    at the first failed write. *)
Fixpoint writeAll (rs : list string) (c : Conn) : Conn * bool :=
  match rs with
  | [] => (c, true)
  | r :: rest =>
      let (c1, ok) := conn_Write (r ++ gostd.CRLF) c in
      if ok then writeAll rest c1 else (c1, false)
  end.

(** [flushResponses] *)
Definition flushResponses (s : Session) : Session * option error :=
  match responseQueue s with
  | [] => (s, None)
  | q =>
      let (c1, ok) := writeAll q (conn s) in
      if ok then (set_responseQueue [] (set_conn c1 s), None)
      else (set_conn c1 s, Some ErrWrite)
  end.

(** [writeResponse] *)
Definition writeResponse (response : string) (s : Session)
  : Session * option error :=
  let is421 := isResponse421 response in
  if pipeliningMode s && negb is421 then
    (* queue the response instead of sending it *)
    (set_responseQueue (responseQueue s ++ [response]) s, None)
  else if pipeliningMode s && is421 then
    match flushResponses s with
    | (s1, Some e) => (s1, Some e)
    | (s1, None) =>
        let (c2, ok) := conn_Write (response ++ gostd.CRLF) (conn s1) in
        if ok then (set_conn (conn_Close c2) s1, Some EOF)
        else (set_conn c2 s1, Some ErrWrite)
    end
  else
    (* normal mode: send the response immediately *)
    let (c1, ok) := conn_Write (response ++ gostd.CRLF) (conn s) in
    if negb ok then (set_conn c1 s, Some ErrWrite)
    else if is421 then (set_conn (conn_Close c1) s, Some EOF)
    else (set_conn c1 s, None).

(** [formatErrorResult]; [None] is the nil pointer. *)
Definition formatErrorResult (s : Session) (err : option ErrorResult) : string :=
  match err with
  | None => ""
  | Some err =>
      if EnhancedStatusCodes (capabilities s)
         && negb (String.eqb (Enhanced err) "")
      then gostd.itoa (Code err) ++ " " ++ Enhanced err ++ " "
           ++ GetErrorMessage (Code err)
      else gostd.itoa (Code err) ++ " " ++ GetErrorMessage (Code err)
  end.

(** [breaksPipelining] *)
Definition breaksPipelining (cmdName : string) : bool :=
  if String.eqb cmdName CmdDATA then true
  else if String.eqb cmdName CmdBDAT then true
  else if String.eqb cmdName CmdAUTH then true
  else if String.eqb cmdName CmdSTARTTLS then true
  else if String.eqb cmdName CmdQUIT then true
  else false.

(** [flushAndReturn] *)
Definition flushAndReturn (cmdErr : option error) (s : Session)
  : Session * option error :=
  match flushResponses s with
  | (s1, Some flushErr) => (s1, Some flushErr)
  | (s1, None) => (s1, cmdErr)
  end.

(** [getMaxMessageSize] *)
Definition getMaxMessageSize (s : Session) : Z :=
  if advertisedSize s >? 0 then advertisedSize s else MaxMessageSize.

(** ** EHLO capabilities *)

(** [parseCapabilityLabel] *)
Definition parseCapabilityLabel (hostname : string) : list string :=
  let label :=
    match gostd.Index hostname "." with
    | Some idx => gostd.take idx hostname
    | None => hostname
    end in
  let label := strings_ToLower label in
  gostd.SplitByte label "-".

(** [hasCapability] *)
Definition hasCapability (parts : list string) (pattern : string) : bool :=
  let pattern := strings_ToLower pattern in
  existsb (fun part => gostd.Contains part pattern) parts.

(** [sizeRegex]: [size(\d+)], leftmost match, capture group 1. *)
Fixpoint sizeRegex (s : string) : option string :=
  let here :=
    if gostd.HasPrefix s "size" then
      match fst (gostd.span gostd.is_digit (gostd.drop 4 s)) with
      | EmptyString => None
      | d => Some d
      end
    else None in
  match here with
  | Some d => Some d
  | None =>
      match s with
      | EmptyString => None
      | String _ t => sizeRegex t
      end
  end.

(** [parseAndClampSize] *)
Fixpoint parseAndClampSize (parts : list string) : Z * bool :=
  match parts with
  | [] => (0, false)
  | part :: rest =>
      match sizeRegex part with
      | Some m1 =>
          match gostd.Atoi m1 with
          | Some v =>
              if v <=? 0 then parseAndClampSize rest
              else if v <? advertisedSizeMin then (advertisedSizeMin, true)
              else if v >? advertisedSizeMax then (advertisedSizeMax, true)
              else (v, true)
          | None => parseAndClampSize rest
          end
      | None => parseAndClampSize rest
      end
  end.

(** [getAuthMechanisms] *)
Definition getAuthMechanisms (parts : list string) : string :=
  let lastAuth :=
    fold_left
      (fun lastAuth part =>
         let part := strings_ToLower part in
         if gostd.Contains part "authplain" then "PLAIN"
         else if gostd.Contains part "authlogin" then "LOGIN"
         else if gostd.Contains part "authcram" then "CRAM-MD5 CRAM-SHA256"
         else if gostd.Contains part "authoauth" then "XOAUTH2"
         else lastAuth)
      parts "" in
  if negb (String.eqb lastAuth "") then lastAuth
  else "PLAIN LOGIN CRAM-MD5 CRAM-SHA256 XOAUTH2".

(** [append(xs, x)] *)
Definition append1 {A : Type} (xs : list A) (x : A) : list A := (xs ++ [x])%list.

(** [addStandardCapabilities]: the session and the response lines. *)
Definition addStandardCapabilities (response : list string) (parts : list string)
    (s : Session) : Session * list string :=
  let c250 := gostd.itoa Code250 in
  (* AUTH *)
  let response :=
    if negb (hasCapability parts "noauth") then
      let authMechanisms := getAuthMechanisms parts in
      if negb (String.eqb authMechanisms "")
      then append1 response (c250 ++ "-AUTH " ++ authMechanisms) else response
    else response in
  (* 8BITMIME *)
  let e8 := negb (hasCapability parts "no8bit") in
  let response := if e8 then append1 response (c250 ++ "-8BITMIME") else response in
  (* SIZE *)
  let sz := negb (hasCapability parts "nosize") in
  let '(adv, response) :=
    if sz then
      let (v, ok) := parseAndClampSize parts in
      if ok then (v, append1 response (c250 ++ "-SIZE " ++ gostd.itoa v))
      else (advertisedSize s,
            append1 response (c250 ++ "-SIZE " ++ gostd.itoa MaxMessageSize))
    else (advertisedSize s, response) in
  (* PIPELINING *)
  let pl := negb (hasCapability parts "nopipelining") in
  let response := if pl then append1 response (c250 ++ "-PIPELINING") else response in
  (* STARTTLS *)
  let st := negb (hasCapability parts "nostarttls") && HasTLS (config s) in
  let response := if st then append1 response (c250 ++ "-STARTTLS") else response in
  (* CHUNKING *)
  let ch := negb (hasCapability parts "nochunking") in
  let response := if ch then append1 response (c250 ++ "-CHUNKING") else response in
  (* SMTPUTF8 *)
  let u8 := negb (hasCapability parts "nosmtputf8") in
  let response := if u8 then append1 response (c250 ++ "-SMTPUTF8") else response in
  (* ENHANCEDSTATUSCODES *)
  let en := negb (hasCapability parts "noenhancedstatuscodes") in
  let response :=
    if en then append1 response (c250 ++ "-ENHANCEDSTATUSCODES") else response in
  let caps :=
    {| Size := sz; Pipelining := pl; EnhancedStatusCodes := en; SMTPUTF8 := u8;
       Chunking := ch; STARTTLS := st; EightBitMIME := e8 |} in
  (set_capabilities caps (set_advertisedSize adv s), response).

(** [buildEhloResponse]; [addExtensionCapabilities] adds nothing, there
    being no extension. *)
Definition buildEhloResponse (hostname : string) (s : Session)
  : Session * list string :=
  let parts := parseCapabilityLabel hostname in
  let parts :=
    match CapabilityParser (config s) with
    | Some parse => parse hostname parts
    | None => parts
    end in
  let response := [gostd.itoa Code250 ++ "-badsmtp.test"] in
  let (s1, response) := addStandardCapabilities response parts s in
  (s1, append1 response (gostd.itoa Code250 ++ " OK")).

(** ** Command handlers *)

(** [handleEhlo] *)
Definition handleEhlo (hostname : string) (s : Session) : Session * option error :=
  let hostname := strings_ToLower hostname in
  let parts := parseCapabilityLabel hostname in
  if hasCapability parts "reject" || hasCapability parts "noehl" then
    writeResponse "502 Command not implemented" s
  else
    let (s1, response) := buildEhloResponse hostname s in
    writeResponse (gostd.Join response gostd.CRLF) s1.

(** [handleHelo]; [cmd.Args[0]] panics on an empty argument list. *)
Definition handleHelo (cmd : Command) (s : Session) : Session * option error :=
  if negb (State_eqb (state s) StateHelo) then
    writeResponse "503 Bad sequence of commands" s
  else
    match Args cmd with
    | [] => (s, Some Panic)
    | hostname :: _ =>
        let s := set_heloName hostname s in
        match ExtractHeloError hostname with
        | Some errorResult => writeResponse (formatErrorResult s (Some errorResult)) s
        | None =>
            let s := set_state StateMail s in
            if String.eqb (Name cmd) CmdEHLO then handleEhlo hostname s
            else writeResponse "250 badsmtp.test" s
        end
    end.

(** [auth.NewHandler]: whether the mechanism has a handler. *)
Definition auth_NewHandler (mechanism : string) : bool :=
  let m := strings_ToUpper mechanism in
  String.eqb m "PLAIN" || String.eqb m "LOGIN" || String.eqb m "CRAM-MD5"
  || String.eqb m "CRAM-SHA256" || String.eqb m "XOAUTH2".

(** [handler.Authenticate(s.conn, ...)]: the handler writes its [334]
    prompts to the connection itself; a failed write is an error. *)
Definition auth_Authenticate (x : Extern) (c : Conn) : Conn * option string :=
  let (c1, ok) := writeAll (map (fun p => "334 " ++ p) (authPrompts x)) c in
  if ok then (c1, authUsername x) else (c1, None).

(** [handleAuth] *)
Definition handleAuth (x : Extern) (cmd : Command) (s : Session)
  : Session * option error :=
  if negb (State_eqb (state s) StateMail) && negb (State_eqb (state s) StateAuth) then
    writeResponse "503 Bad sequence of commands" s
  else
    match authErrorResult s with
    | Some e => writeResponse (formatErrorResult s (Some e)) s
    | None =>
        match Args cmd with
        | [] => (s, Some Panic)
        | mech :: _ =>
            if negb (auth_NewHandler mech) then
              writeResponse "504 Authentication mechanism not supported" s
            else
              let (c1, res) := auth_Authenticate x (conn s) in
              let s := set_conn c1 s in
              match res with
              | None => writeResponse "535 Authentication failed" s
              | Some username =>
                  match authenticate x username with
                  | None => writeResponse "535 Authentication failed" s
                  | Some user =>
                      if negb (Active user) then
                        writeResponse "535 Authentication failed: account inactive" s
                      else
                        let s := set_authenticated true s in
                        let s := set_state StateMail s in
                        writeResponse "235 Authentication successful" s
                  end
              end
        end
    end.

(** [handleMail] *)
Definition handleMail (cmd : Command) (s : Session) : Session * option error :=
  if negb (State_eqb (state s) StateMail) then
    writeResponse "503 Bad sequence of commands" s
  else
    match Args cmd with
    | [] => (s, Some Panic)
    | arg0 :: _ =>
        let raw := ExtractMailboxFromArg arg0 in
        if String.eqb raw "" then writeResponse "501 Syntax error in parameters" s
        else if negb (IsValidMailbox raw (SMTPUTF8 (capabilities s))) then
          writeResponse "501 Syntax error in parameters" s
        else
          let fromAddr := NormaliseMailbox raw in
          match ExtractMailFromError fromAddr with
          | Some errorResult =>
              writeResponse (formatErrorResult s (Some errorResult)) s
          | None =>
              (* all deferred error patterns of MAIL FROM *)
              let s := set_pending
                         {| p_data := ExtractDataError fromAddr;
                            p_rset := ExtractRsetError fromAddr;
                            p_quit := ExtractQuitError fromAddr;
                            p_starttls := ExtractStartTLSError fromAddr;
                            p_noop := ExtractNoopError fromAddr;
                            p_auth := ExtractAuthError fromAddr |} s in
              let s := set_mailFrom fromAddr s in
              let s := set_state StateRcpt s in
              writeResponse "250 OK" s
          end
    end.

(** [handleRcpt] *)
Definition handleRcpt (cmd : Command) (s : Session) : Session * option error :=
  if negb (State_eqb (state s) StateRcpt) then
    writeResponse "503 Bad sequence of commands" s
  else
    match Args cmd with
    | [] => (s, Some Panic)
    | arg0 :: _ =>
        let raw := ExtractMailboxFromArg arg0 in
        if String.eqb raw "" then writeResponse "501 Syntax error in parameters" s
        else if negb (IsValidMailbox raw (SMTPUTF8 (capabilities s))) then
          writeResponse "501 Syntax error in parameters" s
        else
          let toAddr := NormaliseMailbox raw in
          match ExtractRcptToError toAddr with
          | Some errorResult =>
              writeResponse (formatErrorResult s (Some errorResult)) s
          | None =>
              let s := set_rcptTo (append1 (rcptTo s) toAddr) s in
              (* stay in StateRcpt to allow multiple recipients *)
              writeResponse "250 OK" s
          end
    end.

(** [strings.SplitN(s, "@", 2)]: the parts before and after the first
    ['@'], or [s] alone. *)
Definition SplitN2_at (s : string) : list string :=
  match gostd.Index s "@" with
  | Some i => [gostd.take i s; gostd.drop (S i) s]
  | None => [s]
  end.

(** The reply of VRFY by the prefix of the lower-cased local part;
    [ambiguous] is the text of the [553] reply, which differs between the
    two places of [handleVrfy]. *)
Definition vrfyReply (addr : string) (ambiguous : string) : string :=
  let local := strings_ToLower (hd "" (SplitN2_at addr)) in
  if gostd.HasPrefix local "exists" then "250 " ++ addr ++ " User exists"
  else if gostd.HasPrefix local "unknown" then
    "551 User not local; please try forward path"
  else if gostd.HasPrefix local "ambiguous" then ambiguous
  else "550 Requested action not taken: mailbox unavailable".

(** [handleVrfy] *)
Definition handleVrfy (cmd : Command) (s : Session) : Session * option error :=
  let target := gostd.Join (Args cmd) " " in
  let raw := ExtractMailbox target in
  if String.eqb raw "" || negb (gostd.Contains raw "@") then
    writeResponse "501 Syntax error in parameters" s
  else if negb (IsValidMailbox raw (SMTPUTF8 (capabilities s))) then
    if SMTPUTF8 (capabilities s) then
      match SplitN2_at raw with
      | [_; domain] =>
          if ValidateDomain domain then
            writeResponse (vrfyReply (NormaliseMailbox raw) "553 User ambiguous") s
          else writeResponse "501 Syntax error in parameters" s
      | _ => writeResponse "501 Syntax error in parameters" s
      end
    else writeResponse "501 Syntax error in parameters" s
  else
    writeResponse
      (vrfyReply (NormaliseMailbox raw)
         "553 Requested action not taken: mailbox name not allowed") s.

(** [readMessageContent] *)
Definition readMessageContent (x : Extern) (s : Session) : Res string :=
  match readDotBytes x with
  | Err e => Err e
  | Ok data =>
      let totalSize := gostd.len data in
      let maxSize := getMaxMessageSize s in
      if totalSize >? maxSize then
        Err (ErrMsg ("message size exceeds limit of " ++ gostd.itoa maxSize
                     ++ " bytes"))
      else Ok data
  end.

(** [storeMessage]: [Some txt] is the store's error. *)
Definition storeMessage (x : Extern) (content : string) (s : Session)
  : Session * option string :=
  let '(headers, bodyBytes) :=
    match mail_ReadMessage content with
    | Some (hdr, body) =>
        (map (fun kv => (fst kv, gostd.Join (snd kv) ", ")) hdr, body)
    | None => ([], "")
    end in
  let size :=
    if gostd.len bodyBytes >? 0 then gostd.len bodyBytes else gostd.len content in
  let msg :=
    {| From := mailFrom s; To := rcptTo s; Content := content;
       Headers := headers; MsgSize := size; Hostname := hostname s;
       TLSUsed := match tlsState s with Some _ => true | None => false end |} in
  (set_storeLog (append1 (storeLog s) msg) s, store x msg).

(** [handleStorageError] *)
Definition handleStorageError (err : string) (s : Session)
  : Session * option error :=
  if gostd.Contains err "not active" then
    writeResponse "550 Requested action not taken: mailbox unavailable" s
  else if gostd.Contains err "quota" then
    writeResponse "452 Requested action not taken: insufficient system storage" s
  else
    writeResponse
      "450 Requested action not taken: mailbox temporarily unavailable" s.

(** [resetSessionState] *)
Definition resetSessionState (s : Session) : Session :=
  let s := set_state StateMail s in
  let s := set_rcptTo [] s in
  let s := set_mailFrom "" s in
  set_pending noPending s.

(** [handleData] *)
Definition handleData (x : Extern) (s : Session) : Session * option error :=
  if negb (State_eqb (state s) StateRcpt) then
    writeResponse "503 Bad sequence of commands" s
  else
    match dataErrorResult s with
    | Some e => writeResponse (formatErrorResult s (Some e)) s
    | None =>
        let s := set_state StateData s in
        match writeResponse "354 End data with <CR><LF>.<CR><LF>" s with
        | (s, Some err) => (s, Some err)
        | (s, None) =>
            match readMessageContent x s with
            | Err err => (s, Some err)
            | Ok messageContent =>
                match storeMessage x messageContent s with
                | (s, Some err) => handleStorageError err s
                | (s, None) =>
                    let s := resetSessionState s in
                    writeResponse "250 OK Message accepted for delivery" s
                end
            end
        end
    end.

(** The sum of two Go [int]s wraps around at 64 bits. *)
Definition wrap64 (z : Z) : Z := (z + 2 ^ 63) mod 2 ^ 64 - 2 ^ 63.

(** [handleBdat] *)
Definition handleBdat (x : Extern) (cmd : Command) (s : Session)
  : Session * option error :=
  if negb (State_eqb (state s) StateRcpt || State_eqb (state s) StateBdat) then
    writeResponse "503 Bad sequence of commands" s
  else
    match Args cmd with
    | [] => (s, Some Panic)
    | arg0 :: more =>
        match gostd.Atoi arg0 with
        | None => writeResponse "501 Syntax error in parameters" s
        | Some n =>
            if n <? 0 then writeResponse "501 Syntax error in parameters" s
            else
              let last :=
                match more with
                | a1 :: _ => strings_EqualFold a1 "LAST"
                | [] => false
                end in
              match dataErrorResult s, last with
              | Some e, true => writeResponse (formatErrorResult s (Some e)) s
              | _, _ =>
                  let totalSoFar := gostd.len (bdatBuffer s) in
                  let maxSize := getMaxMessageSize s in
                  if wrap64 (totalSoFar + n) >? maxSize then
                    writeResponse
                      ("552 Message size exceeds fixed maximum of "
                       ++ gostd.itoa maxSize ++ " bytes") s
                  else
                    match readBDATChunk x n with
                    | Err err => (s, Some err)
                    | Ok chunk =>
                        let s := set_bdatBuffer (bdatBuffer s ++ chunk) s in
                        if last then
                          let content := bdatBuffer s in
                          match storeMessage x content s with
                          | (s, Some err) => handleStorageError err s
                          | (s, None) =>
                              let s := set_bdatBuffer "" s in
                              let s := resetSessionState s in
                              writeResponse "250 OK Message accepted for delivery" s
                          end
                        else
                          let s := set_state StateBdat s in
                          writeResponse "250 OK" s
                    end
              end
        end
    end.

(** [handleRset] *)
Definition handleRset (s : Session) : Session * option error :=
  match rsetErrorResult s with
  | Some e =>
      (* no reset on error: the client may try again *)
      writeResponse (formatErrorResult s (Some e)) s
  | None =>
      let s := set_state StateMail s in
      let s := set_mailFrom "" s in
      let s := set_rcptTo [] s in
      writeResponse "250 OK" s
  end.

(** [handleNoop] *)
Definition handleNoop (s : Session) : Session * option error :=
  match noopErrorResult s with
  | Some e => writeResponse (formatErrorResult s (Some e)) s
  | None => writeResponse "250 OK" s
  end.

(** [handleStartTLS]; [obtainTLSCertificate] and [upgradeToTLS] are the
    environment's: a certificate, then a handshake.  The TLS connection
    wraps the plain one, so [conn] stays the same object. *)
Definition handleStartTLS (x : Extern) (s : Session) : Session * option error :=
  match startTLSErrorResult s with
  | Some e => writeResponse (formatErrorResult s (Some e)) s
  | None =>
      match tlsState s with
      | Some _ => writeResponse "554 TLS already started" s
      | None =>
          match writeResponse "220 Ready to start TLS" s with
          | (s, Some err) => (s, Some err)
          | (s, None) =>
              if negb (certificate x) then
                (s, Some (ErrMsg "failed to generate self-signed certificate"))
              else
                match handshake x with
                | None => (s, Some (ErrMsg "TLS handshake failed"))
                | Some tlsSt =>
                    let s := set_tlsState (Some tlsSt) s in
                    (* reset to HELO state after TLS *)
                    let s := set_state StateHelo s in
                    (s, None)
                end
          end
      end
  end.

(** [handleQuit] *)
Definition handleQuit (s : Session) : Session * option error :=
  match quitErrorResult s with
  | Some e =>
      match writeResponse (formatErrorResult s (Some e)) s with
      | (s, Some err) => (s, Some err)
      | (s, None) => (set_state StateQuit s, Some EOF)
      end
  | None =>
      match writeResponse "221 Bye" s with
      | (s, Some err) => (s, Some err)
      | (s, None) => (set_state StateQuit s, Some EOF)
      end
  end.

(** ** Dispatch and the command loop *)

(** [parseAndLogCommand]: the command to dispatch, if any, and the error
    of a failed write.  No extension is registered, so an unknown verb is
    refused here. *)
Definition parseAndLogCommand (line : string) (s : Session)
  : Session * option Command * option error :=
  match ParseCommand line with
  | None =>
      let (s1, werr) := writeResponse "500 Command not recognised" s in
      (s1, None, werr)
  | Some cmd =>
      if negb (IsValid cmd) then
        let (s1, werr) := writeResponse "500 Command not recognised" s in
        (s1, None, werr)
      else if negb (IsAllowedInState cmd (state s)) then
        let (s1, werr) :=
          writeResponse ("503 Bad sequence - " ++ Name cmd ++ " not allowed in "
                         ++ State_String (state s) ++ " state") s in
        (s1, None, werr)
      else
        match ValidateArgs cmd with
        | Some msg =>
            let (s1, werr) := writeResponse msg s in
            (s1, None, werr)
        | None => (s, Some cmd, None)
        end
  end.

(** [tryExtensionHandlers] with [config.SMTPExtensions == nil] *)
Definition tryExtensionHandlers (cmd : Command) (s : Session)
  : Session * bool * option error := (s, false, None).

(** [commandHandlers] and the lookup [handlers[cmd.Name]] of
    [handleCommand] *)
Definition dispatch (x : Extern) (cmd : Command) (s : Session)
  : Session * option error :=
  let name := Name cmd in
  if String.eqb name CmdHELO then handleHelo cmd s
  else if String.eqb name CmdEHLO then handleHelo cmd s
  else if String.eqb name CmdAUTH then handleAuth x cmd s
  else if String.eqb name CmdMAIL then handleMail cmd s
  else if String.eqb name CmdRCPT then handleRcpt cmd s
  else if String.eqb name CmdDATA then handleData x s
  else if String.eqb name CmdBDAT then handleBdat x cmd s
  else if String.eqb name CmdRSET then handleRset s
  else if String.eqb name CmdNOOP then handleNoop s
  else if String.eqb name CmdSTARTTLS then handleStartTLS x s
  else if String.eqb name CmdQUIT then handleQuit s
  else if String.eqb name CmdVRFY then handleVrfy cmd s
  else
    match tryExtensionHandlers cmd s with
    | (s1, _, Some err) => (s1, Some err)
    | (s1, true, None) => (s1, None)
    | (s1, false, None) => writeResponse "500 Command not recognised" s1
    end.

(** The first part of [handleCommand]: a command that breaks pipelining
    flushes the queue and leaves pipelining mode. *)
Definition breakPipelining (cmd : Command) (s : Session)
  : Session * option error :=
  if breaksPipelining (Name cmd) then
    match flushResponses s with
    | (s1, Some err) => (s1, Some err)
    | (s1, None) => (set_pipeliningMode false s1, None)
    end
  else (s, None).

(** The last part of [handleCommand] *)
Definition finishCommand (cmd : Command) (r : Session * option error)
  : Session * option error :=
  let (s, cmdErr) := r in
  match cmdErr with
  | Some _ => flushAndReturn cmdErr s
  | None =>
      if breaksPipelining (Name cmd) then flushAndReturn cmdErr s
      else (s, cmdErr)
  end.

(** [handleCommand] *)
Definition handleCommand (x : Extern) (line : string) (s : Session)
  : Session * option error :=
  match parseAndLogCommand line s with
  | (s1, _, Some err) => (s1, Some err)
  | (s1, None, None) => (s1, None)
  | (s1, Some cmd, None) =>
      match breakPipelining cmd s1 with
      | (s2, Some err) => (s2, Some err)
      | (s2, None) => finishCommand cmd (dispatch x cmd s2)
      end
  end.

(** One line read by the command loop, with what the environment does
    while the loop handles it. *)
Record Input : Type := { line : string; env : Extern }.

(** [detectPipelining] *)
Definition detectPipelining (x : Extern) : bool := peekMore x.

(** [runCommandLoop] on the lines the client sends; after the last one
    [ReadLine] returns [io.EOF]. *)
Fixpoint runCommandLoop (inputs : list Input) (s : Session)
  : Session * option error :=
  match inputs with
  | [] => (s, None)
  | i :: rest =>
      let ln := strings_TrimSpace (line i) in
      if String.eqb ln "" then runCommandLoop rest s
      else if gostd.len ln >? MaxCommandLength then
        match writeResponse "500 Command too long" s with
        | (s1, Some err) => (s1, Some err)
        | (s1, None) => runCommandLoop rest s1
        end
      else
        let s1 :=
          if Pipelining (capabilities s) && negb (pipeliningMode s) then
            if detectPipelining (env i) then set_pipeliningMode true s else s
          else s in
        match handleCommand (env i) ln s1 with
        | (s2, Some EOF) => (s2, None)
        | (s2, Some err) => (s2, Some err)
        | (s2, None) => runCommandLoop rest s2
        end
  end.

(** [setupSessionBehaviourAndGreet]; the delays are not modelled. *)
Definition setupSessionBehaviourAndGreet (s : Session) : Session * option error :=
  if DropImmediate (config s) then (s, None)
  else if DropDelay (config s) >? 0 then (s, None)
  else
    let identity :=
      if negb (String.eqb (hostname s) "") then hostname s
      else if negb (String.eqb (TLSHostname (config s)) "")
      then TLSHostname (config s)
      else "badsmtp.test" in
    match writeResponse (gostd.itoa Code220 ++ " " ++ identity ++ " ESMTP "
                         ++ ServerGreeting) s with
    | (s1, Some err) => (s1, Some err)
    | (s1, None) => (set_state StateHelo s1, None)
    end.

(** [Handle]; the deferred function closes the connection. *)
Definition Handle (inputs : list Input) (s : Session) : Session * option error :=
  match setupSessionBehaviourAndGreet s with
  | (s1, Some err) => (set_conn (conn_Close (conn s1)) s1, Some err)
  | (s1, None) =>
      let (s2, err) := runCommandLoop inputs s1 in
      (set_conn (conn_Close (conn s2)) s2, err)
  end.

End Ops.

(** [NewSessionWithHostname]; [tls] is the state the listener of the
    implicit-TLS port stores in the session. *)
Definition NewSessionWithHostname (c : Conn) (cfg : Config) (host : string)
    (tls : option ConnectionState) : Session :=
  {| conn := c; state := StateGreeting; heloName := ""; mailFrom := "";
     rcptTo := []; authenticated := false; config := cfg; tlsState := tls;
     hostname := host;
     capabilities :=
       {| Size := false; Pipelining := false; EnhancedStatusCodes := false;
          SMTPUTF8 := false; Chunking := false; STARTTLS := false;
          EightBitMIME := false |};
     responseQueue := []; pipeliningMode := false; advertisedSize := 0;
     bdatBuffer := ""; dataErrorResult := None; rsetErrorResult := None;
     quitErrorResult := None; startTLSErrorResult := None;
     noopErrorResult := None; authErrorResult := None; storeLog := [] |}.

End server.

(* ================================================================== *)
(** * An ASCII implementation of the library, for concrete runs *)
(* ================================================================== *)

(** The fields of [asciiStd] agree with Go's functions on ASCII strings.
    [mail_ParseAddress] accepts a bare or angle-bracketed [local@domain]
    whose local part is a dot-atom and whose domain is made of letters,
    digits, dots and hyphens, which [mail.ParseAddress] returns unchanged.
    [mail_ReadMessage] fails: the bodies of the concrete runs below have no
    header section, where [mail.ReadMessage] fails too. *)
Module ascii_std.

Definition lower_byte (c : ascii) : ascii :=
  if gostd.is_upper c then ascii_of_N (N_of_ascii c + 32) else c.

Definition upper_byte (c : ascii) : ascii :=
  if gostd.is_lower c then ascii_of_N (N_of_ascii c - 32) else c.

Fixpoint map_bytes (f : ascii -> ascii) (s : string) : string :=
  match s with
  | EmptyString => EmptyString
  | String c t => String (f c) (map_bytes f t)
  end.

Definition ToLower : string -> string := map_bytes lower_byte.
Definition ToUpper : string -> string := map_bytes upper_byte.

Definition is_space (c : ascii) : bool :=
  let n := Z.of_N (N_of_ascii c) in ((9 <=? n) && (n <=? 13)) || (n =? 32).

Fixpoint trim_left_space (s : string) : string :=
  match s with
  | EmptyString => EmptyString
  | String c t => if is_space c then trim_left_space t else s
  end.

Definition TrimSpace (s : string) : string :=
  gostd.rev_string (trim_left_space (gostd.rev_string (trim_left_space s))).

Definition EqualFold (a b : string) : bool := String.eqb (ToLower a) (ToLower b).

(** The fields in progress ([cur], reversed) and those completed. *)
Fixpoint fields_from (cur : string) (s : string) : list string :=
  let flush := match cur with
               | EmptyString => []
               | _ => [gostd.rev_string cur]
               end in
  match s with
  | EmptyString => flush
  | String c t =>
      if is_space c then (flush ++ fields_from EmptyString t)%list
      else fields_from (String c cur) t
  end.

Definition Fields (s : string) : list string := fields_from EmptyString s.

Definition domain_byte (c : ascii) : bool :=
  gostd.is_lower c || gostd.is_upper c || gostd.is_digit c.

Definition label_ok (l : string) : bool :=
  match l with
  | EmptyString => false
  | String c _ =>
      (String.length l <=? 63)%nat
      && domain_byte c
      && match gostd.rev_string l with
         | String d _ => domain_byte d
         | EmptyString => false
         end
      && gostd.all_bytes (fun b => domain_byte b || Ascii.eqb b "-") l
  end.

Definition DomainMatch (d : string) : bool :=
  forallb label_ok (gostd.SplitByte d ".").

Definition atom_byte (c : ascii) : bool :=
  gostd.is_lower c || gostd.is_upper c || gostd.is_digit c
  || gostd.byte_in c "!#$%&'*+/=?^_`{|}~-".

Definition atom_ok (a : string) : bool :=
  negb (String.eqb a "") && gostd.all_bytes atom_byte a.

Definition addr_spec (s : string) : option string :=
  match gostd.LastIndexByte s "@" with
  | None => None
  | Some i =>
      let local := gostd.take i s in
      let domain := gostd.drop (S i) s in
      if forallb atom_ok (gostd.SplitByte local ".") && DomainMatch domain
      then Some s else None
  end.

Definition ParseAddress (s : string) : option string :=
  let s := TrimSpace s in
  if gostd.HasPrefix s "<" && gostd.HasSuffix s ">"
  then addr_spec (gostd.take (String.length s - 2) (gostd.drop 1 s))
  else addr_spec s.

Definition runes (s : string) : list Z :=
  map (fun c => Z.of_N (N_of_ascii c)) (list_ascii_of_string s).

Definition IsLetter (r : Z) : bool :=
  ((65 <=? r) && (r <=? 90)) || ((97 <=? r) && (r <=? 122)).

Definition IsNumber (r : Z) : bool := (48 <=? r) && (r <=? 57).

End ascii_std.

Definition asciiStd : GoStd :=
  {| strings_ToLower := ascii_std.ToLower;
     strings_ToUpper := ascii_std.ToUpper;
     strings_TrimSpace := ascii_std.TrimSpace;
     strings_EqualFold := ascii_std.EqualFold;
     strings_Fields := ascii_std.Fields;
     mail_ParseAddress := ascii_std.ParseAddress;
     mail_ReadMessage := fun _ => None;
     utf8_runes := ascii_std.runes;
     unicode_IsLetter := ascii_std.IsLetter;
     unicode_IsNumber := ascii_std.IsNumber;
     domainRegex_MatchString := ascii_std.DomainMatch |}.

(** ** Concrete runs *)

Module run.
Import smtp server.

(** A connection on which every write succeeds. *)
Definition wire : Conn :=
  {| written := []; closed := false; accepts := fun _ _ => true |}.

Definition defaultConfig : Config :=
  {| DropImmediate := false; GreetingDelay := 0; DropDelay := 0;
     CommandDelay := 0; TLSHostname := ""; CapabilityParser := None |}.

(** An environment in which nothing further arrives from the client, the
    store accepts every message and every user is active. *)
Definition quiet : Extern :=
  {| peekMore := false;
     readDotBytes := Err ErrRead;
     readBDATChunk := fun _ => Err ErrRead;
     authPrompts := [];
     authUsername := None;
     authenticate := fun u => Some {| Username := u; Active := true |};
     certificate := true;
     handshake := Some {| Version := 772; CipherSuite := 4865 |};
     store := fun _ => None |}.

Definition with_body (body : string) : Extern :=
  {| peekMore := false;
     readDotBytes := Ok body;
     readBDATChunk := fun _ => Ok body;
     authPrompts := authPrompts quiet;
     authUsername := authUsername quiet;
     authenticate := authenticate quiet;
     certificate := true;
     handshake := handshake quiet;
     store := store quiet |}.


Definition cmd (l : string) : Input := {| line := l; env := quiet |}.

Definition fresh : Session := NewSessionWithHostname wire defaultConfig "" None.

(** The session after the banner and the given lines. *)
Definition after (inputs : list Input) : Session * option error :=
  match setupSessionBehaviourAndGreet (L := asciiStd) fresh with
  | (s1, Some err) => (s1, Some err)
  | (s1, None) => runCommandLoop (L := asciiStd) inputs s1
  end.

Definition replies (inputs : list Input) : list string :=
  skipn 1 (written (conn (fst (after inputs)))).

End run.

(** ** Sessions and commands of the concrete runs *)

Module sample.
Import smtp server run.

Definition ehlo : Input := cmd "EHLO c.example".

(** The replies after the banner and the EHLO response. *)
Definition replies2 (inputs : list Input) : list string :=
  skipn 2 (written (conn (fst (after inputs)))).

Definition crlf (s : string) : string := s ++ gostd.CRLF.

Definition err552 : ErrorResult :=
  {| Code := 552; Enhanced := "";
     smtp.Message := "552 Requested mail action aborted: exceeded storage allocation" |}.

Definition err550 : ErrorResult :=
  {| Code := 550; Enhanced := "";
     smtp.Message := "550 Requested action not taken: mailbox unavailable" |}.

Definition err550_511 : ErrorResult :=
  {| Code := 550; Enhanced := "5.1.1";
     smtp.Message := "550 5.1.1 Requested action not taken: mailbox unavailable" |}.

(** After the banner; after EHLO; after MAIL FROM. *)
Definition greeted : Session := fst (after []).
Definition inMail : Session := fst (after [ehlo]).
Definition inRcpt : Session := fst (after [ehlo; cmd "MAIL FROM:<a@x.example>"]).

(** After [EHLO size1000.example], MAIL FROM and RCPT TO: the limit of the
    session is 1000 bytes. *)
Definition inRcpt1000 : Session :=
  fst (after [cmd "EHLO size1000.example"; cmd "MAIL FROM:<a@x.example>";
              cmd "RCPT TO:<b@y.example>"]).


(** [n] bytes ['a']. *)
Fixpoint bytes (n : nat) : string :=
  match n with
  | O => EmptyString
  | S n' => String "a" (bytes n')
  end.


End sample.

(* ================================================================== *)
(** * The vocabulary of the properties *)
(* ================================================================== *)

(** From here on every argument is written out. *)
Unset Implicit Arguments.

Module props.
Import smtp server.

(** A non-empty run of decimal digits. *)
Definition digits (s : string) : Prop :=
  s <> "" /\ gostd.all_bytes gostd.is_digit s = true.

(** An outgoing line beginning ["421 "]. *)
Definition line421 (ln : string) : bool := gostd.HasPrefix ln "421 ".

Definition with_crlf (rs : list string) : list string :=
  map (fun r => r ++ gostd.CRLF) rs.

(** The connection is open and the network accepts every write. *)
Definition healthy (c : Conn) : Prop :=
  closed c = false /\ forall w b, accepts c w b = true.

(** No line beginning ["421 "] was written before the last one, and none
    at all while the connection is open. *)
Definition trace_ok (c : Conn) : Prop :=
  Forall (fun ln => line421 ln = false)
         (if closed c then removelast (written c) else written c).

Section WithStd.
Context {L : GoStd}.

(** What the session keeps true of its connection and its queue: the trace
    is [trace_ok], no 421 response is ever queued, and the queue is empty
    outside pipelining mode. *)
Definition InvIO (c : Conn) (q : list string) (pm : bool) : Prop :=
  trace_ok c
  /\ Forall (fun r => isResponse421 r = false) q
  /\ (pm = false -> q = []).

Definition Inv (s : Session) : Prop :=
  InvIO (conn s) (responseQueue s) (pipeliningMode s).

(** A step only appends to what was written. *)
Definition extends (c c' : Conn) : Prop :=
  exists more, written c' = (written c ++ more)%list.

(** A step that closes the connection reports an error, no step reopens
    it, and the trace only grows. *)
Definition closes (c c' : Conn) (e : option error) : Prop :=
  (closed c = false -> closed c' = true -> e <> None)
  /\ (closed c = true -> closed c' = true)
  /\ extends c c'.

(** The recipient a RCPT command is accepted for: the address is well
    formed and carries no [rcpt<NNN>] pattern.  [handleRcpt] answers these
    commands, and only these, with [250 OK]. *)
Definition rcptAccepted (utf8 : bool) (cmd : Command) : option string :=
  match Args cmd with
  | [] => None
  | arg0 :: _ =>
      let raw := ExtractMailboxFromArg arg0 in
      if String.eqb raw "" then None
      else if negb (IsValidMailbox raw utf8) then None
      else
        let toAddr := NormaliseMailbox raw in
        match ExtractRcptToError toAddr with
        | Some _ => None
        | None => Some toAddr
        end
  end.

(** The recipient whose address asks for a synthetic error, and the error. *)
Definition rcptRefused (utf8 : bool) (cmd : Command) : option ErrorResult :=
  match Args cmd with
  | [] => None
  | arg0 :: _ =>
      let raw := ExtractMailboxFromArg arg0 in
      if String.eqb raw "" then None
      else if negb (IsValidMailbox raw utf8) then None
      else ExtractRcptToError (NormaliseMailbox raw)
  end.

(** A run of RCPT commands, each handled in turn. *)
Definition handleRcpts (cmds : list Command) (s : Session) : Session :=
  fold_left (fun s cmd => fst (handleRcpt cmd s)) cmds s.

(** The addresses of the accepted commands, in order. *)
Fixpoint acceptedRecipients (utf8 : bool) (cmds : list Command) : list string :=
  match cmds with
  | [] => []
  | cmd :: rest =>
      match rcptAccepted utf8 cmd with
      | Some a => a :: acceptedRecipients utf8 rest
      | None => acceptedRecipients utf8 rest
      end
  end.

(** The error results an accepted MAIL FROM address schedules. *)
Definition scheduled (fromAddr : string) : Pending :=
  {| p_data := ExtractDataError fromAddr;
     p_rset := ExtractRsetError fromAddr;
     p_quit := ExtractQuitError fromAddr;
     p_starttls := ExtractStartTLSError fromAddr;
     p_noop := ExtractNoopError fromAddr;
     p_auth := ExtractAuthError fromAddr |}.

(** What RSET does to the session, before the reply. *)
Definition rsetSession (s : Session) : Session :=
  set_rcptTo [] (set_mailFrom "" (set_state StateMail s)).

(** The connection after one more successful write. *)
Definition sent (b : list string) (c : Conn) : Conn :=
  {| written := written c ++ b; closed := false; accepts := accepts c |}.

(** The session once its queue has been flushed on a healthy connection
    and pipelining mode left. *)
Definition flushed (s : Session) : Session :=
  set_pipeliningMode false
    (set_responseQueue []
       (set_conn (sent (with_crlf (responseQueue s)) (conn s)) s)).

(** What every handler guarantees. *)
Definition Good (s s' : Session) (e : option error) : Prop :=
  (Inv s -> Inv s') /\ closes (conn s) (conn s') e
  /\ pipeliningMode s' = pipeliningMode s.


End WithStd.

(** The part of the session that talks to the client. *)
Definition io (s : Session) : Conn * list string * bool :=
  (conn s, responseQueue s, pipeliningMode s).

(** [s'] differs from [s] in the connection and the queue only. *)
Definition only_io (s s' : Session) : Prop :=
  s' = set_responseQueue (responseQueue s') (set_conn (conn s') s).

(** Before a transaction starts the envelope is empty. *)
Definition idle (s : Session) : Prop :=
  match state s with
  | StateGreeting | StateHelo | StateAuth | StateMail =>
      mailFrom s = "" /\ rcptTo s = []
  | _ => True
  end.

End props.

(* ================================================================== *)
(** * What a command changes *)
(* ================================================================== *)

Module effects.
Import smtp server props.

(** The session without its connection, its queue and the pipelining
    flag. *)
Definition core (s : Session) :=
  (state s, heloName s, mailFrom s, rcptTo s, authenticated s, tlsState s,
   capabilities s, advertisedSize s, bdatBuffer s, pending s, storeLog s,
   config s, hostname s).

(** The environment reports errors of its own, never an index out of
    range. *)
Definition env_sound (x : Extern) : Prop :=
  readDotBytes x <> Err Panic /\ forall n, readBDATChunk x n <> Err Panic.

(** The states one command line can lead to. *)
Definition next_states (st : State) : list State :=
  match st with
  | StateGreeting => [StateGreeting]
  | StateHelo => [StateHelo; StateMail; StateQuit]
  | StateAuth => [StateAuth; StateMail; StateQuit]
  | StateMail => [StateMail; StateRcpt; StateHelo; StateQuit]
  | StateRcpt => [StateRcpt; StateData; StateBdat; StateMail; StateQuit]
  | StateData => [StateData; StateQuit]
  | StateBdat => [StateBdat; StateMail; StateQuit]
  | StateQuit => [StateQuit]
  end.

Section WithStd.
Context {L : GoStd}.

(** The changes a command of the given name makes to the session; [msg] is
    the message handed to the store. *)
Inductive effect : string -> Session -> Session -> Prop :=
| eff_none name s : effect name s s
| eff_helo_refused name h s :
    name = CmdHELO \/ name = CmdEHLO -> state s = StateHelo ->
    effect name s (set_heloName h s)
| eff_helo name h s :
    name = CmdHELO \/ name = CmdEHLO -> state s = StateHelo ->
    effect name s (set_state StateMail (set_heloName h s))
| eff_ehlo h s :
    state s = StateHelo ->
    effect CmdEHLO s
      (fst (buildEhloResponse (strings_ToLower h)
              (set_state StateMail (set_heloName h s))))
| eff_auth s :
    state s = StateMail \/ state s = StateAuth ->
    effect CmdAUTH s (set_state StateMail (set_authenticated true s))
| eff_mail a s :
    state s = StateMail ->
    effect CmdMAIL s
      (set_state StateRcpt (set_mailFrom a (set_pending (scheduled a) s)))
| eff_rcpt a s :
    state s = StateRcpt ->
    effect CmdRCPT s (set_rcptTo (rcptTo s ++ [a])%list s)
| eff_data_begun s :
    state s = StateRcpt -> effect CmdDATA s (set_state StateData s)
| eff_data_kept msg s :
    state s = StateRcpt -> From msg = mailFrom s -> To msg = rcptTo s ->
    effect CmdDATA s
      (set_storeLog (storeLog s ++ [msg])%list (set_state StateData s))
| eff_data_done msg s :
    state s = StateRcpt -> From msg = mailFrom s -> To msg = rcptTo s ->
    effect CmdDATA s
      (resetSessionState
         (set_storeLog (storeLog s ++ [msg])%list (set_state StateData s)))
| eff_bdat_chunk chunk s :
    state s = StateRcpt \/ state s = StateBdat ->
    effect CmdBDAT s
      (set_state StateBdat (set_bdatBuffer (bdatBuffer s ++ chunk) s))
| eff_bdat_kept chunk msg s :
    state s = StateRcpt \/ state s = StateBdat ->
    From msg = mailFrom s -> To msg = rcptTo s ->
    Content msg = bdatBuffer s ++ chunk ->
    effect CmdBDAT s
      (set_storeLog (storeLog s ++ [msg])%list
         (set_bdatBuffer (bdatBuffer s ++ chunk) s))
| eff_bdat_done chunk msg s :
    state s = StateRcpt \/ state s = StateBdat ->
    From msg = mailFrom s -> To msg = rcptTo s ->
    Content msg = bdatBuffer s ++ chunk ->
    effect CmdBDAT s
      (resetSessionState
         (set_bdatBuffer ""
            (set_storeLog (storeLog s ++ [msg])%list
               (set_bdatBuffer (bdatBuffer s ++ chunk) s))))
| eff_rset s :
    In (state s) [StateHelo; StateMail; StateRcpt; StateAuth] ->
    effect CmdRSET s (rsetSession s)
| eff_starttls st s :
    state s = StateHelo \/ state s = StateMail -> tlsState s = None ->
    effect CmdSTARTTLS s (set_state StateHelo (set_tlsState (Some st) s))
| eff_quit s :
    In (state s) [StateHelo; StateMail; StateRcpt; StateData; StateBdat; StateAuth] ->
    effect CmdQUIT s (set_state StateQuit s).

End WithStd.

(** A step that returns without an error has produced exactly one
    response: queued in pipelining mode, written to the connection
    otherwise. *)
Definition one_reply (s : Session) (r : Session * option error) : Prop :=
  snd r = None ->
  exists rsp,
    io (fst r)
    = if pipeliningMode s
      then (conn s, (responseQueue s ++ [rsp])%list, true)
      else (sent [rsp ++ gostd.CRLF] (conn s), responseQueue s, false).

(** The line of an EHLO capability that is on. *)
Definition opt (b : bool) (ln : string) : list string := if b then [ln] else [].

(** The value a capability part gives for SIZE: the digits of the
    leftmost [size<digits>] in the part, when they are a positive [int].
    [parseAndClampSize] passes over a part that gives none. *)
Definition sizeOf (part : string) : option Z :=
  match sizeRegex part with
  | Some m1 =>
      match gostd.Atoi m1 with
      | Some v => if v <=? 0 then None else Some v
      | None => None
      end
  | None => None
  end.

(** [n] clamped to the interval of the advertised sizes. *)
Definition clampSize (n : Z) : Z :=
  Z.max advertisedSizeMin (Z.min n advertisedSizeMax).

(** The capability parts [buildEhloResponse] works with. *)
Definition capabilityParts {L : GoStd} (hostname : string) (s : Session)
  : list string :=
  match CapabilityParser (config s) with
  | Some parse => parse hostname (parseCapabilityLabel hostname)
  | None => parseCapabilityLabel hostname
  end.

End effects.

(* ================================================================== *)
(** * Further functions of the packages *)
(* ================================================================== *)

(** ** Package smtp: [ValidateEmailAddress] *)

Module smtp_email.
Import smtp.

Section WithStd.
Context {L : GoStd}.

(** [ValidateEmailAddress] *)
Definition ValidateEmailAddress (email : string) : bool :=
  match gostd.LastIndexByte email "@" with
  | None => false
  | Some atIndex =>
      if (atIndex =? 0)%nat || (atIndex =? String.length email - 1)%nat then false
      else
        let localPart := gostd.take atIndex email in
        let domain := gostd.drop (S atIndex) email in
        if negb (asciiLocalRe localPart) then false
        else if gostd.len localPart >? MaxLocalPartLength then false
        else ValidateDomain domain
  end.

End WithStd.

End smtp_email.

(** ** Package auth *)

Module auth.
Import server.

(** [IsValidAuth] *)
Definition IsValidAuth (username : string) : bool :=
  negb (gostd.Contains username "badauth").

Definition NUL : string := String "000" EmptyString.

(** [strings.SplitN(s, sep, 3)] for a one-byte separator *)
Definition SplitN3 (s sep : string) : list string :=
  match gostd.Index s sep with
  | None => [s]
  | Some i =>
      let rest := gostd.drop (S i) s in
      match gostd.Index rest sep with
      | None => [gostd.take i s; rest]
      | Some j => [gostd.take i s; gostd.take j rest; gostd.drop (S j) rest]
      end
  end.

Section WithStd.
Context {L : GoStd}.

(** [PlainHandler.Authenticate]; [decode] is
    [base64.StdEncoding.DecodeString] and [readLine] the line the client
    sends in interactive mode, if the read succeeds.  [parts] is the
    command name followed by its arguments. *)
Definition PlainHandler_Authenticate (decode : string -> option string)
    (readLine : option string) (parts : list string) : Res string :=
  let authData :=
    match parts with
    | _ :: _ :: d :: _ => Some d
    | [_; _] =>
        match readLine with
        | Some line => Some (strings_TrimSpace line)
        | None => Some ""
        end
    | _ => None
    end in
  match authData with
  | None => Err (ErrMsg "invalid PLAIN command")
  | Some authData =>
      if String.eqb authData "" then Err (ErrMsg "no auth data provided")
      else
        match decode authData with
        | None => Err (ErrMsg "invalid base64")
        | Some decoded =>
            match SplitN3 decoded NUL with
            | [_; username; _] => Ok username
            | _ => Err (ErrMsg "invalid PLAIN format")
            end
        end
  end.

End WithStd.

End auth.

(** ** server/config.go: ports and the default authenticator *)

Module config.
Import server.

(** [DefaultAuthenticator.Authenticate]; [None] is the error. *)
Definition DefaultAuthenticator_Authenticate (username : string) : option User :=
  if negb (auth.IsValidAuth username) then None
  else Some {| Username := username; Active := true |}.

Definition DelayOptions : list Z := [0; 1; 2; 8; 10; 30; 60; 120; 300; 600].
Definition DelayCount : Z := 10.

(** [DelayOptions[offset]]: [None] is the panic of an index out of
    range. *)
Definition DelayOption (offset : Z) : option Z :=
  if (0 <=? offset) && (offset <? Z.of_nat (List.length DelayOptions))
  then nth_error DelayOptions (Z.to_nat offset) else None.

Record PortRange : Type := { RangeName : string; Start : Z; Stop : Z }.

(** [NewPortRange]; the field [End] is called [Stop] here. *)
Definition NewPortRange (name : string) (start rangeSize : Z) : PortRange :=
  {| RangeName := name; Start := start; Stop := wrap64 (start + rangeSize) |}.

(** [PortRange.Contains] *)
Definition Contains (pr : PortRange) (port : Z) : bool :=
  (port >=? Start pr) && (port <=? Stop pr).

(** [PortRange.OverlapsWith] *)
Definition OverlapsWith (pr other : PortRange) : bool :=
  (Start pr <=? Stop other) && (Start other <=? Stop pr).

(** [PortRange.ConflictError] *)
Definition ConflictError (pr other : PortRange) : string :=
  "port ranges overlap: " ++ RangeName pr ++ " (" ++ gostd.itoa (Start pr) ++ "-"
  ++ gostd.itoa (Stop pr) ++ ") and " ++ RangeName other ++ " ("
  ++ gostd.itoa (Start other) ++ "-" ++ gostd.itoa (Stop other) ++ ")".

(** The inner loop of [ValidateRangeOverlaps]: the first of the later
    ranges that overlaps [pr]. *)
Fixpoint overlap_after (pr : PortRange) (later : list PortRange) : option string :=
  match later with
  | [] => None
  | other :: rest =>
      if OverlapsWith pr other then Some (ConflictError pr other)
      else overlap_after pr rest
  end.

(** [PortValidator.ValidateRangeOverlaps]; [None] is [nil]. *)
Fixpoint ValidateRangeOverlaps (ranges : list PortRange) : option string :=
  match ranges with
  | [] => None
  | pr :: later =>
      match overlap_after pr later with
      | Some e => Some e
      | None => ValidateRangeOverlaps later
      end
  end.

Definition set_GreetingDelay (v : Z) (c : Config) : Config :=
  {| DropImmediate := DropImmediate c; GreetingDelay := v; DropDelay := DropDelay c;
     CommandDelay := CommandDelay c; TLSHostname := TLSHostname c;
     CapabilityParser := CapabilityParser c |}.

Definition set_DropDelay (v : Z) (c : Config) : Config :=
  {| DropImmediate := DropImmediate c; GreetingDelay := GreetingDelay c; DropDelay := v;
     CommandDelay := CommandDelay c; TLSHostname := TLSHostname c;
     CapabilityParser := CapabilityParser c |}.

Definition set_DropImmediate (v : bool) (c : Config) : Config :=
  {| DropImmediate := v; GreetingDelay := GreetingDelay c; DropDelay := DropDelay c;
     CommandDelay := CommandDelay c; TLSHostname := TLSHostname c;
     CapabilityParser := CapabilityParser c |}.

(** [Config.AnalysePortBehaviour].  The fields [Port],
    [GreetingDelayPortStart] and [DropDelayPortStart] of [Config], which
    the session does not read, are the arguments [port], [gstart] and
    [dstart]; [None] is the panic of an index out of range. *)
Definition AnalysePortBehaviour (port gstart dstart : Z) (c : Config) : option Config :=
  let greeting :=
    if (port >=? gstart) && (port <? wrap64 (gstart + DelayCount)) then
      let offset := wrap64 (port - gstart) in
      match DelayOption offset with
      | Some d => Some (set_GreetingDelay d c)
      | None => None
      end
    else Some c in
  match greeting with
  | None => None
  | Some c =>
      if (port >=? dstart) && (port <? wrap64 (dstart + DelayCount)) then
        let offset := wrap64 (port - dstart) in
        match DelayOption offset with
        | Some d =>
            let c := set_DropDelay d c in
            if offset =? 0 then Some (set_DropImmediate true c) else Some c
        | None => None
        end
      else Some c
  end.

End config.

(** ** server/session.go: [CloseWith421] *)

Module shutdown.
Import smtp server.

Section WithStd.
Context {L : GoStd}.

(** [CloseWith421]; [closeErr] is the error of [conn.Close()], and the
    write deadline is part of what the connection accepts.  The call is
    taken on its own: no command of the session runs at the same time. *)
Definition CloseWith421 (closeErr : option error) (reason : string) (s : Session)
  : Session * option error :=
  let msg := if negb (String.eqb reason "") then reason
             else GetErrorMessage Code421 in
  let resp := gostd.itoa Code421 ++ " " ++ msg in
  (* a failed flush is logged, and the notice is still attempted *)
  let (s1, _) := flushResponses s in
  let (c2, ok) := conn_Write (resp ++ gostd.CRLF) (conn s1) in
  if negb ok then (set_conn (conn_Close c2) s1, Some ErrWrite)
  else
    match closeErr with
    | Some err => (set_conn (conn_Close c2) s1, Some err)
    | None => (set_conn (conn_Close c2) s1, None)
    end.

End WithStd.

End shutdown.

(** ** Further sessions and environments of the concrete runs *)

Module cases.
Import smtp server run sample.

(** The client answers the prompts of AUTH as the user [u]. *)
Definition as_user (u : string) : Extern :=
  {| peekMore := false;
     readDotBytes := readDotBytes quiet;
     readBDATChunk := readBDATChunk quiet;
     authPrompts := [];
     authUsername := Some u;
     authenticate := authenticate quiet;
     certificate := true;
     handshake := handshake quiet;
     store := store quiet |}.

(** The same client where the server runs the default authenticator. *)
Definition pattern_user (u : string) : Extern :=
  {| peekMore := false;
     readDotBytes := readDotBytes quiet;
     readBDATChunk := readBDATChunk quiet;
     authPrompts := [];
     authUsername := Some u;
     authenticate := config.DefaultAuthenticator_Authenticate;
     certificate := true;
     handshake := handshake quiet;
     store := store quiet |}.

(** The client sends [body]; the store fails with the error [err]. *)
Definition store_fails (body err : string) : Extern :=
  {| peekMore := false;
     readDotBytes := Ok body;
     readBDATChunk := fun _ => Ok body;
     authPrompts := authPrompts quiet;
     authUsername := authUsername quiet;
     authenticate := authenticate quiet;
     certificate := true;
     handshake := handshake quiet;
     store := fun _ => Some err |}.

(** The decoded payload of [AUTH PLAIN AGFsaWNlAHNlY3JldA==], and a
    decoder that knows this payload only. *)
Definition alice_plain : string := auth.NUL ++ "alice" ++ auth.NUL ++ "secret".

Definition decode_alice (data : string) : option string :=
  if String.eqb data "AGFsaWNlAHNlY3JldA==" then Some alice_plain else None.


Definition greetingRange : config.PortRange :=
  config.NewPortRange "greeting delay" 25200 9.
Definition dropRange : config.PortRange :=
  config.NewPortRange "drop delay" 25600 9.

End cases.

(* ================================================================== *)
(** * Properties *)
(* ================================================================== *)

Import smtp server.

(** ** The library *)

Example Atoi_421 : gostd.Atoi "421" = Some 421.
Proof. reflexivity. Qed.

Example Atoi_signed : gostd.Atoi "+42" = Some 42 /\ gostd.Atoi "-7" = Some (-7).
Proof. split; reflexivity. Qed.

Example Atoi_range : gostd.Atoi "9223372036854775808" = None.
Proof. reflexivity. Qed.

Example itoa_550 : gostd.itoa 550 = "550" /\ gostd.itoa 7 = "7".
Proof. split; reflexivity. Qed.

Example Split_label :
  gostd.SplitByte "size10000-no8bit-authplain" "-" =
  ["size10000"; "no8bit"; "authplain"].
Proof. reflexivity. Qed.

Lemma State_eqb_eq (a b : State) : State_eqb a b = true <-> a = b.
Proof. destruct a, b; simpl; split; intro H; try reflexivity; discriminate. Qed.

Import props.

Section Connection.
Context {L : GoStd}.

Lemma len_ge3 (a b c : ascii) (t : string) :
  (gostd.len (String a (String b (String c t))) >=? 3) = true.
Proof.
  unfold gostd.len. simpl String.length.
  apply Z.geb_le. lia.
Qed.

Lemma isResponse421_prefix (rest : string) :
  isResponse421 ("421 " ++ rest) = true.
Proof.
  unfold isResponse421. simpl.
  destruct (gostd.Index rest gostd.CRLF) as [i|]; simpl;
    rewrite len_ge3; reflexivity.
Qed.

Lemma prefix_cons (a b : ascii) (s1 s2 : string) :
  String.prefix (String a s1) (String b s2)
  = if Ascii.eqb a b then String.prefix s1 s2 else false.
Proof.
  cbn [String.prefix]. destruct (ascii_dec a b) as [->|n].
  - rewrite Ascii.eqb_refl. reflexivity.
  - apply Ascii.eqb_neq in n. rewrite n. reflexivity.
Qed.

(** A response whose line begins ["421 "] begins so itself. *)
Lemma line421_response (r : string) :
  line421 (r ++ gostd.CRLF) = true -> exists rest, r = "421 " ++ rest.
Proof.
  unfold line421, gostd.HasPrefix.
  destruct r as [|a [|b [|c [|d rest]]]]; cbn [append gostd.CRLF];
    repeat rewrite prefix_cons;
    repeat match goal with
           | |- context [Ascii.eqb ?x ?y] =>
               destruct (Ascii.eqb_spec x y); subst
           end; try discriminate.
  intros _. exists rest. reflexivity.
Qed.

Lemma not421_line (r : string) :
  isResponse421 r = false -> line421 (r ++ gostd.CRLF) = false.
Proof.
  intros H. destruct (line421 (r ++ gostd.CRLF)) eqn:E; [|reflexivity].
  apply line421_response in E. destruct E as [rest ->].
  rewrite isResponse421_prefix in H. discriminate.
Qed.

(** *** Writes *)


Lemma conn_Write_healthy b c :
  healthy c ->
  conn_Write b c =
  ({| written := written c ++ [b]; closed := false; accepts := accepts c |}, true).
Proof.
  intros [Hc Ha]. unfold conn_Write. rewrite Hc, Ha. reflexivity.
Qed.

Lemma conn_Write_cases b c :
  (conn_Write b c = (c, false))
  \/ (closed c = false /\
      conn_Write b c =
      ({| written := written c ++ [b]; closed := false; accepts := accepts c |}, true)).
Proof.
  unfold conn_Write. destruct (closed c) eqn:Hc; [left; reflexivity|].
  destruct (accepts c (written c) b); [right; split; reflexivity | left; reflexivity].
Qed.

Lemma trace_ok_write b c :
  trace_ok c -> line421 b = false -> trace_ok (fst (conn_Write b c)).
Proof.
  intros Ht Hb. destruct (conn_Write_cases b c) as [E|[Hc E]]; rewrite E; simpl; auto.
  unfold trace_ok in *. rewrite Hc in Ht. simpl.
  apply Forall_app. split; auto.
Qed.

Lemma closed_write b c : closed (fst (conn_Write b c)) = closed c.
Proof.
  destruct (conn_Write_cases b c) as [E|[Hc E]]; rewrite E; simpl; congruence.
Qed.

Lemma writeAll_trace rs : forall c,
  trace_ok c -> Forall (fun r => isResponse421 r = false) rs ->
  trace_ok (fst (writeAll rs c)) /\ closed (fst (writeAll rs c)) = closed c.
Proof.
  induction rs as [|r rs IH]; intros c Ht Hq; simpl; [auto|].
  inversion Hq; subst.
  pose proof (trace_ok_write (r ++ gostd.CRLF) c Ht (not421_line _ H1)) as Ht1.
  pose proof (closed_write (r ++ gostd.CRLF) c) as Hc1.
  destruct (conn_Write (r ++ gostd.CRLF) c) as [c1 ok]; simpl in *.
  destruct ok; simpl; [|auto].
  destruct (IH c1 Ht1 H2) as [A B]. split; [exact A | congruence].
Qed.

Lemma extends_refl c : extends c c.
Proof. exists []. rewrite app_nil_r. reflexivity. Qed.

Lemma extends_trans c1 c2 c3 : extends c1 c2 -> extends c2 c3 -> extends c1 c3.
Proof.
  intros [m1 E1] [m2 E2]. exists (m1 ++ m2)%list.
  rewrite E2, E1, app_assoc. reflexivity.
Qed.

Lemma extends_write b c : extends c (fst (conn_Write b c)).
Proof.
  destruct (conn_Write_cases b c) as [E|[Hc E]]; rewrite E; simpl.
  - apply extends_refl.
  - exists [b]. reflexivity.
Qed.

Lemma extends_writeAll rs : forall c, extends c (fst (writeAll rs c)).
Proof.
  induction rs as [|r rs IH]; intros c; simpl; [apply extends_refl|].
  pose proof (extends_write (r ++ gostd.CRLF) c) as E.
  destruct (conn_Write (r ++ gostd.CRLF) c) as [c1 ok]; simpl in *.
  destruct ok; simpl; [|exact E].
  eapply extends_trans; [exact E|apply IH].
Qed.

Lemma extends_Close c c' : extends c c' -> extends c (conn_Close c').
Proof. intros [m E]. exists m. exact E. Qed.

Lemma closed_writeAll rs : forall c, closed (fst (writeAll rs c)) = closed c.
Proof.
  induction rs as [|r rs IH]; intros c; simpl; [reflexivity|].
  pose proof (closed_write (r ++ gostd.CRLF) c) as E.
  destruct (conn_Write (r ++ gostd.CRLF) c) as [c1 ok]; simpl in *.
  destruct ok; simpl; [|exact E]. rewrite IH. exact E.
Qed.

Lemma writeAll_healthy rs : forall c,
  healthy c ->
  writeAll rs c =
  ({| written := written c ++ with_crlf rs; closed := false; accepts := accepts c |},
   true).
Proof.
  induction rs as [|r rs IH]; intros c Hh; simpl.
  - rewrite app_nil_r. destruct c, Hh as [Hc _]; simpl in *; subst; reflexivity.
  - rewrite (conn_Write_healthy _ _ Hh).
    rewrite IH.
    + simpl. rewrite <- app_assoc. reflexivity.
    + destruct Hh as [Hc Ha]. split; simpl; auto.
Qed.

End Connection.

Section Replies.
Context {L : GoStd}.

Lemma only_io_refl s : only_io s s.
Proof. destruct s; reflexivity. Qed.

Lemma flushResponses_only_io s : only_io s (fst (flushResponses s)).
Proof.
  unfold flushResponses. destruct (responseQueue s) eqn:Q.
  - apply only_io_refl.
  - destruct (writeAll (s0 :: l) (conn s)) as [c1 ok]. destruct ok; destruct s; reflexivity.
Qed.

Lemma writeResponse_only_io r s : only_io s (fst (writeResponse r s)).
Proof.
  unfold writeResponse.
  destruct (pipeliningMode s && negb (isResponse421 r)); [destruct s; reflexivity|].
  destruct (pipeliningMode s && isResponse421 r).
  - pose proof (flushResponses_only_io s) as F.
    destruct (flushResponses s) as [s1 [e|]]; simpl in *; [exact F|].
    destruct (conn_Write (r ++ gostd.CRLF) (conn s1)) as [c2 ok].
    unfold only_io in *. rewrite F. destruct ok; destruct s; reflexivity.
  - destruct (conn_Write (r ++ gostd.CRLF) (conn s)) as [c1 ok].
    destruct ok; simpl; [destruct (isResponse421 r)|]; destruct s; reflexivity.
Qed.

Lemma closes_same_closed c c' e :
  closed c' = closed c -> extends c c' -> closes c c' e.
Proof.
  intros H E. unfold closes. split; [|split; [|exact E]]; intros; congruence.
Qed.

Lemma closes_closed c c' e :
  e <> None -> closed c' = true -> extends c c' -> closes c c' e.
Proof. intros H C E. unfold closes. auto. Qed.

Lemma flushResponses_good s s' e :
  flushResponses s = (s', e) ->
  Good s s' e /\ closed (conn s') = closed (conn s)
  /\ (e = None -> responseQueue s' = []).
Proof.
  unfold flushResponses, Good, Inv, InvIO. intros H.
  destruct (responseQueue s) as [|r q] eqn:Q.
  - inversion H; subst. rewrite Q.
    split; [|auto]. split; [auto|]. split; [|reflexivity].
    apply closes_same_closed; [reflexivity|apply extends_refl].
  - rewrite <- Q in *.
    pose proof (writeAll_trace (responseQueue s) (conn s)) as W.
    pose proof (extends_writeAll (responseQueue s) (conn s)) as X.
    pose proof (closed_writeAll (responseQueue s) (conn s)) as B.
    destruct (writeAll (responseQueue s) (conn s)) as [c1 ok]; simpl in *.
    destruct ok; inversion H; subst; simpl.
    + split; [|auto]. split; [|split; [|reflexivity]].
      * intros (Ht & Hq & Hm). destruct (W Ht Hq) as [A _]. auto.
      * apply closes_same_closed; assumption.
    + split; [|split; [exact B|discriminate]].
      split; [|split; [|reflexivity]].
      * intros (Ht & Hq & Hm). destruct (W Ht Hq) as [A _]. auto.
      * apply closes_same_closed; assumption.
Qed.

Lemma trace_ok_close_after b c :
  closed c = false -> trace_ok c ->
  trace_ok (conn_Close {| written := written c ++ [b]; closed := false;
                          accepts := accepts c |}).
Proof.
  intros Hc Ht. unfold trace_ok in *. rewrite Hc in Ht. simpl.
  rewrite removelast_last. exact Ht.
Qed.

Lemma extends_snoc c b :
  extends c {| written := written c ++ [b]; closed := false; accepts := accepts c |}.
Proof. exists [b]. reflexivity. Qed.

Lemma writeResponse_good r s s' e :
  writeResponse r s = (s', e) -> Good s s' e.
Proof.
  unfold writeResponse. intros H.
  destruct (pipeliningMode s) eqn:PM; simpl in H.
  - destruct (isResponse421 r) eqn:R; simpl in H.
    + pose proof (flushResponses_good s) as F.
      destruct (flushResponses s) as [s1 [e1|]].
      * inversion H; subst. destruct (F _ _ eq_refl) as (P & C & _).
        exact P.
      * destruct (F _ _ eq_refl) as ((I1 & (_ & _ & X1) & M1) & C & Q1).
        specialize (Q1 eq_refl).
        destruct (conn_Write_cases (r ++ gostd.CRLF) (conn s1)) as [E|[Hc E]];
          rewrite E in H; inversion H; subst; clear H;
          unfold Good, Inv, InvIO in *; simpl; rewrite ?Q1.
        -- split; [|split; [|exact M1]].
           ++ intros HI. destruct (I1 HI) as (T1 & _ & _). auto.
           ++ apply closes_same_closed; assumption.
        -- split; [|split; [|exact M1]].
           ++ intros HI. destruct (I1 HI) as (T1 & _ & _).
              split; [apply trace_ok_close_after; auto|auto].
           ++ apply closes_closed; [discriminate|reflexivity|].
              apply extends_Close. eapply extends_trans; [exact X1|apply extends_snoc].
    + inversion H; subst; clear H.
      unfold Good, Inv, InvIO in *; simpl.
      split; [|split; [|reflexivity]].
      * intros (T & Q & M). split; [exact T|]. split; [|intros X; congruence].
        apply Forall_app. split; auto.
      * apply closes_same_closed; [reflexivity|apply extends_refl].
  - destruct (conn_Write_cases (r ++ gostd.CRLF) (conn s)) as [E|[Hc E]];
      rewrite E in H; simpl in H.
    + inversion H; subst; clear H.
      unfold Good, Inv, InvIO; simpl.
      split; [auto|]. split; [|reflexivity].
      apply closes_same_closed; [reflexivity|apply extends_refl].
    + destruct (isResponse421 r) eqn:R; inversion H; subst; clear H;
        unfold Good, Inv, InvIO; simpl.
      * split; [|split; [|reflexivity]].
        -- intros (T & Q & M). split; [apply trace_ok_close_after; auto|auto].
        -- apply closes_closed; [discriminate|reflexivity|].
           apply extends_Close, extends_snoc.
      * split; [|split; [|reflexivity]].
        -- intros (T & Q & M). split; [|auto]. unfold trace_ok in *. simpl.
           rewrite Hc in T.
           apply Forall_app. split; auto. constructor; auto. apply not421_line; auto.
        -- apply closes_same_closed; [simpl; congruence|apply extends_snoc].
Qed.

End Replies.

Section Steps.
Context {L : GoStd}.

Lemma io_eq s t :
  io t = io s ->
  conn t = conn s /\ responseQueue t = responseQueue s
  /\ pipeliningMode t = pipeliningMode s.
Proof. unfold io. intros H. inversion H. auto. Qed.

Lemma closes_trans c c1 c' e :
  closes c c1 None -> closes c1 c' e -> closes c c' e.
Proof.
  unfold closes. intros (C1 & C1' & X1) (C2 & C2' & X2).
  split; [|split; [auto|eapply extends_trans; eassumption]].
  intros Hs Hs'. destruct (closed c1) eqn:E; auto.
  exfalso. apply (C1 Hs eq_refl). reflexivity.
Qed.

Lemma Good_same b t e : io t = io b -> Good b t e.
Proof.
  intros H. apply io_eq in H. destruct H as (C & Q & M).
  unfold Good, Inv. rewrite C, Q, M.
  split; [auto|]. split; [|reflexivity].
  apply closes_same_closed; [reflexivity|apply extends_refl].
Qed.

Lemma Good_io_l b t s' e : io t = io b -> Good t s' e -> Good b s' e.
Proof.
  intros H. apply io_eq in H. destruct H as (C & Q & M).
  unfold Good, Inv. rewrite C, Q, M. auto.
Qed.

Lemma Good_trans s s1 s' e : Good s s1 None -> Good s1 s' e -> Good s s' e.
Proof.
  unfold Good. intros (I1 & C1 & M1) (I2 & C2 & M2).
  split; [auto|]. split; [|congruence].
  eapply closes_trans; eassumption.
Qed.

Lemma Good_wr r t s1 e1 : writeResponse r t = (s1, e1) -> Good t s1 e1.
Proof. apply writeResponse_good. Qed.

Lemma Good_wr' b r t :
  io t = io b -> Good b (fst (writeResponse r t)) (snd (writeResponse r t)).
Proof.
  intros H. eapply Good_io_l; [exact H|]. apply (Good_wr r). apply surjective_pairing.
Qed.

Lemma handleStorageError_good b err s :
  io s = io b ->
  Good b (fst (handleStorageError err s)) (snd (handleStorageError err s)).
Proof.
  intros H. eapply Good_io_l; [exact H|]. unfold handleStorageError.
  repeat match goal with |- context [if ?c then _ else _] => destruct c end;
    apply Good_wr'; reflexivity.
Qed.

Lemma storeMessage_io x content s : io (fst (storeMessage x content s)) = io s.
Proof.
  unfold storeMessage. destruct (mail_ReadMessage content) as [[hdr body]|]; reflexivity.
Qed.


End Steps.

(** Symbolic execution of a handler: split on every test, discharge the
    leaves that reply and return, and chain the replies that are followed
    by more work. *)
Ltac good :=
  cbv beta iota;
  lazymatch goal with
  | |- Good ?b (fst ?X) (snd ?X) =>
      lazymatch X with
      | writeResponse ?r ?t => apply Good_wr'; reflexivity
      | handleStorageError ?err ?t => apply handleStorageError_good; reflexivity
      | (?t, ?e) => apply Good_same; reflexivity
      | match writeResponse ?r ?t with _ => _ end =>
          let E := fresh "E" in
          let s1 := fresh "s" in
          let e1 := fresh "e" in
          destruct (writeResponse r t) as [s1 [e1|]] eqn:E;
          apply Good_wr in E;
          [ try (eapply Good_io_l; [|exact E]; reflexivity)
          | eapply Good_trans; [eapply Good_io_l; [|exact E]; reflexivity|]; good ]
      | match storeMessage ?x ?c ?t with _ => _ end =>
          let B := fresh "B" in
          let s2 := fresh "s" in
          pose proof (storeMessage_io x c t) as B;
          destruct (storeMessage x c t) as [s2 [?|]];
          (eapply Good_io_l; [exact B|]); good
      | if ?c then _ else _ => destruct c eqn:?; good
      | match ?x with _ => _ end => destruct x eqn:?; good
      end
  end.


Section Handlers.
Context {L : GoStd}.

Lemma handleNoop_good s : Good s (fst (handleNoop s)) (snd (handleNoop s)).
Proof. unfold handleNoop. good. Qed.

Lemma handleRset_good s : Good s (fst (handleRset s)) (snd (handleRset s)).
Proof. unfold handleRset. good. Qed.

Lemma handleQuit_good s : Good s (fst (handleQuit s)) (snd (handleQuit s)).
Proof. unfold handleQuit. good. Qed.

Lemma addStandardCapabilities_io r p s :
  io (fst (addStandardCapabilities r p s)) = io s.
Proof.
  unfold addStandardCapabilities.
  repeat match goal with
         | |- context [let (_, _) := ?x in _] => destruct x
         | |- context [if ?c then _ else _] => destruct c
         end; reflexivity.
Qed.

Lemma buildEhloResponse_io h s : io (fst (buildEhloResponse h s)) = io s.
Proof.
  unfold buildEhloResponse.
  match goal with
  | |- context [addStandardCapabilities ?r ?p ?s] =>
      pose proof (addStandardCapabilities_io r p s) as A;
      destruct (addStandardCapabilities r p s)
  end.
  exact A.
Qed.

Lemma handleEhlo_good b h s :
  io s = io b -> Good b (fst (handleEhlo h s)) (snd (handleEhlo h s)).
Proof.
  intros H. eapply Good_io_l; [exact H|]. unfold handleEhlo.
  destruct (hasCapability _ _ || hasCapability _ _); [good|].
  pose proof (buildEhloResponse_io (strings_ToLower h) s) as B.
  destruct (buildEhloResponse (strings_ToLower h) s) as [s1 resp]; simpl in B.
  apply Good_wr'. exact B.
Qed.

Lemma handleHelo_good c s : Good s (fst (handleHelo c s)) (snd (handleHelo c s)).
Proof.
  unfold handleHelo.
  destruct (negb _); [good|].
  destruct (Args c); [good|].
  destruct (ExtractHeloError _); [good|].
  destruct (String.eqb _ _); [|good].
  apply handleEhlo_good. reflexivity.
Qed.

Lemma handleMail_good c s : Good s (fst (handleMail c s)) (snd (handleMail c s)).
Proof. unfold handleMail. good. Qed.

Lemma handleRcpt_good c s : Good s (fst (handleRcpt c s)) (snd (handleRcpt c s)).
Proof. unfold handleRcpt. good. Qed.

Lemma handleVrfy_good c s : Good s (fst (handleVrfy c s)) (snd (handleVrfy c s)).
Proof. unfold handleVrfy. good. Qed.

Lemma handleData_good x s : Good s (fst (handleData x s)) (snd (handleData x s)).
Proof. unfold handleData, readMessageContent. good. Qed.

Lemma handleBdat_good x c s :
  Good s (fst (handleBdat x c s)) (snd (handleBdat x c s)).
Proof. unfold handleBdat. good. Qed.

Lemma handleStartTLS_good x s :
  Good s (fst (handleStartTLS x s)) (snd (handleStartTLS x s)).
Proof. unfold handleStartTLS. good. Qed.

Lemma prompt_not421 p : isResponse421 ("334 " ++ p) = false.
Proof.
  unfold isResponse421. simpl.
  destruct (gostd.Index p gostd.CRLF) as [i|]; simpl;
    rewrite len_ge3; reflexivity.
Qed.

Lemma auth_Authenticate_good x s :
  Good s (set_conn (fst (auth_Authenticate x (conn s))) s) None.
Proof.
  unfold Good, Inv, InvIO, auth_Authenticate.
  assert (F : Forall (fun r => isResponse421 r = false)
                     (map (fun p => "334 " ++ p) (authPrompts x))).
  { apply Forall_forall. intros r Hr. apply in_map_iff in Hr.
    destruct Hr as (p & <- & _). apply prompt_not421. }
  pose proof (writeAll_trace (map (fun p => "334 " ++ p) (authPrompts x)) (conn s)) as W.
  pose proof (closed_writeAll (map (fun p => "334 " ++ p) (authPrompts x)) (conn s)) as B.
  pose proof (extends_writeAll (map (fun p => "334 " ++ p) (authPrompts x)) (conn s)) as X.
  destruct (writeAll _ (conn s)) as [c1 ok]; simpl in *.
  assert (E : fst (if ok then (c1, authUsername x) else (c1, None)) = c1)
    by (destruct ok; reflexivity).
  rewrite E. split; [|split; [|reflexivity]].
  - intros (T & Q & M). destruct (W T F) as [A _]. auto.
  - apply closes_same_closed; assumption.
Qed.

Lemma handleAuth_good x c s :
  Good s (fst (handleAuth x c s)) (snd (handleAuth x c s)).
Proof.
  unfold handleAuth.
  destruct (negb _ && negb _); [good|].
  destruct (authErrorResult s); [good|].
  destruct (Args c); [good|].
  destruct (negb (auth_NewHandler _)); [good|].
  pose proof (auth_Authenticate_good x s) as A.
  destruct (auth_Authenticate x (conn s)) as [c1 res]; simpl in A.
  eapply Good_trans; [exact A|]. good.
Qed.

Lemma dispatch_good x c s : Good s (fst (dispatch x c s)) (snd (dispatch x c s)).
Proof.
  unfold dispatch, tryExtensionHandlers.
  repeat match goal with
         | |- context [if String.eqb ?a ?b then _ else _] => destruct (String.eqb a b)
         end;
    auto using handleHelo_good, handleAuth_good, handleMail_good, handleRcpt_good,
      handleData_good, handleBdat_good, handleRset_good, handleNoop_good,
      handleStartTLS_good, handleQuit_good, handleVrfy_good.
  good.
Qed.

End Handlers.

Section Loop.
Context {L : GoStd}.










Lemma trace_ok_Close c : trace_ok c -> trace_ok (conn_Close c).
Proof.
  unfold trace_ok. simpl. destruct (closed c); [auto|].
  intros H. apply Forall_forall. intros ln Hin.
  rewrite Forall_forall in H. apply H.
  destruct (written c) as [|a l]; [destruct Hin|].
  rewrite (app_removelast_last a (l := a :: l)) by discriminate.
  apply in_or_app. left. exact Hin.
Qed.



End Loop.

(* ------------------------------------------------------------------ *)
(** ** Synthetic error responses *)

Lemma map_lookup_absent {V : Type} (m : list (Z * V)) (k : Z) :
  ~ In k (map fst m) -> map_lookup m k = None.
Proof.
  unfold map_lookup. induction m as [|[k' v] m IH]; simpl; intros H; [reflexivity|].
  destruct (Z.eqb_spec k' k) as [->|N].
  - exfalso. apply H. left. reflexivity.
  - apply IH. intros Hin. apply H. right. exact Hin.
Qed.

Lemma GetErrorMessage_known (code : Z) (msg : string) :
  In (code, msg) errorMessages -> GetErrorMessage code = msg.
Proof.
  intros H. simpl in H.
  repeat (destruct H as [H|H]; [inversion H; reflexivity|]).
  destruct H.
Qed.

Lemma GetErrorMessage_unknown (code : Z) :
  ~ In code (map fst errorMessages) -> GetErrorMessage code = "Unknown error".
Proof.
  intros H. unfold GetErrorMessage. rewrite (map_lookup_absent _ _ H). reflexivity.
Qed.

Lemma GetErrorMessage_cases (code : Z) :
  (exists msg, In (code, msg) errorMessages /\ GetErrorMessage code = msg)
  \/ GetErrorMessage code = "Unknown error".
Proof.
  destruct (in_dec Z.eq_dec code (map fst errorMessages)) as [Hin|Hn].
  - left. apply in_map_iff in Hin. destruct Hin as ([k m] & E & Hin). simpl in E. subst.
    exists m. split; [exact Hin|]. apply GetErrorMessage_known. exact Hin.
  - right. apply GetErrorMessage_unknown. exact Hn.
Qed.

(* ------------------------------------------------------------------ *)
(** ** Digits *)

Lemma digit_not_sign (c : ascii) :
  gostd.is_digit c = true -> c <> "-"%char /\ c <> "+"%char.
Proof.
  intros H. split; intros ->; discriminate H.
Qed.

Lemma Atoi_digits (s : string) :
  s <> "" -> gostd.all_bytes gostd.is_digit s = true ->
  gostd.Atoi s =
  match gostd.parse_digits 0 s with
  | Some n => if (gostd.minInt <=? n) && (n <=? gostd.maxInt) then Some n else None
  | None => None
  end.
Proof.
  destruct s as [|c t]; [congruence|]. intros _ H. simpl in H.
  apply andb_true_iff in H. destruct H as [Hc _].
  destruct (digit_not_sign c Hc) as [N1 N2].
  unfold gostd.Atoi.
  destruct c as [b0 b1 b2 b3 b4 b5 b6 b7].
  destruct b0, b1, b2, b3, b4, b5, b6, b7; try discriminate Hc; reflexivity.
Qed.

Lemma digit_val_range (c : ascii) (d : Z) :
  gostd.digit_val c = Some d -> 0 <= d <= 9.
Proof.
  unfold gostd.digit_val, gostd.is_digit.
  destruct ((48 <=? Z.of_N (N_of_ascii c)) && (Z.of_N (N_of_ascii c) <=? 57)) eqn:E;
    [|discriminate].
  intros H. inversion H; subst. apply andb_true_iff in E. destruct E as [A B].
  apply Z.leb_le in A. apply Z.leb_le in B. lia.
Qed.

Lemma digit_val_is_digit (c : ascii) :
  gostd.is_digit c = true -> exists d, gostd.digit_val c = Some d.
Proof. unfold gostd.digit_val. intros ->. eauto. Qed.

Lemma parse_digits_bound (s : string) : forall acc,
  gostd.all_bytes gostd.is_digit s = true ->
  exists v, gostd.parse_digits acc s = Some (acc * 10 ^ Z.of_nat (String.length s) + v)
            /\ 0 <= v < 10 ^ Z.of_nat (String.length s).
Proof.
  induction s as [|c t IH]; intros acc H.
  - exists 0. simpl. split; [f_equal; lia | lia].
  - simpl in H. apply andb_true_iff in H. destruct H as [Hc Ht].
    destruct (digit_val_is_digit c Hc) as [d Hd].
    pose proof (digit_val_range _ _ Hd) as Hr.
    destruct (IH (acc * 10 + d) Ht) as (v & E & B).
    exists (d * 10 ^ Z.of_nat (String.length t) + v).
    cbn [gostd.parse_digits String.length]. rewrite Hd, E.
    rewrite Nat2Z.inj_succ, Z.pow_succ_r by lia.
    split; [f_equal; ring | nia].
Qed.

Lemma three_digits_code (s d r : string) :
  smtp.three_digits s = Some (d, r) ->
  String.length d = 3%nat /\ gostd.all_bytes gostd.is_digit d = true
  /\ exists n, gostd.Atoi d = Some n /\ 0 <= n <= 999.
Proof.
  unfold smtp.three_digits. remember (gostd.take 3 s) as d0 eqn:D0.
  destruct ((String.length d0 =? 3)%nat && gostd.all_bytes gostd.is_digit d0) eqn:E;
    [|discriminate].
  intros H. injection H as -> _. clear D0.
  apply andb_true_iff in E. destruct E as [Hl Hd]. apply Nat.eqb_eq in Hl.
  split; [exact Hl|]. split; [exact Hd|].
  assert (Hne : d <> "") by (intros X; rewrite X in Hl; discriminate).
  destruct (parse_digits_bound d 0 Hd) as (v & E & B).
  rewrite Hl in *. change (10 ^ Z.of_nat 3) with 1000 in *.
  exists v. split; [|lia].
  rewrite (Atoi_digits _ Hne Hd), E.
  simpl (0 * 1000 + v).
  assert ((gostd.minInt <=? v) && (v <=? gostd.maxInt) = true) as ->; [|reflexivity].
  apply andb_true_iff. unfold gostd.minInt, gostd.maxInt. split; apply Z.leb_le; lia.
Qed.

Lemma span_all (p : ascii -> bool) (s : string) :
  gostd.all_bytes p (fst (gostd.span p s)) = true.
Proof.
  induction s as [|c t IH]; simpl; [reflexivity|].
  destruct (p c) eqn:E; [|reflexivity].
  destruct (gostd.span p t) as [a b]. simpl in *. rewrite E, IH. reflexivity.
Qed.

Lemma span_all_bytes (p : ascii -> bool) (s : string) :
  gostd.all_bytes p s = true -> gostd.span p s = (s, "").
Proof.
  induction s as [|c t IH]; simpl; [reflexivity|].
  intros H. apply andb_true_iff in H. destruct H as [Hc Ht].
  rewrite Hc, (IH Ht). reflexivity.
Qed.

Lemma digits_then_digits (s : string) (stop : ascii) (d r : string) :
  smtp.digits_then s stop = Some (d, r) -> digits d.
Proof.
  unfold smtp.digits_then. pose proof (span_all gostd.is_digit s) as A.
  destruct (gostd.span gostd.is_digit s) as [d0 r0]. simpl in A.
  destruct d0 as [|c d0]; [discriminate|].
  destruct r0 as [|c' r0]; [discriminate|].
  destruct (Ascii.eqb c' stop); [|discriminate].
  intros H. injection H as <- _. split; [discriminate|exact A].
Qed.

Lemma extendedRegex_inv (s : string) (m : list string) :
  smtp.extendedRegex s = Some m ->
  exists verb c x y z,
    m = [verb; c; x; y; z]
    /\ (exists n, gostd.Atoi c = Some n /\ 0 <= n <= 999)
    /\ digits x /\ digits y /\ digits z.
Proof.
  unfold smtp.extendedRegex.
  destruct (gostd.span gostd.is_lower s) as [verb r1].
  destruct verb as [|v0 verb]; [discriminate|].
  destruct (smtp.three_digits r1) as [[c r2]|] eqn:T; [|discriminate].
  destruct r2 as [|u r2]; [discriminate|].
  destruct (Ascii.eqb_spec u "_") as [->|N].
  2:{ destruct u as [b0 b1 b2 b3 b4 b5 b6 b7].
      destruct b0, b1, b2, b3, b4, b5, b6, b7; try discriminate.
      exfalso. apply N. reflexivity. }
  destruct (smtp.digits_then r2 ".") as [[x r3]|] eqn:X; [|discriminate].
  destruct (smtp.digits_then r3 ".") as [[y r4]|] eqn:Y; [|discriminate].
  destruct (smtp.digits_then r4 "@") as [[z r5]|] eqn:Zd; [|discriminate].
  intros H. injection H as <-.
  exists (String v0 verb), c, x, y, z.
  split; [reflexivity|].
  split; [apply (three_digits_code _ _ _ T)|].
  split; [apply (digits_then_digits _ _ _ _ X)|].
  split; [apply (digits_then_digits _ _ _ _ Y)|apply (digits_then_digits _ _ _ _ Zd)].
Qed.


Section Extraction.
Context {L : GoStd}.


End Extraction.

(* ------------------------------------------------------------------ *)
(** ** The format of a synthetic reply *)


Section ErrorFormat.
Context {L : GoStd}.


End ErrorFormat.

(* ------------------------------------------------------------------ *)
(** ** The advertised SIZE *)

Lemma sizeRegex_size (ds : string) :
  digits ds -> sizeRegex ("size" ++ ds) = Some ds.
Proof.
  intros [Hne Hd]. simpl. rewrite (span_all_bytes _ _ Hd). simpl.
  destruct ds; [congruence|reflexivity].
Qed.

(* ------------------------------------------------------------------ *)
(** ** Frames *)

Section Frames.
Context {L : GoStd}.

Lemma writeResponse_frame r s :
  exists c q e, writeResponse r s = (set_responseQueue q (set_conn c s), e).
Proof.
  pose proof (writeResponse_only_io r s) as F. unfold only_io in F.
  destruct (writeResponse r s) as [s' e]. simpl in F.
  exists (conn s'), (responseQueue s'), e. rewrite <- F. reflexivity.
Qed.

Lemma writeResponse_fields r s :
  let s' := fst (writeResponse r s) in
  state s' = state s /\ heloName s' = heloName s /\ mailFrom s' = mailFrom s
  /\ rcptTo s' = rcptTo s /\ authenticated s' = authenticated s
  /\ tlsState s' = tlsState s /\ capabilities s' = capabilities s
  /\ advertisedSize s' = advertisedSize s /\ bdatBuffer s' = bdatBuffer s
  /\ pending s' = pending s /\ storeLog s' = storeLog s
  /\ config s' = config s /\ hostname s' = hostname s.
Proof.
  destruct (writeResponse_frame r s) as (c & q & e & F). rewrite F. simpl.
  repeat split.
Qed.

End Frames.

(** Replace the result of every reply by the session it was applied to,
    with a new connection and queue. *)
Ltac frame_wr :=
  repeat match goal with
         | |- context [writeResponse ?r ?t] =>
             let c := fresh "c" in
             let q := fresh "q" in
             let e := fresh "e" in
             let F := fresh "F" in
             destruct (writeResponse_frame r t) as (c & q & e & F);
             rewrite F; clear F
         end.

(* ------------------------------------------------------------------ *)
(** ** Recipients *)

Lemma GetErrorMessage_length (code : Z) :
  (13 <= String.length (GetErrorMessage code))%nat.
Proof.
  destruct (GetErrorMessage_cases code) as [(msg & Hin & ->)| ->]; [|simpl; lia].
  simpl in Hin.
  repeat (destruct Hin as [Hin|Hin]; [inversion Hin; subst; simpl; lia|]).
  destruct Hin.
Qed.

Lemma length_append (a b : string) :
  String.length (a ++ b) = (String.length a + String.length b)%nat.
Proof. induction a; simpl; auto. Qed.

Section Recipients.
Context {L : GoStd}.

(** A synthetic error is never the reply [250 OK]. *)
Lemma formatErrorResult_not_OK (s : Session) (er : ErrorResult) :
  formatErrorResult s (Some er) <> "250 OK".
Proof.
  intros H. apply (f_equal String.length) in H.
  pose proof (GetErrorMessage_length (Code er)) as G.
  unfold formatErrorResult in H.
  destruct (EnhancedStatusCodes (capabilities s) && negb (Enhanced er =? "")%string);
    repeat rewrite length_append in H; simpl in H; lia.
Qed.

Lemma handleRcpt_accepted (cmd : Command) (s : Session) (a : string) :
  state s = StateRcpt ->
  rcptAccepted (SMTPUTF8 (capabilities s)) cmd = Some a ->
  handleRcpt cmd s = writeResponse "250 OK" (set_rcptTo (rcptTo s ++ [a])%list s).
Proof.
  intros Hs. unfold rcptAccepted, handleRcpt. rewrite Hs. cbn [State_eqb negb].
  destruct (Args cmd) as [|arg0 rest]; [discriminate|].
  destruct (String.eqb _ ""); [discriminate|].
  destruct (negb (IsValidMailbox _ _)); [discriminate|].
  destruct (ExtractRcptToError _); [discriminate|].
  intros H. injection H as <-. reflexivity.
Qed.

Lemma handleRcpt_refused (cmd : Command) (s : Session) (er : ErrorResult) :
  state s = StateRcpt ->
  rcptRefused (SMTPUTF8 (capabilities s)) cmd = Some er ->
  handleRcpt cmd s = writeResponse (formatErrorResult s (Some er)) s.
Proof.
  intros Hs. unfold rcptRefused, handleRcpt. rewrite Hs. cbn [State_eqb negb].
  destruct (Args cmd) as [|arg0 rest]; [discriminate|].
  destruct (String.eqb _ ""); [discriminate|].
  destruct (negb (IsValidMailbox _ _)); [discriminate|].
  intros ->. reflexivity.
Qed.

Lemma handleRcpt_rcptTo (cmd : Command) (s : Session) :
  state s = StateRcpt ->
  rcptTo (fst (handleRcpt cmd s))
  = match rcptAccepted (SMTPUTF8 (capabilities s)) cmd with
    | Some a => (rcptTo s ++ [a])%list
    | None => rcptTo s
    end.
Proof.
  intros Hs. unfold rcptAccepted, handleRcpt. rewrite Hs. cbn [State_eqb negb].
  destruct (Args cmd) as [|arg0 rest]; [reflexivity|].
  destruct (String.eqb _ ""); [apply writeResponse_fields|].
  destruct (negb (IsValidMailbox _ _)); [apply writeResponse_fields|].
  destruct (ExtractRcptToError _); [apply writeResponse_fields|].
  frame_wr. reflexivity.
Qed.

Lemma handleRcpt_keeps (cmd : Command) (s : Session) :
  let s' := fst (handleRcpt cmd s) in
  state s' = state s /\ capabilities s' = capabilities s
  /\ mailFrom s' = mailFrom s /\ pending s' = pending s
  /\ storeLog s' = storeLog s.
Proof.
  unfold handleRcpt.
  repeat match goal with
         | |- context [if ?c then _ else _] => destruct c
         | |- context [match ?x with _ => _ end] => destruct x
         end; frame_wr; simpl; auto.
Qed.

Lemma handleRcpts_rcptTo (cmds : list Command) : forall (s : Session),
  state s = StateRcpt ->
  let s' := handleRcpts cmds s in
  rcptTo s' = (rcptTo s ++ acceptedRecipients (SMTPUTF8 (capabilities s)) cmds)%list
  /\ state s' = StateRcpt.
Proof.
  induction cmds as [|cmd rest IH]; intros s Hs; simpl.
  - rewrite app_nil_r. auto.
  - destruct (handleRcpt_keeps cmd s) as (K1 & K2 & _).
    pose proof (handleRcpt_rcptTo cmd s Hs) as R.
    assert (Hs1 : state (fst (handleRcpt cmd s)) = StateRcpt) by congruence.
    destruct (IH _ Hs1) as [A B]. unfold handleRcpts in *.
    split; [|exact B].
    rewrite A, R, K2.
    destruct (rcptAccepted _ cmd); [rewrite <- app_assoc|]; reflexivity.
Qed.

Lemma storeMessage_envelope (x : Extern) (content : string) (s : Session) :
  exists msg,
    storeLog (fst (storeMessage x content s)) = (storeLog s ++ [msg])%list
    /\ From msg = mailFrom s /\ To msg = rcptTo s /\ Content msg = content.
Proof.
  unfold storeMessage.
  destruct (mail_ReadMessage content) as [[hdr body]|]; simpl;
    eexists; repeat split.
Qed.

End Recipients.

Section Envelope.
Context {L : GoStd}.

Lemma handleRcpt_reply (cmd : Command) (s : Session) :
  state s = StateRcpt -> Args cmd <> [] ->
  exists r,
    handleRcpt cmd s
    = writeResponse r
        (match rcptAccepted (SMTPUTF8 (capabilities s)) cmd with
         | Some a => set_rcptTo (rcptTo s ++ [a])%list s
         | None => s
         end)
    /\ (r = "250 OK" <-> rcptAccepted (SMTPUTF8 (capabilities s)) cmd <> None).
Proof.
  intros Hs Hargs. unfold rcptAccepted, handleRcpt. rewrite Hs. cbn [State_eqb negb].
  destruct (Args cmd) as [|arg0 rest]; [congruence|].
  destruct (String.eqb _ "");
    [eexists; split; [reflexivity|split; [discriminate|congruence]]|].
  destruct (negb (IsValidMailbox _ _));
    [eexists; split; [reflexivity|split; [discriminate|congruence]]|].
  destruct (ExtractRcptToError _) as [er|].
  - eexists. split; [reflexivity|]. split; [|congruence].
    intros H. destruct (formatErrorResult_not_OK s er H).
  - eexists. split; [reflexivity|]. split; [discriminate|reflexivity].
Qed.

(** [C10] A RCPT command in the RCPT state whose address carries the
    pattern [rcpt<NNN>] is answered with the synthetic reply of the
    pattern, whatever its code, and leaves [rcptTo] and the state as they
    were; the synthetic reply is never the line [250 OK].  A recipient is
    appended exactly when the reply is [250 OK].  After any run of RCPT
    commands [rcptTo] is therefore the list of the recipients answered
    [250 OK], in order, and it is the [To] list of the message that
    [storeMessage] hands to the store. *)
Theorem rcpt_error_not_appended (cmd : Command) (s : Session) :
  state s = StateRcpt ->
  (forall er, rcptRefused (SMTPUTF8 (capabilities s)) cmd = Some er ->
     handleRcpt cmd s = writeResponse (formatErrorResult s (Some er)) s
     /\ formatErrorResult s (Some er) <> "250 OK"
     /\ rcptTo (fst (handleRcpt cmd s)) = rcptTo s
     /\ state (fst (handleRcpt cmd s)) = StateRcpt)
  /\ (forall a, rcptAccepted (SMTPUTF8 (capabilities s)) cmd = Some a ->
        handleRcpt cmd s
        = writeResponse "250 OK" (set_rcptTo (rcptTo s ++ [a])%list s))
  /\ (forall cmds,
        rcptTo (handleRcpts cmds s)
        = (rcptTo s ++ acceptedRecipients (SMTPUTF8 (capabilities s)) cmds)%list
        /\ state (handleRcpts cmds s) = StateRcpt)
  /\ (forall x content,
        exists msg,
          storeLog (fst (storeMessage x content s)) = (storeLog s ++ [msg])%list
          /\ From msg = mailFrom s /\ To msg = rcptTo s)
  /\ (Args cmd <> [] ->
      exists r,
        handleRcpt cmd s
        = writeResponse r
            (match rcptAccepted (SMTPUTF8 (capabilities s)) cmd with
             | Some a => set_rcptTo (rcptTo s ++ [a])%list s
             | None => s
             end)
        /\ (r = "250 OK" <-> rcptAccepted (SMTPUTF8 (capabilities s)) cmd <> None)).
Proof.
  intros Hs. split; [|split; [|split; [|split]]].
  - intros er Hr. pose proof (handleRcpt_refused cmd s er Hs Hr) as E.
    split; [exact E|]. split; [apply formatErrorResult_not_OK|].
    rewrite E. destruct (writeResponse_fields (formatErrorResult s (Some er)) s)
      as (A & _ & _ & B & _).
    split; congruence.
  - intros a Ha. apply handleRcpt_accepted; assumption.
  - intros cmds. apply handleRcpts_rcptTo. exact Hs.
  - intros x content.
    destruct (storeMessage_envelope x content s) as (msg & A & B & C & _).
    exists msg. auto.
  - intros Hargs. apply handleRcpt_reply; assumption.
Qed.

(** The deferred error of a command takes precedence over the command's
    normal processing. *)
Lemma deferred_errors_fire :
  (forall x t e, state t = StateRcpt -> dataErrorResult t = Some e ->
     handleData x t = writeResponse (formatErrorResult t (Some e)) t)
  /\ (forall x c t e a0 a1 rest n,
        state t = StateRcpt \/ state t = StateBdat ->
        dataErrorResult t = Some e ->
        Args c = a0 :: a1 :: rest -> gostd.Atoi a0 = Some n -> 0 <= n ->
        strings_EqualFold a1 "LAST" = true ->
        handleBdat x c t = writeResponse (formatErrorResult t (Some e)) t)
  /\ (forall t e, rsetErrorResult t = Some e ->
        handleRset t = writeResponse (formatErrorResult t (Some e)) t)
  /\ (forall t e, noopErrorResult t = Some e ->
        handleNoop t = writeResponse (formatErrorResult t (Some e)) t)
  /\ (forall x t e, startTLSErrorResult t = Some e ->
        handleStartTLS x t = writeResponse (formatErrorResult t (Some e)) t)
  /\ (forall t e, quitErrorResult t = Some e ->
        handleQuit t
        = match writeResponse (formatErrorResult t (Some e)) t with
          | (t', Some err) => (t', Some err)
          | (t', None) => (set_state StateQuit t', Some EOF)
          end)
  /\ (forall x c t e, state t = StateMail \/ state t = StateAuth ->
        authErrorResult t = Some e ->
        handleAuth x c t = writeResponse (formatErrorResult t (Some e)) t).
Proof.
  repeat split.
  - intros x t e Hs He. unfold handleData. rewrite Hs, He. reflexivity.
  - intros x c t e a0 a1 rest n Hs He Ha Hn Hp Hl. unfold handleBdat.
    assert (negb (State_eqb (state t) StateRcpt || State_eqb (state t) StateBdat)
            = false) as -> by (destruct Hs as [-> | ->]; reflexivity).
    rewrite Ha, Hn, Hl, He.
    destruct (Z.ltb_spec n 0); [lia|]. reflexivity.
  - intros t e He. unfold handleRset. rewrite He. reflexivity.
  - intros t e He. unfold handleNoop. rewrite He. reflexivity.
  - intros x t e He. unfold handleStartTLS. rewrite He. reflexivity.
  - intros t e He. unfold handleQuit. rewrite He. reflexivity.
  - intros x c t e Hs He. unfold handleAuth.
    assert (negb (State_eqb (state t) StateMail) && negb (State_eqb (state t) StateAuth)
            = false) as -> by (destruct Hs as [-> | ->]; reflexivity).
    rewrite He. reflexivity.
Qed.

(** [C1] An accepted MAIL FROM.  When the sender's address carries the
    pattern [mail<NNN>] the command is answered with that error, and
    [mailFrom], the pending errors and the state stay as they were.
    Otherwise the reply is [250 OK], the state becomes RCPT and the six
    slots data, rset, quit, starttls, noop and auth are filled from the
    address; the verbs [rcpt] and [bdat] have no slot.  A filled slot
    answers its command before anything else of that command is done:
    DATA and the last chunk of BDAT, RSET, NOOP, STARTTLS, QUIT, AUTH. *)
Theorem mail_from_schedules_errors (cmd : Command) (s : Session)
    (arg0 : string) (rest : list string) :
  state s = StateMail ->
  Args cmd = arg0 :: rest ->
  ExtractMailboxFromArg arg0 <> "" ->
  IsValidMailbox (ExtractMailboxFromArg arg0) (SMTPUTF8 (capabilities s)) = true ->
  let fromAddr := NormaliseMailbox (ExtractMailboxFromArg arg0) in
  let s' := fst (handleMail cmd s) in
  (* the verb mail: rejected at once, nothing is updated *)
  (forall er, ExtractMailFromError fromAddr = Some er ->
     handleMail cmd s = writeResponse (formatErrorResult s (Some er)) s
     /\ mailFrom s' = mailFrom s /\ pending s' = pending s /\ state s' = state s)
  (* otherwise the command is accepted and the six slots are filled *)
  /\ (ExtractMailFromError fromAddr = None ->
      handleMail cmd s
      = writeResponse "250 OK"
          (set_state StateRcpt (set_mailFrom fromAddr (set_pending (scheduled fromAddr) s)))
      /\ pending s' = scheduled fromAddr
      /\ mailFrom s' = fromAddr /\ state s' = StateRcpt)
  (* a filled slot fires at its command, before the normal processing *)
  /\ (forall x t e, state t = StateRcpt -> dataErrorResult t = Some e ->
        handleData x t = writeResponse (formatErrorResult t (Some e)) t)
  /\ (forall x c t e a0 a1 rest n,
        state t = StateRcpt \/ state t = StateBdat ->
        dataErrorResult t = Some e ->
        Args c = a0 :: a1 :: rest -> gostd.Atoi a0 = Some n -> 0 <= n ->
        strings_EqualFold a1 "LAST" = true ->
        handleBdat x c t = writeResponse (formatErrorResult t (Some e)) t)
  /\ (forall t e, rsetErrorResult t = Some e ->
        handleRset t = writeResponse (formatErrorResult t (Some e)) t)
  /\ (forall t e, noopErrorResult t = Some e ->
        handleNoop t = writeResponse (formatErrorResult t (Some e)) t)
  /\ (forall x t e, startTLSErrorResult t = Some e ->
        handleStartTLS x t = writeResponse (formatErrorResult t (Some e)) t)
  /\ (forall t e, quitErrorResult t = Some e ->
        handleQuit t
        = match writeResponse (formatErrorResult t (Some e)) t with
          | (t', Some err) => (t', Some err)
          | (t', None) => (set_state StateQuit t', Some EOF)
          end)
  /\ (forall x c t e, state t = StateMail \/ state t = StateAuth ->
        authErrorResult t = Some e ->
        handleAuth x c t = writeResponse (formatErrorResult t (Some e)) t).
Proof.
  intros Hs Ha Hraw Hv fromAddr s'.
  assert (E : handleMail cmd s
              = match ExtractMailFromError fromAddr with
                | Some er => writeResponse (formatErrorResult s (Some er)) s
                | None =>
                    writeResponse "250 OK"
                      (set_state StateRcpt
                         (set_mailFrom fromAddr (set_pending (scheduled fromAddr) s)))
                end).
  { unfold handleMail. rewrite Hs, Ha. cbn [State_eqb negb].
    apply String.eqb_neq in Hraw. rewrite Hraw, Hv. reflexivity. }
  split; [|split; [|exact deferred_errors_fire]].
  - intros er He. subst s'. rewrite E, He.
    split; [reflexivity|].
    destruct (writeResponse_fields (formatErrorResult s (Some er)) s)
      as (A & _ & B & _ & _ & _ & _ & _ & _ & C & _).
    auto.
  - intros He. subst s'. rewrite E, He.
    split; [reflexivity|].
    match goal with
    | |- context [writeResponse ?r ?t] =>
        destruct (writeResponse_fields r t)
          as (A & _ & B & _ & _ & _ & _ & _ & _ & C & _)
    end.
    rewrite A, B, C. repeat split.
Qed.

End Envelope.

Section Resets.
Context {L : GoStd}.

Lemma buildEhloResponse_frame h s :
  exists caps adv,
    fst (buildEhloResponse h s) = set_capabilities caps (set_advertisedSize adv s).
Proof.
  unfold buildEhloResponse.
  match goal with
  | |- context [addStandardCapabilities ?r ?p ?s] =>
      assert (A : exists caps adv,
                 fst (addStandardCapabilities r p s)
                 = set_capabilities caps (set_advertisedSize adv s));
      [|destruct (addStandardCapabilities r p s); exact A]
  end.
  unfold addStandardCapabilities.
  repeat match goal with
         | |- context [let (_, _) := ?x in _] => destruct x
         | |- context [if ?c then _ else _] => destruct c
         end; simpl; eauto.
Qed.

(** [C3] A successful EHLO, which [handleHelo] accepts in the HELO state
    only, moves to the MAIL state and records the host name; it leaves
    [mailFrom], [rcptTo], the six pending errors, the authenticated flag
    and the TLS state as they were.  The envelope is empty afterwards
    because it was empty before ([idle]); the pending errors are not
    cleared. *)
Theorem ehlo_keeps_envelope_and_pending (cmd : Command) (s : Session)
    (host : string) (rest : list string) :
  state s = StateHelo -> Name cmd = CmdEHLO -> Args cmd = host :: rest ->
  ExtractHeloError host = None ->
  let s' := fst (handleHelo cmd s) in
  state s' = StateMail /\ heloName s' = host
  /\ mailFrom s' = mailFrom s /\ rcptTo s' = rcptTo s
  /\ pending s' = pending s
  /\ authenticated s' = authenticated s /\ tlsState s' = tlsState s
  /\ (idle s -> mailFrom s' = "" /\ rcptTo s' = []).
Proof.
  intros Hs Hn Ha He s'.
  assert (F : state s' = StateMail /\ heloName s' = host
              /\ mailFrom s' = mailFrom s /\ rcptTo s' = rcptTo s
              /\ pending s' = pending s
              /\ authenticated s' = authenticated s /\ tlsState s' = tlsState s).
  { subst s'. unfold handleHelo. rewrite Hs, Ha, He, Hn. cbn [State_eqb negb String.eqb].
    change (String.eqb CmdEHLO CmdEHLO) with true. cbv iota.
    unfold handleEhlo.
    destruct (hasCapability _ _ || hasCapability _ _).
    - frame_wr. simpl. repeat split.
    - match goal with
      | |- context [buildEhloResponse ?h ?t] =>
          destruct (buildEhloResponse_frame h t) as (caps & adv & B);
          destruct (buildEhloResponse h t) as [s1 resp]; simpl in B; subst s1
      end.
      frame_wr. simpl. repeat split. }
  destruct F as (F1 & F2 & F3 & F4 & F5 & F6 & F7).
  repeat (split; [assumption|]).
  unfold idle. rewrite Hs. intros [A B]. split; congruence.
Qed.

(** [C5] STARTTLS without a pending starttls error.  With TLS active the
    reply is [554 TLS already started].  Otherwise, after the reply
    [220 Ready to start TLS], a certificate and a successful handshake,
    the state is HELO and the TLS state is set, while [heloName],
    [mailFrom], [rcptTo], the pending errors and the authenticated flag
    are unchanged. *)
Theorem starttls_refused_or_upgraded (x : Extern) (s : Session) :
  startTLSErrorResult s = None ->
  (forall st0, tlsState s = Some st0 ->
     handleStartTLS x s = writeResponse "554 TLS already started" s)
  /\ (forall s1 st,
        tlsState s = None ->
        writeResponse "220 Ready to start TLS" s = (s1, None) ->
        certificate x = true -> handshake x = Some st ->
        let s' := fst (handleStartTLS x s) in
        handleStartTLS x s = (set_state StateHelo (set_tlsState (Some st) s1), None)
        /\ state s' = StateHelo /\ tlsState s' = Some st
        /\ heloName s' = heloName s /\ mailFrom s' = mailFrom s
        /\ rcptTo s' = rcptTo s /\ pending s' = pending s
        /\ authenticated s' = authenticated s).
Proof.
  intros He. split.
  - intros st0 Ht. unfold handleStartTLS. rewrite He, Ht. reflexivity.
  - intros s1 st Ht Hw Hc Hh s'.
    assert (E : handleStartTLS x s
                = (set_state StateHelo (set_tlsState (Some st) s1), None)).
    { unfold handleStartTLS. rewrite He, Ht, Hw, Hc, Hh. reflexivity. }
    subst s'. rewrite E. split; [reflexivity|]. simpl.
    pose proof (writeResponse_fields "220 Ready to start TLS" s) as F.
    rewrite Hw in F. simpl in F.
    destruct F as (F1 & F2 & F3 & F4 & F5 & F6 & F7 & F8 & F9 & F10 & _).
    repeat split; try congruence.
    rewrite <- F10. reflexivity.
Qed.

Lemma flushAndReturn_fields e s :
  let s' := fst (flushAndReturn e s) in
  state s' = state s /\ heloName s' = heloName s /\ mailFrom s' = mailFrom s
  /\ rcptTo s' = rcptTo s /\ authenticated s' = authenticated s
  /\ tlsState s' = tlsState s /\ pending s' = pending s
  /\ storeLog s' = storeLog s.
Proof.
  unfold flushAndReturn.
  pose proof (flushResponses_only_io s) as F. unfold only_io in F.
  destruct (flushResponses s) as [s1 [err|]]; simpl in *; rewrite F; simpl;
    repeat split.
Qed.

Lemma finishCommand_fields c s e :
  let s' := fst (finishCommand c (s, e)) in
  state s' = state s /\ heloName s' = heloName s /\ mailFrom s' = mailFrom s
  /\ rcptTo s' = rcptTo s /\ authenticated s' = authenticated s
  /\ tlsState s' = tlsState s /\ pending s' = pending s
  /\ storeLog s' = storeLog s.
Proof.
  unfold finishCommand. destruct e; [apply flushAndReturn_fields|].
  destruct (breaksPipelining (Name c)); [apply flushAndReturn_fields|].
  simpl. repeat split.
Qed.

Lemma handleCommand_RSET (x : Extern) (ln : string) (args : list string) (s : Session) :
  let cmd := {| Name := CmdRSET; Args := args |} in
  ParseCommand ln = Some cmd ->
  In (state s) [StateHelo; StateAuth; StateMail; StateRcpt] ->
  rsetErrorResult s = None ->
  handleCommand x ln s = finishCommand cmd (writeResponse "250 OK" (rsetSession s)).
Proof.
  intros cmd Hp Hs He. unfold handleCommand, parseAndLogCommand. rewrite Hp.
  assert (IsValid cmd = true) as -> by reflexivity.
  assert (IsAllowedInState cmd (state s) = true) as ->.
  { simpl in Hs. destruct Hs as [<-|[<-|[<-|[<-|[]]]]]; reflexivity. }
  assert (ValidateArgs cmd = None) as -> by reflexivity.
  cbn [negb]. unfold breakPipelining.
  assert (breaksPipelining (Name cmd) = false) as -> by reflexivity.
  unfold dispatch. simpl (Name cmd).
  change (String.eqb CmdRSET CmdHELO) with false.
  change (String.eqb CmdRSET CmdEHLO) with false.
  change (String.eqb CmdRSET CmdAUTH) with false.
  change (String.eqb CmdRSET CmdMAIL) with false.
  change (String.eqb CmdRSET CmdRCPT) with false.
  change (String.eqb CmdRSET CmdDATA) with false.
  change (String.eqb CmdRSET CmdBDAT) with false.
  change (String.eqb CmdRSET CmdRSET) with true.
  cbv iota. unfold handleRset. rewrite He. reflexivity.
Qed.


Lemma writeResponse_direct (r : string) (s : Session) :
  healthy (conn s) -> pipeliningMode s = false -> isResponse421 r = false ->
  writeResponse r s = (set_conn (sent [r ++ gostd.CRLF] (conn s)) s, None).
Proof.
  intros Hh Hp Hr. unfold writeResponse. rewrite Hp, Hr. cbn [andb negb].
  rewrite (conn_Write_healthy _ _ Hh). reflexivity.
Qed.

(** [C6] RSET in the HELO, AUTH, MAIL or RCPT state, without a pending
    rset error: the reply is [250 OK], the state becomes MAIL, [mailFrom]
    and [rcptTo] are emptied, and the pending errors, the authenticated
    flag and the TLS state are unchanged; a second RSET gives the same
    reply and the same session fields. *)
Theorem rset_resets_envelope (x x' : Extern) (ln : string) (args : list string)
    (s : Session) :
  ParseCommand ln = Some {| Name := CmdRSET; Args := args |} ->
  In (state s) [StateHelo; StateAuth; StateMail; StateRcpt] ->
  rsetErrorResult s = None ->
  let cmd := {| Name := CmdRSET; Args := args |} in
  let r1 := handleCommand x ln s in
  let r2 := handleCommand x' ln (fst r1) in
  (* the reply is 250 OK, sent or queued by writeResponse *)
  r1 = finishCommand cmd (writeResponse "250 OK" (rsetSession s))
  /\ (healthy (conn s) -> pipeliningMode s = false -> responseQueue s = [] ->
      r1 = (set_conn (sent ["250 OK" ++ gostd.CRLF] (conn s)) (rsetSession s), None))
  (* the transaction is reset, the rest is kept *)
  /\ state (fst r1) = StateMail /\ mailFrom (fst r1) = "" /\ rcptTo (fst r1) = []
  /\ pending (fst r1) = pending s
  /\ authenticated (fst r1) = authenticated s /\ tlsState (fst r1) = tlsState s
  (* a second RSET does the same *)
  /\ r2 = finishCommand cmd (writeResponse "250 OK" (rsetSession (fst r1)))
  /\ state (fst r2) = StateMail /\ mailFrom (fst r2) = "" /\ rcptTo (fst r2) = []
  /\ pending (fst r2) = pending s
  /\ authenticated (fst r2) = authenticated s /\ tlsState (fst r2) = tlsState s.
Proof.
  intros Hp Hs He cmd r1 r2.
  assert (Step : forall y t,
             In (state t) [StateHelo; StateAuth; StateMail; StateRcpt] ->
             rsetErrorResult t = None ->
             let r := handleCommand y ln t in
             r = finishCommand cmd (writeResponse "250 OK" (rsetSession t))
             /\ state (fst r) = StateMail /\ mailFrom (fst r) = ""
             /\ rcptTo (fst r) = [] /\ pending (fst r) = pending t
             /\ authenticated (fst r) = authenticated t
             /\ tlsState (fst r) = tlsState t).
  { intros y t Ht Hr r. subst r.
    rewrite (handleCommand_RSET y ln args t Hp Ht Hr). fold cmd.
    split; [reflexivity|].
    pose proof (writeResponse_fields "250 OK" (rsetSession t)) as W.
    destruct (writeResponse "250 OK" (rsetSession t)) as [t1 e1]. simpl in W.
    pose proof (finishCommand_fields cmd t1 e1) as F. cbv zeta in F.
    destruct W as (W1 & W2 & W3 & W4 & W5 & W6 & W7 & W8 & W9 & W10 & _).
    destruct F as (F1 & F2 & F3 & F4 & F5 & F6 & F7 & _).
    rewrite F1, F3, F4, F5, F6, F7, W1, W3, W4, W5, W6, W10.
    repeat split. }
  destruct (Step x s Hs He) as (A1 & A2 & A3 & A4 & A5 & A6 & A7).
  fold r1 in A1, A2, A3, A4, A5, A6, A7.
  assert (Hs1 : In (state (fst r1)) [StateHelo; StateAuth; StateMail; StateRcpt]).
  { rewrite A2. simpl. auto. }
  assert (He1 : rsetErrorResult (fst r1) = None).
  { change (p_rset (pending (fst r1)) = None). rewrite A5. exact He. }
  destruct (Step x' (fst r1) Hs1 He1) as (B1 & B2 & B3 & B4 & B5 & B6 & B7).
  fold r2 in B1, B2, B3, B4, B5, B6, B7.
  split; [exact A1|]. split.
  { intros Hh Hpm Hq. rewrite A1.
    rewrite (writeResponse_direct "250 OK" (rsetSession s) Hh Hpm eq_refl).
    reflexivity. }
  repeat (split; [first [assumption | congruence]|]). congruence.
Qed.

End Resets.

Section Flow.
Context {L : GoStd}.

Lemma sent_nil c : closed c = false -> sent [] c = c.
Proof.
  intros H. destruct c as [w cl a]. simpl in H. subst. unfold sent. simpl.
  rewrite app_nil_r. reflexivity.
Qed.

Lemma set_conn_same s : set_conn (conn s) s = s.
Proof. destruct s; reflexivity. Qed.

Lemma flushResponses_healthy s :
  healthy (conn s) ->
  flushResponses s
  = (set_responseQueue [] (set_conn (sent (with_crlf (responseQueue s)) (conn s)) s),
     None).
Proof.
  intros Hh. unfold flushResponses. destruct (responseQueue s) as [|r q] eqn:Q.
  - simpl. rewrite sent_nil by apply Hh. rewrite set_conn_same.
    destruct s; simpl in *; subst; reflexivity.
  - rewrite (writeAll_healthy (r :: q) (conn s) Hh). reflexivity.
Qed.

Lemma dispatch_pipeliningMode x c s :
  pipeliningMode (fst (dispatch x c s)) = pipeliningMode s.
Proof. apply (dispatch_good x c s). Qed.


(** [C4] DATA with a body larger than the limit of the session
    ([getMaxMessageSize]): after the [354] reply [handleData] returns the
    error of [readMessageContent].  Nothing more is written, so no 552
    reply reaches the client; the store is not called, and the command
    loop ends with that error. *)
Theorem data_over_limit_ends_session (x : Extern) (ln : string) (args : list string)
    (s : Session) (data : string) :
  ParseCommand ln = Some {| Name := CmdDATA; Args := args |} ->
  state s = StateRcpt -> dataErrorResult s = None ->
  healthy (conn s) -> pipeliningMode s = false -> responseQueue s = [] ->
  readDotBytes x = Ok data -> gostd.len data > getMaxMessageSize s ->
  let r := handleCommand x ln s in
  snd r = Some (ErrMsg ("message size exceeds limit of "
                        ++ gostd.itoa (getMaxMessageSize s) ++ " bytes"))
  /\ written (conn (fst r))
     = (written (conn s) ++ [("354 End data with <CR><LF>.<CR><LF>" ++ gostd.CRLF)%string])%list
  /\ storeLog (fst r) = storeLog s
  /\ (forall i rest,
        strings_TrimSpace (line i) = ln -> ln <> "" ->
        (gostd.len ln >? MaxCommandLength) = false ->
        env i = x -> peekMore x = false ->
        runCommandLoop (i :: rest) s = r).
Proof.
  intros Hp Hs He Hh Hpm Hq Hd Hlen r.
  set (cmd := {| Name := CmdDATA; Args := args |}) in *.
  set (s1 := set_conn (sent ["354 End data with <CR><LF>.<CR><LF>" ++ gostd.CRLF] (conn s))
               (set_state StateData (set_pipeliningMode false s))).
  assert (E : r = (s1, Some (ErrMsg ("message size exceeds limit of "
                        ++ gostd.itoa (getMaxMessageSize s) ++ " bytes")))).
  { subst r. unfold handleCommand, parseAndLogCommand. rewrite Hp.
    assert (IsValid cmd = true) as -> by reflexivity.
    assert (IsAllowedInState cmd (state s) = true) as -> by (rewrite Hs; reflexivity).
    assert (ValidateArgs cmd = None) as -> by reflexivity.
    cbn [negb]. unfold breakPipelining.
    assert (breaksPipelining (Name cmd) = true) as Hb by reflexivity. rewrite Hb.
    unfold flushResponses at 1. rewrite Hq.
    unfold dispatch. simpl (Name cmd).
    change (String.eqb CmdDATA CmdHELO) with false.
    change (String.eqb CmdDATA CmdEHLO) with false.
    change (String.eqb CmdDATA CmdAUTH) with false.
    change (String.eqb CmdDATA CmdMAIL) with false.
    change (String.eqb CmdDATA CmdRCPT) with false.
    change (String.eqb CmdDATA CmdDATA) with true.
    cbv iota. unfold handleData.
    simpl (state (set_pipeliningMode false s)). rewrite Hs.
    simpl (dataErrorResult (set_pipeliningMode false s)). rewrite He.
    cbn [State_eqb negb].
    rewrite (writeResponse_direct "354 End data with <CR><LF>.<CR><LF>"
               (set_state StateData (set_pipeliningMode false s)) Hh eq_refl eq_refl).
    unfold readMessageContent. rewrite Hd.
    change (getMaxMessageSize (set_conn _ _)) with (getMaxMessageSize s).
    assert ((gostd.len data >? getMaxMessageSize s) = true) as ->
        by (apply Z.gtb_lt; lia).
    unfold finishCommand, flushAndReturn, flushResponses. simpl. rewrite Hq.
    reflexivity. }
  rewrite E. split; [reflexivity|]. split; [reflexivity|]. split; [reflexivity|].
  intros i rest Hl Hne Hlong Hx Hpk.
  cbn [runCommandLoop]. rewrite Hl, Hlong.
  apply String.eqb_neq in Hne. rewrite Hne.
  rewrite Hx. unfold detectPipelining. rewrite Hpk, Hpm.
  assert (Hsame : forall b : bool, (if b then s else s) = s)
    by (intros []; reflexivity).
  rewrite Hsame.
  fold r. rewrite E. reflexivity.
Qed.


End Flow.

(* ------------------------------------------------------------------ *)
(** ** The envelope is empty outside a transaction *)

Section Idle.
Context {L : GoStd}.

Lemma idle_io (s s' : Session) : only_io s s' -> idle s -> idle s'.
Proof. unfold only_io. intros ->. exact (fun H => H). Qed.

Lemma idle_writeResponse r s : idle s -> idle (fst (writeResponse r s)).
Proof. apply idle_io, writeResponse_only_io. Qed.

Lemma idle_handleStorageError err s :
  idle s -> idle (fst (handleStorageError err s)).
Proof.
  unfold handleStorageError. intros H.
  destruct (gostd.Contains err "not active"); [apply idle_writeResponse, H|].
  destruct (gostd.Contains err "quota"); apply idle_writeResponse, H.
Qed.

Lemma storeMessage_frame x content s :
  exists log e, storeMessage x content s = (set_storeLog log s, e).
Proof.
  unfold storeMessage.
  destruct (mail_ReadMessage content) as [[hdr body]|]; eexists; eexists; reflexivity.
Qed.

End Idle.

Ltac idle_leaf :=
  unfold idle, resetSessionState in *; simpl in *;
  repeat match goal with
         | H : context [state ?s] |- _ => destruct (state s); simpl in *
         | H : _ /\ _ |- _ => destruct H
         end;
  try discriminate; try exact I; try (split; first [assumption | reflexivity]).

Ltac idle_step :=
  match goal with
  | |- idle (fst (writeResponse _ _)) => apply idle_writeResponse
  | |- idle (fst (handleStorageError _ _)) => apply idle_handleStorageError
  | |- idle (fst (_, _)) => cbn [fst]
  | |- idle (fst (let (_, _) := ?p in _)) =>
      match p with
      | writeResponse ?r ?t =>
          let c := fresh "c" in
          let q := fresh "q" in
          let e := fresh "e" in
          let F := fresh "F" in
          destruct (writeResponse_frame r t) as (c & q & e & F);
          rewrite F; clear F; cbv iota beta; destruct e
      | storeMessage ?x ?m ?t =>
          let l := fresh "l" in
          let e := fresh "e" in
          let F := fresh "F" in
          destruct (storeMessage_frame x m t) as (l & e & F);
          rewrite F; clear F; cbv iota beta; destruct e
      | _ => destruct p eqn:?
      end
  | |- idle (fst (match ?p with _ => _ end)) =>
      match p with
      | writeResponse ?r ?t =>
          let c := fresh "c" in
          let q := fresh "q" in
          let e := fresh "e" in
          let F := fresh "F" in
          destruct (writeResponse_frame r t) as (c & q & e & F);
          rewrite F; clear F; cbv iota beta; destruct e
      | storeMessage ?x ?m ?t =>
          let l := fresh "l" in
          let e := fresh "e" in
          let F := fresh "F" in
          destruct (storeMessage_frame x m t) as (l & e & F);
          rewrite F; clear F; cbv iota beta; destruct e
      | _ => destruct p eqn:?
      end
  | |- idle (fst (if ?b then _ else _)) => destruct b eqn:?
  end.

Section IdleHandlers.
Context {L : GoStd}.

Lemma idle_handleMail cmd s : idle s -> idle (fst (handleMail cmd s)).
Proof.
  intros H. unfold handleMail. cbv zeta. repeat idle_step; try assumption; idle_leaf.
Qed.

Lemma idle_handleRcpt cmd s : idle s -> idle (fst (handleRcpt cmd s)).
Proof.
  intros H. unfold handleRcpt. cbv zeta.
  destruct (State_eqb (state s) StateRcpt) eqn:E; cbn [negb];
    [|apply idle_writeResponse, H].
  assert (state s = StateRcpt) as Hs by (destruct (state s); simpl in E; congruence).
  repeat idle_step; try assumption; unfold idle; simpl; rewrite Hs; exact I.
Qed.

Lemma idle_handleHelo cmd s : idle s -> idle (fst (handleHelo cmd s)).
Proof.
  intros H. unfold handleHelo, handleEhlo. cbv zeta.
  destruct (State_eqb (state s) StateHelo) eqn:E; cbn [negb];
    [|apply idle_writeResponse, H].
  assert (state s = StateHelo) as Hs by (destruct (state s); simpl in E; congruence).
  assert (mailFrom s = "" /\ rcptTo s = []) as Hm
    by (unfold idle in H; rewrite Hs in H; exact H).
  destruct (Args cmd) as [|host rest]; [exact H|].
  destruct (ExtractHeloError host);
    [apply idle_writeResponse; unfold idle; simpl; rewrite Hs; exact Hm|].
  destruct (String.eqb (Name cmd) CmdEHLO);
    [|apply idle_writeResponse; unfold idle; simpl; exact Hm].
  destruct (hasCapability _ _ || hasCapability _ _);
    [apply idle_writeResponse; unfold idle; simpl; exact Hm|].
  match goal with
  | |- context [buildEhloResponse ?h ?t] =>
      destruct (buildEhloResponse_frame h t) as (caps & adv & B);
      destruct (buildEhloResponse h t) as [s1 resp]; simpl in B; subst s1
  end.
  apply idle_writeResponse. unfold idle. simpl. exact Hm.
Qed.

Lemma idle_handleAuth x cmd s : idle s -> idle (fst (handleAuth x cmd s)).
Proof.
  intros H. unfold handleAuth. cbv zeta.
  repeat idle_step; try assumption; try idle_leaf.
Qed.

Lemma idle_handleData x s : idle s -> idle (fst (handleData x s)).
Proof.
  intros H. unfold handleData. cbv zeta.
  repeat idle_step; try assumption; try idle_leaf.
Qed.

Lemma idle_handleBdat x cmd s : idle s -> idle (fst (handleBdat x cmd s)).
Proof.
  intros H. unfold handleBdat. cbv zeta.
  repeat idle_step; try assumption; try idle_leaf.
Qed.

Lemma idle_handleRset s : idle s -> idle (fst (handleRset s)).
Proof.
  intros H. unfold handleRset. cbv zeta.
  repeat idle_step; try assumption; try idle_leaf.
Qed.

Lemma idle_handleNoop s : idle s -> idle (fst (handleNoop s)).
Proof.
  intros H. unfold handleNoop. repeat idle_step; assumption.
Qed.

Lemma idle_handleVrfy cmd s : idle s -> idle (fst (handleVrfy cmd s)).
Proof.
  intros H. unfold handleVrfy. cbv zeta. repeat idle_step; assumption.
Qed.

Lemma idle_handleQuit s : idle s -> idle (fst (handleQuit s)).
Proof.
  intros H. unfold handleQuit. repeat idle_step; try assumption; try idle_leaf.
Qed.

(** STARTTLS returns to the HELO state with the envelope as it was: it
    must be empty before, which it is in the states where the command is
    allowed. *)
Lemma idle_handleStartTLS x s :
  In (state s) [StateHelo; StateMail] -> idle s ->
  idle (fst (handleStartTLS x s)).
Proof.
  intros Hs H. unfold handleStartTLS.
  assert (mailFrom s = "" /\ rcptTo s = []) as [Hm Hr].
  { unfold idle in H. simpl in Hs. destruct Hs as [E|[E|[]]]; rewrite <- E in H; exact H. }
  repeat idle_step; try assumption; unfold idle; simpl; split; assumption.
Qed.

End IdleHandlers.

Section IdleLoop.
Context {L : GoStd}.

Lemma idle_fields (s s' : Session) :
  state s' = state s -> mailFrom s' = mailFrom s -> rcptTo s' = rcptTo s ->
  idle s -> idle s'.
Proof. unfold idle. intros -> -> ->. exact (fun H => H). Qed.

Lemma idle_dispatch x cmd s :
  IsAllowedInState cmd (state s) = true -> idle s ->
  idle (fst (dispatch x cmd s)).
Proof.
  intros Ha H. unfold dispatch, tryExtensionHandlers. cbv zeta.
  repeat match goal with
         | |- context [if String.eqb ?a ?b then _ else _] =>
             destruct (String.eqb a b) eqn:?
         end;
    auto using idle_handleHelo, idle_handleAuth, idle_handleMail, idle_handleRcpt,
      idle_handleData, idle_handleBdat, idle_handleRset, idle_handleNoop,
      idle_handleQuit, idle_handleVrfy, idle_writeResponse.
  apply idle_handleStartTLS; [|exact H].
  match goal with
  | E : String.eqb (Name cmd) CmdSTARTTLS = true |- _ => apply String.eqb_eq in E;
      unfold IsAllowedInState in Ha; rewrite E in Ha
  end.
  destruct (state s); vm_compute in Ha; try discriminate; simpl; auto.
Qed.

Lemma breakPipelining_fields cmd s :
  let s' := fst (breakPipelining cmd s) in
  state s' = state s /\ mailFrom s' = mailFrom s /\ rcptTo s' = rcptTo s.
Proof.
  unfold breakPipelining. destruct (breaksPipelining (Name cmd)); [|repeat split].
  pose proof (flushResponses_only_io s) as F. unfold only_io in F.
  destruct (flushResponses s) as [s1 [err|]]; simpl in *; rewrite F; repeat split.
Qed.

Lemma idle_handleCommand x ln s : idle s -> idle (fst (handleCommand x ln s)).
Proof.
  intros H. unfold handleCommand, parseAndLogCommand.
  destruct (ParseCommand ln) as [cmd|].
  2:{ pose proof (idle_writeResponse "500 Command not recognised" s H) as W.
      destruct (writeResponse "500 Command not recognised" s) as [s1 [e|]]; exact W. }
  destruct (IsValid cmd); cbn [negb].
  2:{ pose proof (idle_writeResponse "500 Command not recognised" s H) as W.
      destruct (writeResponse "500 Command not recognised" s) as [s1 [e|]]; exact W. }
  destruct (IsAllowedInState cmd (state s)) eqn:Ha; cbn [negb].
  2:{ match goal with
      | |- context [writeResponse ?r s] =>
          pose proof (idle_writeResponse r s H) as W;
          destruct (writeResponse r s) as [s1 [e|]]; exact W
      end. }
  destruct (ValidateArgs cmd) as [msg|].
  { pose proof (idle_writeResponse msg s H) as W.
    destruct (writeResponse msg s) as [s1 [e|]]; exact W. }
  destruct (breakPipelining_fields cmd s) as (B1 & B2 & B3).
  destruct (breakPipelining cmd s) as [s2 e2]. simpl in B1, B2, B3.
  assert (H2 : idle s2) by (apply (idle_fields s s2); assumption).
  destruct e2; [exact H2|].
  assert (D : idle (fst (dispatch x cmd s2)))
    by (apply idle_dispatch; [rewrite B1; exact Ha | exact H2]).
  destruct (dispatch x cmd s2) as [s3 e3]. simpl in D.
  destruct (finishCommand_fields cmd s3 e3) as (F1 & F2 & F3 & F4 & _).
  apply (idle_fields s3); assumption.
Qed.

Lemma idle_runCommandLoop inputs : forall s,
  idle s -> idle (fst (runCommandLoop inputs s)).
Proof.
  induction inputs as [|i rest IH]; intros s H; simpl; [exact H|].
  destruct (String.eqb _ _); [auto|].
  destruct (gostd.len _ >? MaxCommandLength).
  - pose proof (idle_writeResponse "500 Command too long" s H) as W.
    destruct (writeResponse "500 Command too long" s) as [s1 [e|]]; simpl in *; auto.
  - match goal with
    | |- context [handleCommand ?x ?l ?t] =>
        pose proof (idle_handleCommand x l t) as C;
        destruct (handleCommand x l t) as [s2 e]
    end.
    simpl in C.
    assert (I1 : idle s2).
    { apply C. destruct (Pipelining _ && negb _); [|exact H].
      destruct (detectPipelining _); exact H. }
    destruct e as [[]|]; simpl; auto.
Qed.

(** Every session the server reaches from a new connection has an empty
    envelope whenever it is in the greeting, HELO, AUTH or MAIL state. *)
Lemma idle_Handle inputs c cfg host tls :
  idle (fst (Handle inputs (NewSessionWithHostname c cfg host tls))).
Proof.
  set (s := NewSessionWithHostname c cfg host tls).
  assert (H1 : idle (fst (setupSessionBehaviourAndGreet s))).
  { unfold setupSessionBehaviourAndGreet.
    repeat idle_step; try (unfold idle; simpl; split; reflexivity). }
  unfold Handle.
  destruct (setupSessionBehaviourAndGreet s) as [s1 [e|]]; simpl in *.
  - exact H1.
  - pose proof (idle_runCommandLoop inputs s1 H1) as R.
    destruct (runCommandLoop inputs s1) as [s2 e2]. exact R.
Qed.

End IdleLoop.

(* ------------------------------------------------------------------ *)
(** ** Concrete runs *)

Import run sample.

(** The sender addresses [bdat552@...] and [rcpt550@...] carry an error
    pattern, but MAIL FROM schedules nothing for them: the final BDAT chunk
    and RCPT TO are answered [250]. *)
Lemma bdat_verb_not_scheduled :
  ExtractBdatError (L := asciiStd) "bdat552@x.example" = Some err552
  /\ pending (fst (after [ehlo; cmd "MAIL FROM:<bdat552@x.example>"])) = noPending
  /\ replies2 [ehlo; cmd "MAIL FROM:<bdat552@x.example>"; cmd "RCPT TO:<r@y.example>";
               {| line := "BDAT 4 LAST"; env := with_body "body" |}]
     = [crlf "250 OK"; crlf "250 OK"; crlf "250 OK Message accepted for delivery"]
  /\ ExtractRcptToError (L := asciiStd) "rcpt550@x.example" = Some err550
  /\ pending (fst (after [ehlo; cmd "MAIL FROM:<rcpt550@x.example>"])) = noPending
  /\ replies2 [ehlo; cmd "MAIL FROM:<rcpt550@x.example>"; cmd "RCPT TO:<r@y.example>"]
     = [crlf "250 OK"; crlf "250 OK"].
Proof. vm_compute. repeat split. Qed.

(** A noop error scheduled by MAIL FROM survives RSET, STARTTLS and a
    second EHLO: the NOOP after them is answered [550]. *)
Lemma ehlo_keeps_pending :
  let inputs := [ehlo; cmd "MAIL FROM:<noop550@x.example>"; cmd "RSET";
                 cmd "STARTTLS"; ehlo] in
  noopErrorResult (fst (after inputs)) = Some err550
  /\ pending (fst (after inputs)) <> noPending
  /\ state (fst (after inputs)) = StateMail
  /\ skipn 4 (replies2 (inputs ++ [cmd "NOOP"]))
     = [crlf "550 Requested action not taken: mailbox unavailable"].
Proof.
  vm_compute. split; [reflexivity|]. split; [discriminate|]. split; reflexivity.
Qed.

(** After STARTTLS the session still has the host name of the EHLO before
    it, and a pending noop error is still pending. *)
Lemma starttls_keeps_heloName :
  let s := fst (after [ehlo; cmd "STARTTLS"]) in
  let t := fst (after [ehlo; cmd "MAIL FROM:<noop550@x.example>"; cmd "RSET";
                       cmd "STARTTLS"]) in
  state s = StateHelo /\ tlsState s <> None
  /\ heloName s = "c.example" /\ heloName s <> ""
  /\ state t = StateHelo /\ noopErrorResult t = Some err550.
Proof.
  vm_compute. split; [reflexivity|]. split; [discriminate|].
  split; [reflexivity|]. split; [discriminate|]. split; reflexivity.
Qed.

(** RSET after a first BDAT chunk is answered [503] and changes nothing;
    RSET after MAIL FROM keeps the pending noop error. *)
Lemma rset_refused_in_bdat_state :
  let inputs := [ehlo; cmd "MAIL FROM:<a@x.example>"; cmd "RCPT TO:<b@y.example>";
                 {| line := "BDAT 4"; env := with_body "body" |}] in
  let s := fst (after inputs) in
  let s' := fst (after (inputs ++ [cmd "RSET"])) in
  state s = StateBdat
  /\ skipn 3 (replies2 (inputs ++ [cmd "RSET"]))
     = [crlf "503 Bad sequence - RSET not allowed in BDAT state"]
  /\ state s' = StateBdat /\ mailFrom s' = "a@x.example"
  /\ rcptTo s' = ["b@y.example"]
  /\ noopErrorResult
       (fst (after [ehlo; cmd "MAIL FROM:<noop550@x.example>"; cmd "RSET"]))
     = Some err550.
Proof. vm_compute. repeat split. Qed.


(** A pattern address with the code 250, or 251, is answered with that
    code and is not appended: of three recipients answered with a 2xx
    code, two of them with 250, the stored message has the last only. *)
Lemma rcpt250_answered_250_not_appended :
  replies2 [ehlo; cmd "MAIL FROM:<a@x.example>"; cmd "RCPT TO:<rcpt250@y.example>";
            cmd "RCPT TO:<rcpt251_2.1.5@y.example>"; cmd "RCPT TO:<b@y.example>";
            {| line := "DATA"; env := with_body "hello" |}]
  = [crlf "250 OK"; crlf "250 Unknown error"; crlf "251 2.1.5 Unknown error";
     crlf "250 OK"; crlf "354 End data with <CR><LF>.<CR><LF>";
     crlf "250 OK Message accepted for delivery"]
  /\ map To (storeLog (fst (after
       [ehlo; cmd "MAIL FROM:<a@x.example>"; cmd "RCPT TO:<rcpt250@y.example>";
        cmd "RCPT TO:<rcpt251_2.1.5@y.example>"; cmd "RCPT TO:<b@y.example>";
        {| line := "DATA"; env := with_body "hello" |}])))
     = [["b@y.example"]].
Proof. vm_compute. split; reflexivity. Qed.

(** [size0] is skipped: the EHLO response advertises the default
    [10485760], not the lower bound [1000]. *)
Lemma size0_is_not_clamped :
  parseAndClampSize ["size0"] = (0, false)
  /\ Z.max advertisedSizeMin (Z.min 0 advertisedSizeMax) = 1000
  /\ In "250-SIZE 10485760"
        (snd (buildEhloResponse (L := asciiStd) "size0.example.com" fresh))
  /\ advertisedSize (fst (buildEhloResponse (L := asciiStd) "size0.example.com" fresh))
     = 0.
Proof. vm_compute. repeat split. right. right. right. left. reflexivity. Qed.

(* ------------------------------------------------------------------ *)
(** ** Instances of the theorems *)

(** MAIL FROM:<data552@x.example> after EHLO. *)
Lemma mail_from_schedules_errors_witness :
  pending (fst (handleMail (L := asciiStd)
                  {| Name := "MAIL"; Args := ["FROM:<data552@x.example>"] |} inMail))
  = scheduled (L := asciiStd) "data552@x.example".
Proof.
  refine (proj1 (proj2 (proj1 (proj2
            (mail_from_schedules_errors (L := asciiStd)
               {| Name := "MAIL"; Args := ["FROM:<data552@x.example>"] |} inMail
               "FROM:<data552@x.example>" [] _ _ _ _)) _)));
    vm_compute; try reflexivity; discriminate.
Defined.


(** EHLO c.example after the banner. *)
Lemma ehlo_keeps_envelope_and_pending_witness :
  state (fst (handleHelo (L := asciiStd)
                {| Name := "EHLO"; Args := ["c.example"] |} greeted)) = StateMail.
Proof.
  refine (proj1 (ehlo_keeps_envelope_and_pending (L := asciiStd)
                   {| Name := "EHLO"; Args := ["c.example"] |} greeted
                   "c.example" [] _ _ _ _));
    vm_compute; reflexivity.
Defined.

(** DATA with 1001 bytes where the limit is 1000. *)
Lemma data_over_limit_ends_session_witness :
  snd (handleCommand (L := asciiStd) (with_body (bytes 1001)) "DATA" inRcpt1000)
  = Some (ErrMsg "message size exceeds limit of 1000 bytes").
Proof.
  refine (proj1 (data_over_limit_ends_session (L := asciiStd)
                   (with_body (bytes 1001)) "DATA" [] inRcpt1000 (bytes 1001)
                   _ _ _ _ _ _ _ _)).
  - vm_compute. reflexivity.
  - vm_compute. reflexivity.
  - vm_compute. reflexivity.
  - split; [vm_compute; reflexivity | intros; reflexivity].
  - vm_compute. reflexivity.
  - vm_compute. reflexivity.
  - reflexivity.
  - vm_compute. reflexivity.
Defined.

(** STARTTLS after EHLO. *)
Lemma starttls_refused_or_upgraded_witness :
  state (fst (handleStartTLS (L := asciiStd) quiet inMail)) = StateHelo
  /\ heloName (fst (handleStartTLS (L := asciiStd) quiet inMail)) = heloName inMail.
Proof.
  pose proof (proj2 (starttls_refused_or_upgraded (L := asciiStd) quiet inMail eq_refl)
                (fst (writeResponse (L := asciiStd) "220 Ready to start TLS" inMail))
                {| Version := 772; CipherSuite := 4865 |}
                eq_refl eq_refl eq_refl eq_refl) as T.
  cbv zeta in T. split; apply T.
Defined.

(** RSET after MAIL FROM. *)
Lemma rset_resets_envelope_witness :
  state (fst (handleCommand (L := asciiStd) quiet "RSET" inRcpt)) = StateMail
  /\ mailFrom (fst (handleCommand (L := asciiStd) quiet "RSET" inRcpt)) = "".
Proof.
  assert (In (state inRcpt) [StateHelo; StateAuth; StateMail; StateRcpt]) as H
    by (vm_compute; auto).
  pose proof (rset_resets_envelope (L := asciiStd) quiet quiet "RSET" [] inRcpt
                eq_refl H eq_refl) as T.
  cbv zeta in T. split; apply T.
Defined.



(** RCPT TO:<rcpt550_5.1.1@y.example> after MAIL FROM. *)
Lemma rcpt_error_not_appended_witness :
  rcptTo (fst (handleRcpt (L := asciiStd)
                 {| Name := "RCPT"; Args := ["TO:<rcpt550_5.1.1@y.example>"] |} inRcpt))
  = rcptTo inRcpt.
Proof.
  refine (proj1 (proj2 (proj2
            (proj1 (rcpt_error_not_appended (L := asciiStd)
                      {| Name := "RCPT"; Args := ["TO:<rcpt550_5.1.1@y.example>"] |}
                      inRcpt _) err550_511 _)))).
  - vm_compute. reflexivity.
  - vm_compute. reflexivity.
Defined.

(* ================================================================== *)
(** * Further properties of the code *)
(* ================================================================== *)

Import effects.

(* ------------------------------------------------------------------ *)
(** ** What a command changes *)

Section Core.
Context {L : GoStd}.

Lemma core_io (s s' : Session) : only_io s s' -> core s' = core s.
Proof. unfold only_io. intros ->. reflexivity. Qed.

Lemma core_writeResponse r s : core (fst (writeResponse r s)) = core s.
Proof. apply core_io, writeResponse_only_io. Qed.

Lemma core_fields (a b : Session) :
  core a = core b ->
  state a = state b /\ heloName a = heloName b /\ mailFrom a = mailFrom b
  /\ rcptTo a = rcptTo b /\ authenticated a = authenticated b
  /\ tlsState a = tlsState b /\ capabilities a = capabilities b
  /\ advertisedSize a = advertisedSize b /\ bdatBuffer a = bdatBuffer b
  /\ pending a = pending b /\ storeLog a = storeLog b.
Proof.
  unfold core. intros H. injection H. intros.
  repeat split; try assumption. unfold pending. congruence.
Qed.

End Core.

(** One step of the symbolic execution of a handler: a reply is replaced
    by the session with a new connection and queue, a call of the store by
    the session with a longer log, a test by its two cases. *)
Ltac exec_step :=
  first
    [ match goal with
      | |- context [writeResponse ?r ?t] =>
          let c := fresh "c" in
          let q := fresh "q" in
          let e := fresh "e" in
          let F := fresh "F" in
          destruct (writeResponse_frame r t) as (c & q & e & F);
          rewrite F; clear F; cbv beta iota
      end
    | match goal with
      | |- context [storeMessage ?x ?m ?t] =>
          let M := fresh "M" in
          let msg := fresh "msg" in
          destruct (storeMessage_envelope x m t) as (msg & M);
          let l := fresh "l" in
          let e := fresh "e" in
          let F := fresh "F" in
          destruct (storeMessage_frame x m t) as (l & e & F);
          rewrite F in M |- *; clear F; cbv beta iota; cbn [fst storeLog set_storeLog] in M
      end
    | match goal with
      | |- context [if ?b then _ else _] => destruct b eqn:?
      end
    | match goal with
      | |- context [match ?x with _ => _ end] => destruct x eqn:?
      end ].

Ltac exec := cbv zeta; repeat exec_step.

(** The state of the session, from the tests of the handler. *)
Ltac know_state s :=
  destruct (state s) eqn:?; cbn [State_eqb negb andb orb] in *; try discriminate.

Section Effects.
Context {L : GoStd}.

Lemma handleNoop_effect s :
  core (fst (handleNoop s)) = core s.
Proof. unfold handleNoop. exec; reflexivity. Qed.

Lemma handleVrfy_effect cmd s :
  core (fst (handleVrfy cmd s)) = core s.
Proof. unfold handleVrfy. exec; reflexivity. Qed.

Lemma handleMail_effect cmd s :
  exists t, effect CmdMAIL s t /\ core (fst (handleMail cmd s)) = core t.
Proof.
  unfold handleMail. know_state s; exec;
    first [ solve [exists s; split; [apply eff_none | reflexivity]]
          | solve [eexists; split; [apply eff_mail; assumption | reflexivity]] ].
Qed.

Lemma handleRcpt_effect cmd s :
  exists t, effect CmdRCPT s t /\ core (fst (handleRcpt cmd s)) = core t.
Proof.
  unfold handleRcpt. know_state s; exec;
    first [ solve [exists s; split; [apply eff_none | reflexivity]]
          | solve [eexists; split; [apply eff_rcpt; assumption | reflexivity]] ].
Qed.

Lemma handleHelo_effect cmd s :
  Name cmd = CmdHELO \/ Name cmd = CmdEHLO ->
  exists t, effect (Name cmd) s t /\ core (fst (handleHelo cmd s)) = core t.
Proof.
  intros Hn. unfold handleHelo, handleEhlo. know_state s.
  all: try solve [exec; exists s; split; [apply eff_none | reflexivity]].
  destruct (Args cmd) as [|h rest]; [exists s; split; [apply eff_none|reflexivity]|].
  destruct (ExtractHeloError h).
  { exec. eexists. split; [apply (eff_helo_refused (Name cmd) h s Hn); assumption|].
    reflexivity. }
  destruct (String.eqb (Name cmd) CmdEHLO) eqn:E.
  2:{ exec. eexists. split; [apply (eff_helo (Name cmd) h s Hn); assumption|].
      reflexivity. }
  apply String.eqb_eq in E. rewrite E in *.
  cbv zeta. destruct (hasCapability _ _ || hasCapability _ _).
  { exec. eexists. split; [apply (eff_helo CmdEHLO h s Hn); assumption|].
    reflexivity. }
  eexists. split; [apply (eff_ehlo h s); assumption|].
  destruct (buildEhloResponse _ _) as [s1 resp]. cbn [fst].
  apply core_writeResponse.
Qed.

Lemma handleAuth_effect x cmd s :
  exists t, effect CmdAUTH s t /\ core (fst (handleAuth x cmd s)) = core t.
Proof.
  unfold handleAuth, auth_Authenticate.
  destruct (state s) eqn:Hs; cbn [State_eqb negb andb orb]; exec;
    first [ solve [exists s; split; [apply eff_none | reflexivity]]
          | solve [eexists; split; [apply eff_auth; auto | reflexivity]] ].
Qed.

Lemma handleData_effect x s :
  exists t, effect CmdDATA s t /\ core (fst (handleData x s)) = core t.
Proof.
  unfold handleData, handleStorageError, readMessageContent.
  destruct (state s) eqn:Hs; cbn [State_eqb negb andb orb]; exec;
    repeat match goal with H : _ /\ _ |- _ => destruct H end; subst;
    first [ solve [exists s; split; [apply eff_none | reflexivity]]
          | solve [eexists; split; [apply eff_data_begun; assumption | reflexivity]]
          | solve [eexists; split;
                   [eapply eff_data_kept; eassumption | reflexivity]]
          | solve [eexists; split;
                   [eapply eff_data_done; eassumption | reflexivity]] ].
Qed.

Lemma handleBdat_effect x cmd s :
  exists t, effect CmdBDAT s t /\ core (fst (handleBdat x cmd s)) = core t.
Proof.
  unfold handleBdat, handleStorageError.
  destruct (state s) eqn:Hs; cbn [State_eqb negb andb orb]; exec;
    repeat match goal with H : _ /\ _ |- _ => destruct H end; subst;
    cbn [bdatBuffer set_bdatBuffer mailFrom rcptTo storeLog] in *;
    first [ solve [exists s; split; [apply eff_none | reflexivity]]
          | solve [eexists; split;
                   [eapply eff_bdat_chunk; auto | reflexivity]]
          | solve [eexists; split;
                   [eapply eff_bdat_kept; eauto | reflexivity]]
          | solve [eexists; split;
                   [eapply eff_bdat_done; eauto | reflexivity]] ].
Qed.

Lemma handleRset_effect s :
  In (state s) [StateHelo; StateMail; StateRcpt; StateAuth] ->
  exists t, effect CmdRSET s t /\ core (fst (handleRset s)) = core t.
Proof.
  intros Hs. unfold handleRset. exec;
    first [ solve [exists s; split; [apply eff_none | reflexivity]]
          | solve [eexists; split; [apply eff_rset; assumption | reflexivity]] ].
Qed.

Lemma handleStartTLS_effect x s :
  state s = StateHelo \/ state s = StateMail ->
  exists t, effect CmdSTARTTLS s t /\ core (fst (handleStartTLS x s)) = core t.
Proof.
  intros Hs. unfold handleStartTLS. exec;
    first [ solve [exists s; split; [apply eff_none | reflexivity]]
          | solve [eexists; split; [eapply eff_starttls; eassumption | reflexivity]] ].
Qed.

Lemma handleQuit_effect s :
  In (state s) [StateHelo; StateMail; StateRcpt; StateData; StateBdat; StateAuth] ->
  exists t, effect CmdQUIT s t /\ core (fst (handleQuit s)) = core t.
Proof.
  intros Hs. unfold handleQuit. exec;
    first [ solve [exists s; split; [apply eff_none | reflexivity]]
          | solve [eexists; split; [apply eff_quit; assumption | reflexivity]] ].
Qed.

End Effects.

Section CommandEffects.
Context {L : GoStd}.

Lemma allowed_states (cmd : Command) (st : State) (name : string) (l : list State) :
  Name cmd = name -> cmd_lookup allowed name = Some l ->
  IsAllowedInState cmd st = true -> In st l.
Proof.
  intros Hn Hl. unfold IsAllowedInState. rewrite Hn, Hl.
  intros H. apply existsb_exists in H. destruct H as (y & Hy & E).
  apply State_eqb_eq in E. subst. exact Hy.
Qed.

(** The handler of an accepted command has one of the effects of the
    command's name. *)
Lemma dispatch_effect x cmd s :
  IsAllowedInState cmd (state s) = true ->
  exists t, effect (Name cmd) s t /\ core (fst (dispatch x cmd s)) = core t.
Proof.
  intros Ha. unfold dispatch, tryExtensionHandlers. cbv zeta.
  repeat match goal with
         | |- context [if String.eqb ?a ?b then _ else _] =>
             let E := fresh "E" in
             destruct (String.eqb a b) eqn:E;
             [apply String.eqb_eq in E|]
         end.
  - apply handleHelo_effect. auto.
  - apply handleHelo_effect. auto.
  - rewrite E1. apply handleAuth_effect.
  - rewrite E2. apply handleMail_effect.
  - rewrite E3. apply handleRcpt_effect.
  - rewrite E4. apply handleData_effect.
  - rewrite E5. apply handleBdat_effect.
  - rewrite E6. apply handleRset_effect.
    apply (allowed_states cmd (state s) CmdRSET _ E6 eq_refl Ha).
  - exists s. split; [apply eff_none|]. apply handleNoop_effect.
  - rewrite E8. apply handleStartTLS_effect.
    pose proof (allowed_states cmd (state s) CmdSTARTTLS _ E8 eq_refl Ha) as H.
    simpl in H. destruct H as [H|[H|[]]]; auto.
  - rewrite E9. apply handleQuit_effect.
    apply (allowed_states cmd (state s) CmdQUIT _ E9 eq_refl Ha).
  - exists s. split; [apply eff_none|]. apply handleVrfy_effect.
  - exists s. split; [apply eff_none|]. cbn. apply core_writeResponse.
Qed.

Lemma core_flushResponses s : core (fst (flushResponses s)) = core s.
Proof. apply core_io, flushResponses_only_io. Qed.

Lemma core_breakPipelining cmd s : core (fst (breakPipelining cmd s)) = core s.
Proof.
  unfold breakPipelining. destruct (breaksPipelining (Name cmd)); [|reflexivity].
  pose proof (core_flushResponses s) as F.
  destruct (flushResponses s) as [s1 [e|]]; exact F.
Qed.

Lemma core_finishCommand cmd r : core (fst (finishCommand cmd r)) = core (fst r).
Proof.
  destruct r as [s e]. unfold finishCommand, flushAndReturn.
  pose proof (core_flushResponses s) as F.
  destruct e; [destruct (flushResponses s) as [s1 [e1|]]; exact F|].
  destruct (breaksPipelining (Name cmd)); [|reflexivity].
  destruct (flushResponses s) as [s1 [e1|]]; exact F.
Qed.

(** A line that is not dispatched changes nothing but the connection and
    the queue; a dispatched command has one of the effects of its name, on
    the session [s0] that differs from [s] in the connection, the queue and
    the pipelining flag only. *)
Lemma handleCommand_effect x ln s :
  core (fst (handleCommand x ln s)) = core s
  \/ exists cmd s0 t,
       ParseCommand ln = Some cmd /\ IsValid cmd = true
       /\ IsAllowedInState cmd (state s) = true /\ ValidateArgs cmd = None
       /\ core s0 = core s
       /\ effect (Name cmd) s0 t /\ core (fst (handleCommand x ln s)) = core t.
Proof.
  unfold handleCommand, parseAndLogCommand.
  destruct (ParseCommand ln) as [cmd|].
  2:{ left. pose proof (core_writeResponse "500 Command not recognised" s) as W.
      destruct (writeResponse "500 Command not recognised" s) as [s1 [e|]]; exact W. }
  destruct (IsValid cmd) eqn:Hv; cbn [negb].
  2:{ left. pose proof (core_writeResponse "500 Command not recognised" s) as W.
      destruct (writeResponse "500 Command not recognised" s) as [s1 [e|]]; exact W. }
  destruct (IsAllowedInState cmd (state s)) eqn:Ha; cbn [negb].
  2:{ left.
      match goal with
      | |- context [writeResponse ?r s] =>
          pose proof (core_writeResponse r s) as W;
          destruct (writeResponse r s) as [s1 [e|]]; exact W
      end. }
  destruct (ValidateArgs cmd) as [msg|] eqn:Hargs.
  { left. pose proof (core_writeResponse msg s) as W.
    destruct (writeResponse msg s) as [s1 [e|]]; exact W. }
  pose proof (core_breakPipelining cmd s) as B.
  destruct (breakPipelining cmd s) as [s2 e2]. cbn [fst] in B.
  destruct e2; [left; exact B|].
  right. pose proof (core_fields _ _ B) as (B1 & _).
  destruct (dispatch_effect x cmd s2) as (t & Et & Ct); [rewrite B1; exact Ha|].
  exists cmd, s2, t. repeat (split; [first [reflexivity | assumption]|]).
  rewrite core_finishCommand. exact Ct.
Qed.

End CommandEffects.

(** A relation between sessions that looks at the core only, is reflexive
    and transitive and holds across every command holds across the
    command loop. *)
Section LoopRelation.
Context {L : GoStd}.
Variable R : Session -> Session -> Prop.
Hypothesis R_core :
  forall a a' b b', core a = core a' -> core b = core b' -> R a b -> R a' b'.
Hypothesis R_refl : forall a, R a a.
Hypothesis R_trans : forall a b c, R a b -> R b c -> R a c.
Hypothesis R_step : forall x ln s, R s (fst (handleCommand x ln s)).

Lemma loop_relation inputs : forall s, R s (fst (runCommandLoop inputs s)).
Proof.
  induction inputs as [|i rest IH]; intros s; simpl; [apply R_refl|].
  destruct (String.eqb _ _); [apply IH|].
  destruct (gostd.len _ >? MaxCommandLength).
  - pose proof (core_writeResponse "500 Command too long" s) as W.
    destruct (writeResponse "500 Command too long" s) as [s1 [e|]]; cbn [fst] in *.
    + apply (R_core s s s s1); auto.
    + apply (R_trans s s1); [apply (R_core s s s s1); auto | apply IH].
  - match goal with
    | |- context [handleCommand ?x ?l ?t] =>
        pose proof (R_step x l t) as C;
        assert (Ct : core t = core s)
          by (destruct (Pipelining _ && negb _); [destruct (detectPipelining _)|];
              reflexivity);
        destruct (handleCommand x l t) as [s2 e]
    end.
    cbn [fst] in C.
    assert (C' : R s s2) by (eapply R_core; [exact Ct|reflexivity|exact C]).
    destruct e as [[]|]; cbn [fst]; try exact C'.
    apply (R_trans s s2); [exact C' | apply IH].
Qed.

End LoopRelation.

Section Transitions.
Context {L : GoStd}.

Lemma effect_state name s t :
  effect name s t -> In (state t) (next_states (state s)).
Proof.
  intros E. destruct E; cbn [state set_state set_heloName set_authenticated
    set_mailFrom set_pending set_rcptTo set_storeLog set_bdatBuffer set_tlsState
    resetSessionState rsetSession];
    repeat match goal with
           | H : _ \/ _ |- _ => destruct H
           | H : In _ _ |- _ => simpl in H
           | H : False |- _ => destruct H
           | H : state ?s = _ |- _ => rewrite H
           | H : _ = state ?s |- _ => rewrite <- H
           end; simpl; auto 10.
  - destruct (state s); simpl; auto.
  - destruct (buildEhloResponse_frame (strings_ToLower h)
                (set_state StateMail (set_heloName h s))) as (caps & adv & B).
    rewrite B. simpl. auto.
Qed.

Lemma handleCommand_next_state x ln s :
  In (state (fst (handleCommand x ln s))) (next_states (state s)).
Proof.
  destruct (handleCommand_effect x ln s)
    as [C|(cmd & s0 & u & _ & _ & _ & _ & C0 & E & C)].
  - apply core_fields in C. destruct C as (-> & _).
    destruct (state s); simpl; auto.
  - apply core_fields in C. destruct C as (-> & _).
    apply core_fields in C0. destruct C0 as (<- & _).
    eapply effect_state. exact E.
Qed.

Lemma runCommandLoop_states inputs s :
  let s' := fst (runCommandLoop inputs s) in
  (state s <> StateAuth -> state s' <> StateAuth)
  /\ (state s = StateGreeting -> state s' = StateGreeting)
  /\ (state s = StateQuit -> state s' = StateQuit)
  /\ (state s = StateData -> state s' = StateData \/ state s' = StateQuit).
Proof.
  apply (loop_relation
           (fun a b =>
              (state a <> StateAuth -> state b <> StateAuth)
              /\ (state a = StateGreeting -> state b = StateGreeting)
              /\ (state a = StateQuit -> state b = StateQuit)
              /\ (state a = StateData -> state b = StateData \/ state b = StateQuit))).
  - intros a a' b b' Ca Cb. apply core_fields in Ca. apply core_fields in Cb.
    destruct Ca as (-> & _). destruct Cb as (-> & _). exact (fun H => H).
  - intros a. repeat split; auto.
  - intros a b c (A1 & A2 & A3 & A4) (B1 & B2 & B3 & B4).
    repeat split; auto.
    intros H. destruct (A4 H) as [H'|H']; auto.
  - intros y l t. pose proof (handleCommand_next_state y l t) as Step.
    destruct (state t); simpl in Step;
      repeat match goal with H : _ \/ _ |- _ => destruct H end;
      try contradiction;
      repeat split; intros; try congruence; auto.
Qed.

(** The states one command line can lead to are those of [next_states]:
    from GREETING and QUIT the session never moves, from DATA it only
    moves to QUIT, and no command enters AUTH.  Across the command loop a
    session therefore stays in GREETING or QUIT once there, stays in DATA
    or QUIT once in DATA, and is never in AUTH unless it started there. *)
Theorem command_state_steps (x : Extern) (ln : string) (s : Session) :
  In (state (fst (handleCommand x ln s))) (next_states (state s))
  /\ (forall inputs,
        let s' := fst (runCommandLoop inputs s) in
        (state s <> StateAuth -> state s' <> StateAuth)
        /\ (state s = StateGreeting -> state s' = StateGreeting)
        /\ (state s = StateQuit -> state s' = StateQuit)
        /\ (state s = StateData -> state s' = StateData \/ state s' = StateQuit)).
Proof.
  split; [apply handleCommand_next_state|].
  intros inputs. apply runCommandLoop_states.
Qed.

End Transitions.

Section Monotone.
Context {L : GoStd}.

Lemma effect_auth_tls name s t :
  effect name s t ->
  (authenticated s = true -> authenticated t = true)
  /\ (forall st, tlsState s = Some st -> tlsState t = Some st).
Proof.
  intros E. destruct E;
    try (destruct (buildEhloResponse_frame (strings_ToLower h)
                     (set_state StateMail (set_heloName h s))) as (caps & adv & B);
         rewrite B);
    cbn; split; auto; congruence.
Qed.

(** Across the command loop an authenticated session stays authenticated
    and the TLS state of a session, once set, is never changed or
    cleared: EHLO, RSET, STARTTLS and the end of a transaction all keep
    both. *)
Theorem authentication_and_tls_are_kept (inputs : list Input) (s : Session) :
  let s' := fst (runCommandLoop inputs s) in
  (authenticated s = true -> authenticated s' = true)
  /\ (forall st, tlsState s = Some st -> tlsState s' = Some st).
Proof.
  apply (loop_relation
           (fun a b =>
              (authenticated a = true -> authenticated b = true)
              /\ (forall st, tlsState a = Some st -> tlsState b = Some st))).
  - intros a a' b b' Ca Cb. apply core_fields in Ca. apply core_fields in Cb.
    destruct Ca as (_ & _ & _ & _ & -> & -> & _).
    destruct Cb as (_ & _ & _ & _ & -> & -> & _). exact (fun H => H).
  - intros a. split; auto.
  - intros a b c (A1 & A2) (B1 & B2). split; auto.
  - intros y l t. destruct (handleCommand_effect y l t)
      as [C|(cmd & s0 & u & _ & _ & _ & _ & C0 & E & C)].
    + apply core_fields in C. destruct C as (_ & _ & _ & _ & -> & -> & _).
      split; auto.
    + apply core_fields in C. destruct C as (_ & _ & _ & _ & -> & -> & _).
      apply core_fields in C0. destruct C0 as (_ & _ & _ & _ & <- & <- & _).
      eapply effect_auth_tls. exact E.
Qed.

Lemma effect_storeLog name s t :
  effect name s t ->
  storeLog t = storeLog s
  \/ ((name = CmdDATA \/ name = CmdBDAT)
      /\ (state s = StateRcpt \/ state s = StateBdat)
      /\ exists msg, storeLog t = (storeLog s ++ [msg])%list
                     /\ From msg = mailFrom s /\ To msg = rcptTo s).
Proof.
  intros E. destruct E;
    try (destruct (buildEhloResponse_frame (strings_ToLower h)
                     (set_state StateMail (set_heloName h s))) as (caps & adv & B);
         rewrite B);
    cbn; try (left; reflexivity);
    right; (split; [auto|]); (split; [auto|]); exists msg; auto.
Qed.

(** One command line calls the message store at most once, and only for
    DATA or BDAT in the states RCPT or BDAT; the message handed over
    carries the sender and the recipients of the session as they were
    before the command. *)
Theorem store_called_by_data_and_bdat_only (x : Extern) (ln : string) (s : Session) :
  let s' := fst (handleCommand x ln s) in
  storeLog s' = storeLog s
  \/ exists cmd msg,
       ParseCommand ln = Some cmd
       /\ (Name cmd = CmdDATA \/ Name cmd = CmdBDAT)
       /\ (state s = StateRcpt \/ state s = StateBdat)
       /\ storeLog s' = (storeLog s ++ [msg])%list
       /\ From msg = mailFrom s /\ To msg = rcptTo s.
Proof.
  cbv zeta. destruct (handleCommand_effect x ln s)
    as [C|(cmd & s0 & u & Hp & _ & _ & _ & C0 & E & C)].
  - left. apply core_fields in C. tauto.
  - apply core_fields in C. apply core_fields in C0.
    destruct C as (_ & _ & _ & _ & _ & _ & _ & _ & _ & _ & ->).
    destruct C0 as (S0 & _ & M0 & R0 & _ & _ & _ & _ & _ & _ & L0).
    rewrite <- S0, <- M0, <- R0, <- L0.
    destruct (effect_storeLog _ _ _ E) as [H|(Hn & Hs & msg & H1 & H2 & H3)];
      [left; exact H|].
    right. exists cmd, msg. auto 10.
Qed.

End Monotone.

Section Authentication.
Context {L : GoStd}.

Lemma handleAuth_sets_flag x cmd t :
  authenticated t = false ->
  authenticated (fst (handleAuth x cmd t)) = true ->
  exists mech rest u user,
    Args cmd = mech :: rest /\ auth_NewHandler mech = true
    /\ authErrorResult t = None
    /\ authUsername x = Some u /\ authenticate x u = Some user
    /\ Active user = true.
Proof.
  intros Hf. unfold handleAuth.
  assert (W : forall r u, authenticated (fst (writeResponse r u)) = true ->
                core u = core t -> False).
  { intros r u H Cu. pose proof (core_writeResponse r u) as C.
    apply core_fields in C. apply core_fields in Cu.
    destruct C as (_ & _ & _ & _ & C & _). destruct Cu as (_ & _ & _ & _ & Cu & _).
    congruence. }
  destruct (negb _ && negb _); [intros H; exact (False_ind _ (W _ _ H eq_refl))|].
  destruct (authErrorResult t) eqn:He; [intros H; exact (False_ind _ (W _ _ H eq_refl))|].
  destruct (Args cmd) as [|mech rest]; [cbn; congruence|].
  destruct (auth_NewHandler mech) eqn:Hm; cbn [negb];
    [|intros H; exact (False_ind _ (W _ _ H eq_refl))].
  unfold auth_Authenticate.
  destruct (writeAll _ (conn t)) as [c1 ok].
  destruct ok; [|intros H; exact (False_ind _ (W _ _ H eq_refl))].
  destruct (authUsername x) as [u|] eqn:Hu; [|intros H; exact (False_ind _ (W _ _ H eq_refl))].
  destruct (authenticate x u) as [user|] eqn:Ha;
    [|intros H; exact (False_ind _ (W _ _ H eq_refl))].
  destruct (Active user) eqn:Hact; cbn [negb];
    [|intros H; exact (False_ind _ (W _ _ H eq_refl))].
  intros _. exists mech, rest, u, user. auto 10.
Qed.

Lemma core_handleCommand x ln s :
  core (fst (handleCommand x ln s)) = core s
  \/ exists cmd s2,
       ParseCommand ln = Some cmd /\ IsValid cmd = true
       /\ IsAllowedInState cmd (state s) = true /\ ValidateArgs cmd = None
       /\ core s2 = core s
       /\ core (fst (handleCommand x ln s)) = core (fst (dispatch x cmd s2)).
Proof.
  unfold handleCommand, parseAndLogCommand.
  destruct (ParseCommand ln) as [cmd|].
  2:{ left. pose proof (core_writeResponse "500 Command not recognised" s) as W.
      destruct (writeResponse "500 Command not recognised" s) as [s1 [e|]]; exact W. }
  destruct (IsValid cmd) eqn:Hv; cbn [negb].
  2:{ left. pose proof (core_writeResponse "500 Command not recognised" s) as W.
      destruct (writeResponse "500 Command not recognised" s) as [s1 [e|]]; exact W. }
  destruct (IsAllowedInState cmd (state s)) eqn:Ha; cbn [negb].
  2:{ left.
      match goal with
      | |- context [writeResponse ?r s] =>
          pose proof (core_writeResponse r s) as W;
          destruct (writeResponse r s) as [s1 [e|]]; exact W
      end. }
  destruct (ValidateArgs cmd) as [msg|] eqn:Hargs.
  { left. pose proof (core_writeResponse msg s) as W.
    destruct (writeResponse msg s) as [s1 [e|]]; exact W. }
  pose proof (core_breakPipelining cmd s) as B.
  destruct (breakPipelining cmd s) as [s2 e2]. cbn [fst] in B.
  destruct e2; [left; exact B|].
  right. exists cmd, s2. repeat (split; [first [reflexivity | assumption]|]).
  apply core_finishCommand.
Qed.

(** Only a successful AUTH sets the authenticated flag: when a command
    line turns the flag on, the line was an AUTH command with a supported
    mechanism, sent in the state MAIL or AUTH with no AUTH error
    scheduled, the handler produced a user name, the authenticator
    accepted it as an active user, and the session is left in the state
    MAIL. *)
Theorem authenticated_by_auth_only (x : Extern) (ln : string) (s : Session) :
  authenticated s = false ->
  authenticated (fst (handleCommand x ln s)) = true ->
  exists cmd mech rest u user,
    ParseCommand ln = Some cmd /\ Name cmd = CmdAUTH
    /\ Args cmd = mech :: rest /\ auth_NewHandler mech = true
    /\ (state s = StateMail \/ state s = StateAuth)
    /\ authErrorResult s = None
    /\ authUsername x = Some u /\ authenticate x u = Some user
    /\ Active user = true
    /\ state (fst (handleCommand x ln s)) = StateMail.
Proof.
  intros Hf Ht.
  destruct (handleCommand_effect x ln s)
    as [C|(cmd & s0 & u & Hp & _ & _ & _ & C0 & E & C)].
  { apply core_fields in C. destruct C as (_ & _ & _ & _ & C & _). congruence. }
  pose proof (core_fields _ _ C) as (Cs & _ & _ & _ & Ca & _).
  pose proof (core_fields _ _ C0) as (C0s & _ & _ & _ & C0a & _).
  assert (A : Name cmd = CmdAUTH
              /\ (state s0 = StateMail \/ state s0 = StateAuth)
              /\ state u = StateMail).
  { rewrite Ca in Ht. rewrite <- C0a in Hf. clear - E Hf Ht.
    destruct E;
      try (destruct (buildEhloResponse_frame (strings_ToLower h)
                       (set_state StateMail (set_heloName h s))) as (caps & adv & B);
           rewrite B in Ht);
      cbn in Ht; try congruence.
    cbn. auto. }
  destruct A as (An & As & At).
  destruct (core_handleCommand x ln s)
    as [D|(cmd' & s2 & Hp' & _ & _ & _ & C2 & D)].
  { apply core_fields in D. destruct D as (_ & _ & _ & _ & D & _). congruence. }
  rewrite Hp in Hp'. injection Hp' as <-.
  assert (Hd : dispatch x cmd s2 = handleAuth x cmd s2).
  { unfold dispatch. rewrite An. reflexivity. }
  rewrite Hd in D.
  pose proof (core_fields _ _ D) as (_ & _ & _ & _ & Da & _).
  pose proof (core_fields _ _ C2) as (_ & _ & _ & _ & C2a & _ & _ & _ & _ & C2p & _).
  destruct (handleAuth_sets_flag x cmd s2) as (mech & rest & nm & user & H1 & H2 & H3 & H4 & H5 & H6);
    [congruence | congruence |].
  exists cmd, mech, rest, nm, user.
  split; [exact Hp|]. split; [exact An|]. split; [exact H1|]. split; [exact H2|].
  split; [rewrite <- C0s; exact As|].
  split.
  { change (p_auth (pending s) = None). rewrite <- C2p. exact H3. }
  split; [exact H4|]. split; [exact H5|]. split; [exact H6|].
  congruence.
Qed.

End Authentication.

(* ------------------------------------------------------------------ *)
(** ** The argument list is never indexed out of range *)

Section NoPanic.
Context {L : GoStd}.

Lemma flushResponses_no_panic s : snd (flushResponses s) <> Some Panic.
Proof.
  unfold flushResponses. destruct (responseQueue s); [discriminate|].
  destruct (writeAll _ _) as [c1 ok]. destruct ok; discriminate.
Qed.

Lemma writeResponse_frame_np r s :
  exists c q e,
    writeResponse r s = (set_responseQueue q (set_conn c s), e) /\ e <> Some Panic.
Proof.
  destruct (writeResponse_frame r s) as (c & q & e & F).
  exists c, q, e. split; [exact F|].
  assert (H : snd (writeResponse r s) <> Some Panic).
  { unfold writeResponse. pose proof (flushResponses_no_panic s) as Fl.
    repeat match goal with
           | |- context [if ?b then _ else _] => destruct b
           | |- context [let (_, _) := ?p in _] => destruct p
           | |- context [match ?p with _ => _ end] => destruct p
           end; cbn in *; try discriminate; assumption. }
  rewrite F in H. exact H.
Qed.

End NoPanic.

Ltac exec_np_step :=
  first
    [ match goal with
      | |- context [writeResponse ?r ?t] =>
          let c := fresh "c" in
          let q := fresh "q" in
          let e := fresh "e" in
          let F := fresh "F" in
          let N := fresh "N" in
          destruct (writeResponse_frame_np r t) as (c & q & e & F & N);
          rewrite F; clear F; cbv beta iota
      end
    | match goal with
      | |- context [storeMessage ?x ?m ?t] =>
          let l := fresh "l" in
          let e := fresh "e" in
          let F := fresh "F" in
          destruct (storeMessage_frame x m t) as (l & e & F);
          rewrite F; clear F; cbv beta iota
      end
    | match goal with
      | |- context [if ?b then _ else _] => destruct b eqn:?
      end
    | match goal with
      | |- context [match ?x with _ => _ end] => destruct x eqn:?
      end ].

Ltac exec_np :=
  cbv zeta; repeat exec_np_step; cbn [snd];
  first [ assumption | discriminate | congruence ].

Section NoPanicHandlers.
Context {L : GoStd}.

Lemma ValidateArgs_nonempty cmd :
  ValidateArgs cmd = None ->
  In (Name cmd) [CmdHELO; CmdEHLO; CmdAUTH; CmdMAIL; CmdRCPT; CmdBDAT; CmdVRFY] ->
  Args cmd <> [].
Proof.
  unfold ValidateArgs. intros H Hn A. rewrite A in H.
  simpl in Hn.
  repeat (destruct Hn as [Hn|Hn]; [rewrite <- Hn in H; discriminate H|]).
  destruct Hn.
Qed.

Lemma dispatch_no_panic x cmd s :
  readDotBytes x <> Err Panic -> (forall n, readBDATChunk x n <> Err Panic) ->
  ValidateArgs cmd = None ->
  snd (dispatch x cmd s) <> Some Panic.
Proof.
  intros Hd Hb Hv. pose proof (ValidateArgs_nonempty cmd Hv) as Hne.
  unfold dispatch, tryExtensionHandlers. cbv zeta.
  repeat match goal with
         | |- context [if String.eqb ?a ?b then _ else _] =>
             let E := fresh "E" in
             destruct (String.eqb a b) eqn:E;
             [apply String.eqb_eq in E|]
         end.
  - destruct (Args cmd) as [|a0 rest] eqn:A; [exfalso; apply Hne; simpl; auto|].
    unfold handleHelo, handleEhlo. rewrite A.
    repeat match goal with
           | |- context [buildEhloResponse ?h ?t] => destruct (buildEhloResponse h t)
           end; exec_np.
  - destruct (Args cmd) as [|a0 rest] eqn:A; [exfalso; apply Hne; simpl; auto|].
    unfold handleHelo, handleEhlo. rewrite A.
    repeat match goal with
           | |- context [buildEhloResponse ?h ?t] => destruct (buildEhloResponse h t)
           end; exec_np.
  - destruct (Args cmd) as [|a0 rest] eqn:A; [exfalso; apply Hne; simpl; auto 10|].
    unfold handleAuth, auth_Authenticate. rewrite A. exec_np.
  - destruct (Args cmd) as [|a0 rest] eqn:A; [exfalso; apply Hne; simpl; auto 10|].
    unfold handleMail. rewrite A. exec_np.
  - destruct (Args cmd) as [|a0 rest] eqn:A; [exfalso; apply Hne; simpl; auto 10|].
    unfold handleRcpt. rewrite A. exec_np.
  - unfold handleData, handleStorageError, readMessageContent.
    destruct (readDotBytes x) as [d|err] eqn:R; exec_np.
  - destruct (Args cmd) as [|a0 rest] eqn:A; [exfalso; apply Hne; simpl; auto 10|].
    unfold handleBdat, handleStorageError. rewrite A.
    cbv zeta. repeat exec_np_step; cbn [snd];
      first [ assumption | discriminate
            | match goal with
              | H : readBDATChunk x ?n = Err ?e |- _ =>
                  intros X; injection X as ->; exact (Hb n H)
              end ].
  - unfold handleRset. exec_np.
  - unfold handleNoop. exec_np.
  - unfold handleStartTLS. exec_np.
  - unfold handleQuit. exec_np.
  - unfold handleVrfy. exec_np.
  - exec_np.
Qed.

End NoPanicHandlers.

Section NoPanicLoop.
Context {L : GoStd}.

Lemma handleCommand_no_panic x ln s :
  env_sound x -> snd (handleCommand x ln s) <> Some Panic.
Proof.
  intros [Hd Hb]. unfold handleCommand, parseAndLogCommand.
  destruct (ParseCommand ln) as [cmd|]; [|exec_np].
  destruct (IsValid cmd); cbn [negb]; [|exec_np].
  destruct (IsAllowedInState cmd (state s)); cbn [negb]; [|exec_np].
  destruct (ValidateArgs cmd) eqn:Hv; [exec_np|].
  unfold breakPipelining.
  pose proof (flushResponses_no_panic s) as Fl.
  assert (Fin : forall t, snd (finishCommand cmd (dispatch x cmd t)) <> Some Panic).
  { intros t. pose proof (dispatch_no_panic x cmd t Hd Hb Hv) as D.
    destruct (dispatch x cmd t) as [t1 e1]. cbn [snd] in D.
    unfold finishCommand, flushAndReturn.
    pose proof (flushResponses_no_panic t1) as Fl1.
    destruct e1; [|destruct (breaksPipelining (Name cmd))];
      try (destruct (flushResponses t1) as [t2 [e2|]]; cbn [snd] in *; assumption). }
  destruct (breaksPipelining (Name cmd)); [|apply Fin].
  destruct (flushResponses s) as [s1 [e|]]; cbn [snd] in *; [exact Fl|apply Fin].
Qed.

(** No input makes the session index the argument list of a command out
    of range: as long as the readers of the message body report errors of
    their own only, neither the command loop nor [Handle] ends with the
    run-time panic, whatever lines the client sends. *)
Theorem argument_list_never_out_of_range (inputs : list Input) (s : Session) :
  Forall (fun i => env_sound (env i)) inputs ->
  snd (runCommandLoop inputs s) <> Some Panic
  /\ forall c cfg host tls,
       snd (Handle inputs (NewSessionWithHostname c cfg host tls)) <> Some Panic.
Proof.
  intros Hin.
  assert (Loop : forall t, snd (runCommandLoop inputs t) <> Some Panic).
  { induction Hin as [|i rest Hi Hrest IH]; intros t; simpl; [discriminate|].
    destruct (String.eqb _ _); [apply IH|].
    destruct (gostd.len _ >? MaxCommandLength).
    - destruct (writeResponse_frame_np "500 Command too long" t) as (c & q & e & F & N).
      rewrite F. destruct e; [exact N | apply IH].
    - match goal with
      | |- context [handleCommand ?x ?l ?u] =>
          pose proof (handleCommand_no_panic x l u Hi) as C;
          destruct (handleCommand x l u) as [s2 e]
      end.
      cbn [snd] in C.
      destruct e as [[]|]; cbn [snd]; try discriminate; try congruence;
        apply IH. }
  split; [apply Loop|].
  intros c cfg host tls. unfold Handle, setupSessionBehaviourAndGreet.
  set (s0 := NewSessionWithHostname c cfg host tls).
  destruct (DropImmediate (config s0)).
  { pose proof (Loop s0) as Lp. destruct (runCommandLoop inputs s0). exact Lp. }
  destruct (DropDelay (config s0) >? 0).
  { pose proof (Loop s0) as Lp. destruct (runCommandLoop inputs s0). exact Lp. }
  match goal with
  | |- context [writeResponse ?r s0] =>
      destruct (writeResponse_frame_np r s0) as (c1 & q1 & e1 & F & N); rewrite F
  end.
  destruct e1; [exact N|].
  match goal with
  | |- context [runCommandLoop inputs ?t] =>
      pose proof (Loop t) as Lp; destruct (runCommandLoop inputs t)
  end.
  exact Lp.
Qed.

End NoPanicLoop.

(* ------------------------------------------------------------------ *)
(** ** One reply for each command *)

Section OneReply.
Context {L : GoStd}.

Lemma writeResponse_one_reply b r t :
  healthy (conn b) -> io t = io b -> one_reply b (writeResponse r t).
Proof.
  intros Hh Hio. apply io_eq in Hio. destruct Hio as (Hc & Hq & Hp).
  unfold one_reply, writeResponse. rewrite Hp, Hc, Hq.
  destruct (pipeliningMode b); cbn [andb].
  - destruct (isResponse421 r); cbn [negb].
    + destruct (flushResponses t) as [s1 [e|]]; [discriminate|].
      destruct (conn_Write _ _) as [c2 ok]. destruct ok; discriminate.
    + intros _. exists r. unfold io. cbn. rewrite Hc, Hp. reflexivity.
  - rewrite (conn_Write_healthy _ _ Hh). cbn [negb].
    destruct (isResponse421 r); [discriminate|].
    intros _. exists r. unfold io. cbn. rewrite Hq, Hp. reflexivity.
Qed.

Lemma one_reply_error b t e : one_reply b (t, Some e).
Proof. unfold one_reply. discriminate. Qed.

End OneReply.

Ltac one_reply_tac :=
  cbv beta iota zeta;
  lazymatch goal with
  | |- one_reply ?b ?X =>
      lazymatch X with
      | writeResponse ?r ?t =>
          apply writeResponse_one_reply; [assumption | try reflexivity]
      | (?t, Some ?e) => apply one_reply_error
      | if ?c then _ else _ => destruct c eqn:?; one_reply_tac
      | match ?x with _ => _ end => destruct x eqn:?; one_reply_tac
      end
  end.

Section OneReplyHandlers.
Context {L : GoStd}.

Lemma dispatch_one_reply x cmd s :
  healthy (conn s) -> breaksPipelining (Name cmd) = false ->
  one_reply s (dispatch x cmd s).
Proof.
  intros Hh Hb. unfold dispatch, tryExtensionHandlers. cbv zeta.
  unfold breaksPipelining in Hb.
  repeat match goal with
         | |- context [if String.eqb ?a ?b then _ else _] =>
             let E := fresh "E" in
             destruct (String.eqb a b) eqn:E
         end;
    try solve [exfalso;
               repeat match type of Hb with
                      | (if ?c then _ else _) = _ => destruct c eqn:?
                      end; congruence].
  - unfold handleHelo, handleEhlo. one_reply_tac.
    match goal with
    | H : buildEhloResponse ?h ?t = (_, _) |- _ =>
        pose proof (buildEhloResponse_io h t) as B; rewrite H in B; exact B
    end.
  - unfold handleHelo, handleEhlo. one_reply_tac.
    match goal with
    | H : buildEhloResponse ?h ?t = (_, _) |- _ =>
        pose proof (buildEhloResponse_io h t) as B; rewrite H in B; exact B
    end.
  - unfold handleMail. one_reply_tac.
  - unfold handleRcpt. one_reply_tac.
  - unfold handleRset. one_reply_tac.
  - unfold handleNoop. one_reply_tac.
  - unfold handleVrfy. one_reply_tac.
  - one_reply_tac.
Qed.

End OneReplyHandlers.

Section OneReplyCommand.
Context {L : GoStd}.

Lemma flushAndReturn_some e s : snd (flushAndReturn (Some e) s) <> None.
Proof.
  unfold flushAndReturn. destruct (flushResponses s) as [s1 [e1|]]; discriminate.
Qed.

Lemma handleCommand_one_reply x ln s :
  healthy (conn s) ->
  (forall cmd, ParseCommand ln = Some cmd -> breaksPipelining (Name cmd) = false) ->
  one_reply s (handleCommand x ln s).
Proof.
  intros Hh Hnb. unfold handleCommand, parseAndLogCommand.
  assert (W : forall r, one_reply s (writeResponse r s))
    by (intros r; apply writeResponse_one_reply; [exact Hh | reflexivity]).
  destruct (ParseCommand ln) as [cmd|] eqn:Hp.
  2:{ specialize (W "500 Command not recognised").
      destruct (writeResponse _ s) as [s1 [e|]]; exact W. }
  specialize (Hnb cmd eq_refl).
  destruct (IsValid cmd); cbn [negb].
  2:{ specialize (W "500 Command not recognised").
      destruct (writeResponse _ s) as [s1 [e|]]; exact W. }
  destruct (IsAllowedInState cmd (state s)); cbn [negb].
  2:{ match goal with
      | |- context [writeResponse ?r s] =>
          specialize (W r); destruct (writeResponse r s) as [s1 [e|]]; exact W
      end. }
  destruct (ValidateArgs cmd) as [msg|].
  { specialize (W msg). destruct (writeResponse msg s) as [s1 [e|]]; exact W. }
  unfold breakPipelining, finishCommand. rewrite Hnb.
  pose proof (dispatch_one_reply x cmd s Hh Hnb) as D.
  destruct (dispatch x cmd s) as [s1 [e|]]; [|exact D].
  intros H. destruct (flushAndReturn_some e s1 H).
Qed.

(** On a healthy connection a command line that does not break
    pipelining (anything but DATA, BDAT, QUIT, STARTTLS and AUTH) and is
    handled without an error produces exactly one response: appended to
    the queue in pipelining mode, written to the connection at once
    otherwise. *)
Theorem one_reply_for_each_command (x : Extern) (ln : string) (s : Session) :
  healthy (conn s) ->
  (forall cmd, ParseCommand ln = Some cmd -> breaksPipelining (Name cmd) = false) ->
  snd (handleCommand x ln s) = None ->
  let s' := fst (handleCommand x ln s) in
  exists rsp,
    (pipeliningMode s = true ->
     conn s' = conn s /\ responseQueue s' = (responseQueue s ++ [rsp])%list
     /\ pipeliningMode s' = true)
    /\ (pipeliningMode s = false ->
        conn s' = sent [rsp ++ gostd.CRLF] (conn s)
        /\ responseQueue s' = responseQueue s /\ pipeliningMode s' = false).
Proof.
  intros Hh Hnb He s'.
  destruct (handleCommand_one_reply x ln s Hh Hnb He) as (rsp & H).
  exists rsp. fold s' in H. unfold io in H.
  split; intros Hp; rewrite Hp in H; injection H as -> -> ->; auto.
Qed.

End OneReplyCommand.

(* ------------------------------------------------------------------ *)
(** ** Refused lines and QUIT *)

Section Refusals.
Context {L : GoStd}.

Lemma ValidateArgs_message cmd msg :
  ValidateArgs cmd = Some msg -> msg = syntaxError.
Proof.
  unfold ValidateArgs.
  repeat match goal with
         | |- context [if ?c then _ else _] => destruct c
         | |- context [match ?l with [] => _ | _ :: _ => _ end] => destruct l
         end; intros H; inversion H; reflexivity.
Qed.

(** A line that is refused is answered and changes nothing else: an
    empty or unknown command by [500 Command not recognised], a command
    that is not allowed in the current state by [503 Bad sequence - ...]
    naming the command and the state, a command with bad arguments by
    [501 Syntax error in parameters]; writing a response leaves the
    state, the envelope and every other field of the session but the
    connection and the queue as they were. *)
Theorem refused_line_changes_nothing (x : Extern) (ln : string) (s : Session) :
  let unknown := "500 Command not recognised" in
  (ParseCommand ln = None -> handleCommand x ln s = writeResponse unknown s)
  /\ (forall cmd, ParseCommand ln = Some cmd -> IsValid cmd = false ->
        handleCommand x ln s = writeResponse unknown s)
  /\ (forall cmd, ParseCommand ln = Some cmd -> IsValid cmd = true ->
        IsAllowedInState cmd (state s) = false ->
        handleCommand x ln s
        = writeResponse ("503 Bad sequence - " ++ Name cmd ++ " not allowed in "
                         ++ State_String (state s) ++ " state") s)
  /\ (forall cmd msg, ParseCommand ln = Some cmd -> IsValid cmd = true ->
        IsAllowedInState cmd (state s) = true -> ValidateArgs cmd = Some msg ->
        msg = "501 Syntax error in parameters"
        /\ handleCommand x ln s = writeResponse msg s)
  /\ (forall r, core (fst (writeResponse r s)) = core s).
Proof.
  cbv zeta. unfold handleCommand, parseAndLogCommand.
  split; [|split; [|split; [|split]]].
  - intros ->. destruct (writeResponse _ s) as [s1 [e|]]; reflexivity.
  - intros cmd -> ->. cbn [negb]. destruct (writeResponse _ s) as [s1 [e|]]; reflexivity.
  - intros cmd -> -> ->. cbn [negb].
    destruct (writeResponse _ s) as [s1 [e|]]; reflexivity.
  - intros cmd msg -> -> -> Hv. rewrite Hv. cbn [negb].
    split; [exact (ValidateArgs_message cmd msg Hv)|].
    destruct (writeResponse _ s) as [s1 [e|]]; reflexivity.
  - intros r. apply core_writeResponse.
Qed.

Lemma handleQuit_some s : snd (handleQuit s) <> None.
Proof.
  unfold handleQuit.
  repeat match goal with
         | |- context [match ?p with _ => _ end] => destruct p
         end; discriminate.
Qed.

(** A command that breaks pipelining, on a connection that accepts
    writes: its handler runs on the flushed session. *)
Lemma handleCommand_flushed x ln cmd s :
  healthy (conn s) -> ParseCommand ln = Some cmd ->
  breaksPipelining (Name cmd) = true ->
  IsAllowedInState cmd (state s) = true -> ValidateArgs cmd = None ->
  handleCommand x ln s = finishCommand cmd (dispatch x cmd (flushed s)).
Proof.
  intros Hh Hp Hb Ha Hv.
  assert (Hval : IsValid cmd = true).
  { unfold breaksPipelining in Hb. unfold IsValid, cmd_lookup. simpl.
    repeat match type of Hb with
           | (if String.eqb ?a ?b then _ else _) = _ =>
               destruct (String.eqb_spec a b) as [->|]; [reflexivity|]
           end.
    discriminate. }
  unfold handleCommand, parseAndLogCommand.
  rewrite Hp, Hval, Ha, Hv. cbn [negb].
  unfold breakPipelining. rewrite Hb, (flushResponses_healthy s Hh).
  reflexivity.
Qed.

Lemma finishCommand_empty cmd s e :
  responseQueue s = [] -> finishCommand cmd (s, e) = (s, e).
Proof.
  intros Hq. unfold finishCommand, flushAndReturn, flushResponses. rewrite Hq.
  destruct e; [reflexivity|]. destruct (breaksPipelining (Name cmd)); reflexivity.
Qed.

Lemma healthy_sent b c : healthy c -> healthy (sent b c).
Proof. intros [Hc Ha]. split; [reflexivity | exact Ha]. Qed.

Lemma healthy_flushed s : healthy (conn s) -> healthy (conn (flushed s)).
Proof. intros H. cbn. apply healthy_sent. exact H. Qed.

Lemma sent_sent a b c :
  sent b (sent a c) = sent (a ++ b)%list c.
Proof. unfold sent. cbn. rewrite app_assoc. reflexivity. Qed.

(** The reply of a handler that runs on the flushed session. *)
Lemma reply_flushed r s :
  healthy (conn s) -> isResponse421 r = false ->
  forall t, io t = io (flushed s) ->
  writeResponse r t
  = (set_conn (sent (with_crlf (responseQueue s) ++ [(r ++ gostd.CRLF)%string])%list (conn s)) t,
     None).
Proof.
  intros Hh Hr t Hio. apply io_eq in Hio. destruct Hio as (Hc & Hq & Hp).
  rewrite (writeResponse_direct r t); [| rewrite Hc; apply healthy_flushed, Hh
                                       | rewrite Hp; reflexivity | exact Hr].
  rewrite Hc. cbn [conn flushed set_pipeliningMode set_responseQueue set_conn].
  rewrite sent_sent. reflexivity.
Qed.

End Refusals.

Section Quit.
Context {L : GoStd}.

(** A QUIT that is allowed in the current state ends the command loop:
    the lines after it are never read.  With no QUIT error scheduled and
    a healthy connection the queued responses are written, then
    [221 Bye], the queue is empty and the session is in the state QUIT. *)
Theorem quit_ends_the_loop (i : Input) (rest : list Input) (s : Session)
    (cmd : Command) :
  let ln := strings_TrimSpace (line i) in
  ln <> "" -> (gostd.len ln >? MaxCommandLength) = false ->
  ParseCommand ln = Some cmd -> Name cmd = CmdQUIT ->
  IsAllowedInState cmd (state s) = true ->
  runCommandLoop (i :: rest) s = runCommandLoop [i] s
  /\ (quitErrorResult s = None -> healthy (conn s) ->
      let r := runCommandLoop (i :: rest) s in
      snd r = None /\ state (fst r) = StateQuit
      /\ written (conn (fst r))
         = (written (conn s) ++ with_crlf (responseQueue s)
            ++ [("221 Bye" ++ gostd.CRLF)%string])%list
      /\ responseQueue (fst r) = []).
Proof.
  intros ln Hne Hlen Hp Hn Ha.
  assert (Hb : breaksPipelining (Name cmd) = true) by (rewrite Hn; reflexivity).
  assert (Hv : ValidateArgs cmd = None) by (unfold ValidateArgs; rewrite Hn; reflexivity).
  assert (Hd : forall t, dispatch (env i) cmd t = handleQuit t).
  { intros t. unfold dispatch. rewrite Hn. reflexivity. }
  apply String.eqb_neq in Hne.
  split.
  - cbn [runCommandLoop]. fold ln. rewrite Hne, Hlen.
    match goal with
    | |- context [handleCommand ?x ?l ?t] =>
        assert (Hs : snd (handleCommand x l t) <> None);
        [| destruct (handleCommand x l t) as [s2 [[]|]]; cbn [snd] in Hs;
           try reflexivity; congruence ]
    end.
    match goal with
    | |- context [handleCommand ?x ?l ?t] =>
        assert (Hst : state t = state s)
          by (destruct (Pipelining _ && negb _); [destruct (detectPipelining _)|];
              reflexivity);
        generalize dependent t
    end.
    intros t Hst. unfold handleCommand, parseAndLogCommand.
    assert (Hval : IsValid cmd = true) by (unfold IsValid; rewrite Hn; reflexivity).
    rewrite Hp, Hval, Hst, Ha, Hv. cbn [negb].
    unfold breakPipelining. rewrite Hb.
    destruct (flushResponses t) as [t1 [e|]]; [discriminate|].
    rewrite Hd. pose proof (handleQuit_some (set_pipeliningMode false t1)) as Q.
    destruct (handleQuit _) as [t2 [e|]]; [|cbn in Q; congruence].
    apply flushAndReturn_some.
  - intros Hq Hh r. subst r. cbn [runCommandLoop]. fold ln. rewrite Hne, Hlen.
    match goal with
    | |- context [handleCommand ?x ?l ?t] =>
        assert (Ht : core t = core s /\ conn t = conn s
                     /\ responseQueue t = responseQueue s)
          by (destruct (Pipelining _ && negb _); [destruct (detectPipelining _)|];
              repeat split);
        generalize dependent t
    end.
    intros t (Ct & Cc & Cq).
    pose proof (core_fields _ _ Ct) as (Cs & _ & _ & _ & _ & _ & _ & _ & _ & Cp & _).
    rewrite (handleCommand_flushed (env i) ln cmd t);
      [| rewrite Cc; exact Hh | exact Hp | exact Hb | rewrite Cs; exact Ha | exact Hv].
    rewrite Hd. unfold handleQuit.
    assert (Hq' : quitErrorResult (flushed t) = None).
    { change (p_quit (pending t) = None). rewrite Cp. exact Hq. }
    rewrite Hq'.
    rewrite (reply_flushed "221 Bye" t); [| rewrite Cc; exact Hh | reflexivity | reflexivity].
    rewrite finishCommand_empty by reflexivity.
    cbn. rewrite Cc, Cq. repeat split.
Qed.

End Quit.

(* ------------------------------------------------------------------ *)
(** ** DATA *)

Section Data.
Context {L : GoStd}.

Lemma storeMessage_result x content s :
  exists msg,
    storeMessage x content s
    = (set_storeLog (storeLog s ++ [msg])%list s, store x msg)
    /\ From msg = mailFrom s /\ To msg = rcptTo s /\ Content msg = content.
Proof.
  unfold storeMessage.
  destruct (mail_ReadMessage content) as [[hdr body]|]; eexists;
    (split; [reflexivity|]); repeat split.
Qed.

(** [handleData] on the flushed session, up to the call of the store. *)
Lemma handleData_stored x s data :
  state s = StateRcpt -> dataErrorResult s = None -> healthy (conn s) ->
  readDotBytes x = Ok data -> gostd.len data <= getMaxMessageSize s ->
  exists msg,
    From msg = mailFrom s /\ To msg = rcptTo s /\ Content msg = data
    /\ let t :=
         set_storeLog (storeLog s ++ [msg])%list
           (set_conn
              (sent (with_crlf (responseQueue s)
                     ++ [("354 End data with <CR><LF>.<CR><LF>" ++ gostd.CRLF)%string])%list
                    (conn s))
              (set_state StateData (flushed s))) in
       handleData x (flushed s)
       = match store x msg with
         | Some err => handleStorageError err t
         | None =>
             writeResponse "250 OK Message accepted for delivery"
               (resetSessionState t)
         end.
Proof.
  intros Hs He Hh Hd Hlen.
  set (t0 := set_conn
              (sent (with_crlf (responseQueue s)
                     ++ [("354 End data with <CR><LF>.<CR><LF>" ++ gostd.CRLF)%string])%list
                    (conn s))
              (set_state StateData (flushed s))).
  destruct (storeMessage_result x data t0) as (msg & E & F1 & F2 & F3).
  exists msg. split; [exact F1|]. split; [exact F2|]. split; [exact F3|].
  cbv zeta. unfold handleData.
  assert (state (flushed s) = StateRcpt) as -> by exact Hs.
  assert (dataErrorResult (flushed s) = None) as -> by exact He.
  cbn [State_eqb negb].
  rewrite (reply_flushed "354 End data with <CR><LF>.<CR><LF>" s Hh eq_refl
             (set_state StateData (flushed s)) eq_refl).
  fold t0. unfold readMessageContent. rewrite Hd.
  assert (getMaxMessageSize t0 = getMaxMessageSize s) as -> by reflexivity.
  assert ((gostd.len data >? getMaxMessageSize s) = false) as ->
    by (rewrite Z.gtb_ltb; apply Z.ltb_ge; exact Hlen).
  rewrite E. destruct (store x msg); reflexivity.
Qed.

(** DATA in the state RCPT, with no DATA error scheduled, a body within
    the size limit and a store that accepts it: the server writes the
    queued responses, [354] and [250 OK Message accepted for delivery],
    hands the store one message with the sender, the recipients and the
    body, and resets the session to the state MAIL with an empty envelope
    and no scheduled errors. *)
Theorem data_stores_the_envelope (x : Extern) (ln : string) (args : list string)
    (s : Session) (data : string) :
  ParseCommand ln = Some {| Name := CmdDATA; Args := args |} ->
  state s = StateRcpt -> dataErrorResult s = None -> healthy (conn s) ->
  readDotBytes x = Ok data -> gostd.len data <= getMaxMessageSize s ->
  (forall m, store x m = None) ->
  let r := handleCommand x ln s in
  snd r = None
  /\ state (fst r) = StateMail /\ mailFrom (fst r) = "" /\ rcptTo (fst r) = []
  /\ pending (fst r) = noPending
  /\ written (conn (fst r))
     = (written (conn s) ++ with_crlf (responseQueue s)
        ++ [("354 End data with <CR><LF>.<CR><LF>" ++ gostd.CRLF)%string;
            ("250 OK Message accepted for delivery" ++ gostd.CRLF)%string])%list
  /\ exists msg,
       storeLog (fst r) = (storeLog s ++ [msg])%list
       /\ From msg = mailFrom s /\ To msg = rcptTo s /\ Content msg = data.
Proof.
  intros Hp Hs He Hh Hd Hlen Hst r. subst r.
  set (cmd := {| Name := CmdDATA; Args := args |}) in *.
  rewrite (handleCommand_flushed x ln cmd s Hh Hp eq_refl);
    [| rewrite Hs; reflexivity | reflexivity].
  assert (dispatch x cmd (flushed s) = handleData x (flushed s)) as -> by reflexivity.
  destruct (handleData_stored x s data Hs He Hh Hd Hlen) as (msg & F1 & F2 & F3 & E).
  cbv zeta in E. rewrite E, (Hst msg).
  rewrite writeResponse_direct;
    [| cbn; apply healthy_sent, Hh | reflexivity | reflexivity].
  rewrite finishCommand_empty by reflexivity.
  cbn. rewrite <- !app_assoc. cbn.
  repeat (split; [reflexivity|]).
  exists msg. auto.
Qed.

(** When the store refuses the message of DATA, the reply is 550 for an
    error text containing [not active], 452 for one containing [quota]
    and 450 otherwise; the session is not reset: it stays in the state
    DATA with its sender, recipients and scheduled errors, and every
    further command leaves it in DATA or takes it to QUIT. *)
Theorem storage_failure_keeps_the_transaction (x : Extern) (ln : string)
    (args : list string) (s : Session) (data err : string) :
  ParseCommand ln = Some {| Name := CmdDATA; Args := args |} ->
  state s = StateRcpt -> dataErrorResult s = None -> healthy (conn s) ->
  readDotBytes x = Ok data -> gostd.len data <= getMaxMessageSize s ->
  (forall m, store x m = Some err) ->
  let r := handleCommand x ln s in
  let reply :=
    if gostd.Contains err "not active"
    then "550 Requested action not taken: mailbox unavailable"
    else if gostd.Contains err "quota"
    then "452 Requested action not taken: insufficient system storage"
    else "450 Requested action not taken: mailbox temporarily unavailable" in
  snd r = None
  /\ state (fst r) = StateData
  /\ mailFrom (fst r) = mailFrom s /\ rcptTo (fst r) = rcptTo s
  /\ pending (fst r) = pending s
  /\ written (conn (fst r))
     = (written (conn s) ++ with_crlf (responseQueue s)
        ++ [("354 End data with <CR><LF>.<CR><LF>" ++ gostd.CRLF)%string;
            (reply ++ gostd.CRLF)%string])%list
  /\ (forall x' ln',
        let s' := fst (handleCommand x' ln' (fst r)) in
        state s' = StateData \/ state s' = StateQuit).
Proof.
  intros Hp Hs He Hh Hd Hlen Hst r reply. subst r.
  set (cmd := {| Name := CmdDATA; Args := args |}) in *.
  rewrite (handleCommand_flushed x ln cmd s Hh Hp eq_refl);
    [| rewrite Hs; reflexivity | reflexivity].
  assert (dispatch x cmd (flushed s) = handleData x (flushed s)) as -> by reflexivity.
  destruct (handleData_stored x s data Hs He Hh Hd Hlen) as (msg & F1 & F2 & F3 & E).
  cbv zeta in E. rewrite E, (Hst msg). unfold handleStorageError.
  assert (W : forall rp, isResponse421 rp = false -> reply = rp ->
    let r := finishCommand cmd
      (writeResponse rp
         (set_storeLog (storeLog s ++ [msg])
            (set_conn
               (sent
                  (with_crlf (responseQueue s) ++
                   [("354 End data with <CR><LF>.<CR><LF>" ++ gostd.CRLF)%string])
                  (conn s)) (set_state StateData (flushed s))))) in
    snd r = None /\ state (fst r) = StateData
    /\ mailFrom (fst r) = mailFrom s /\ rcptTo (fst r) = rcptTo s
    /\ pending (fst r) = pending s
    /\ written (conn (fst r))
       = (written (conn s) ++ with_crlf (responseQueue s)
          ++ [("354 End data with <CR><LF>.<CR><LF>" ++ gostd.CRLF)%string;
              (reply ++ gostd.CRLF)%string])%list
    /\ (forall x' ln',
          let s' := fst (handleCommand x' ln' (fst r)) in
          state s' = StateData \/ state s' = StateQuit)).
  { intros rp Hrp ->. cbv zeta.
    rewrite writeResponse_direct;
      [| cbn; apply healthy_sent, Hh | reflexivity | exact Hrp].
    rewrite finishCommand_empty by reflexivity.
    cbn [fst snd]. split; [reflexivity|]. split; [reflexivity|].
    split; [reflexivity|]. split; [reflexivity|]. split; [reflexivity|].
    split; [cbn; rewrite <- !app_assoc; reflexivity|].
    intros x' ln'.
    match goal with
    | |- context [handleCommand x' ln' ?t] =>
        pose proof (handleCommand_next_state x' ln' t) as St
    end.
    cbn in St. destruct St as [St|[St|[]]]; [left|right]; symmetry; exact St. }
  subst reply.
  destruct (gostd.Contains err "not active"); [apply W; reflexivity|].
  destruct (gostd.Contains err "quota"); apply W; reflexivity.
Qed.

End Data.

(* ------------------------------------------------------------------ *)
(** ** BDAT *)

Section Bdat.
Context {L : GoStd}.

Lemma wrap64_small (z : Z) : - 2 ^ 63 <= z < 2 ^ 63 -> wrap64 z = z.
Proof.
  intros H. unfold wrap64. rewrite Z.mod_small; lia.
Qed.

Lemma wrap64_over (z : Z) : 2 ^ 63 <= z < 2 ^ 63 + 2 ^ 64 -> wrap64 z = z - 2 ^ 64.
Proof.
  intros H. unfold wrap64.
  replace (z + 2 ^ 63) with ((z - 2 ^ 63) + 1 * 2 ^ 64) by lia.
  rewrite Z_mod_plus_full, Z.mod_small; lia.
Qed.

(** [handleBdat] up to the size check, for a well-formed chunk size. *)
Lemma handleBdat_checked x cmd s a0 more n :
  state s = StateRcpt \/ state s = StateBdat ->
  Args cmd = a0 :: more -> gostd.Atoi a0 = Some n -> 0 <= n ->
  let last := match more with a1 :: _ => strings_EqualFold a1 "LAST" | [] => false end in
  dataErrorResult s = None \/ last = false ->
  gostd.len (bdatBuffer s) + n < 2 ^ 63 ->
  handleBdat x cmd s
  = if gostd.len (bdatBuffer s) + n >? getMaxMessageSize s then
      writeResponse ("552 Message size exceeds fixed maximum of "
                     ++ gostd.itoa (getMaxMessageSize s) ++ " bytes") s
    else
      match readBDATChunk x n with
      | Err err => (s, Some err)
      | Ok chunk =>
          let s1 := set_bdatBuffer (bdatBuffer s ++ chunk) s in
          if last then
            match storeMessage x (bdatBuffer s ++ chunk) s1 with
            | (s2, Some err) => handleStorageError err s2
            | (s2, None) =>
                writeResponse "250 OK Message accepted for delivery"
                  (resetSessionState (set_bdatBuffer "" s2))
            end
          else writeResponse "250 OK" (set_state StateBdat s1)
      end.
Proof.
  intros Hs Ha Hn Hpos last Hl Hov. unfold handleBdat.
  assert (negb (State_eqb (state s) StateRcpt || State_eqb (state s) StateBdat) = false)
    as -> by (destruct Hs as [-> | ->]; reflexivity).
  rewrite Ha, Hn.
  assert ((n <? 0) = false) as -> by (apply Z.ltb_ge; exact Hpos).
  fold last.
  assert (Hlen : 0 <= gostd.len (bdatBuffer s)) by (unfold gostd.len; lia).
  rewrite wrap64_small by lia.
  destruct Hl as [Hl | Hl]; rewrite Hl; [|destruct (dataErrorResult s)]; reflexivity.
Qed.

Lemma append_assoc (a b c : string) : ((a ++ b) ++ c = a ++ (b ++ c))%string.
Proof. induction a as [|ch a IH]; cbn; [reflexivity | rewrite IH; reflexivity]. Qed.

Lemma length_len (a b : string) :
  gostd.len (a ++ b) = gostd.len a + gostd.len b.
Proof. unfold gostd.len. rewrite length_append. lia. Qed.





(** A BDAT chunk followed by a BDAT LAST chunk, both within the size
    limit: the first is answered [250 OK] and buffered in the state BDAT;
    the second completes the message, whose content is the buffer
    followed by both chunks in order, stored with the sender and the
    recipients of the session; the session is then reset to the state
    MAIL with an empty buffer and envelope. *)
Theorem bdat_chunks_are_concatenated (x1 x2 : Extern) (ln1 ln2 a1 a2 l : string)
    (n1 n2 : Z) (c1 c2 : string) (s : Session) :
  healthy (conn s) -> state s = StateRcpt \/ state s = StateBdat ->
  dataErrorResult s = None -> getMaxMessageSize s < 2 ^ 63 ->
  ParseCommand ln1 = Some {| Name := CmdBDAT; Args := [a1] |} ->
  gostd.Atoi a1 = Some n1 -> 0 <= n1 ->
  readBDATChunk x1 n1 = Ok c1 -> gostd.len c1 = n1 ->
  ParseCommand ln2 = Some {| Name := CmdBDAT; Args := [a2; l] |} ->
  strings_EqualFold l "LAST" = true ->
  gostd.Atoi a2 = Some n2 -> 0 <= n2 ->
  readBDATChunk x2 n2 = Ok c2 -> (forall m, store x2 m = None) ->
  gostd.len (bdatBuffer s) + n1 + n2 <= getMaxMessageSize s ->
  let r1 := handleCommand x1 ln1 s in
  let r2 := handleCommand x2 ln2 (fst r1) in
  snd r1 = None /\ state (fst r1) = StateBdat
  /\ bdatBuffer (fst r1) = bdatBuffer s ++ c1
  /\ snd r2 = None /\ state (fst r2) = StateMail /\ bdatBuffer (fst r2) = ""
  /\ mailFrom (fst r2) = "" /\ rcptTo (fst r2) = []
  /\ written (conn (fst r2))
     = (written (conn s) ++ with_crlf (responseQueue s)
        ++ [("250 OK" ++ gostd.CRLF)%string;
            ("250 OK Message accepted for delivery" ++ gostd.CRLF)%string])%list
  /\ exists msg,
       storeLog (fst r2) = (storeLog s ++ [msg])%list
       /\ Content msg = bdatBuffer s ++ c1 ++ c2
       /\ From msg = mailFrom s /\ To msg = rcptTo s.
Proof.
  intros Hh Hs He Hmax Hp1 Ha1 Hn1 Hc1 Hl1 Hp2 Hlast Ha2 Hn2 Hc2 Hst Hsize r1 r2.
  set (cmd1 := {| Name := CmdBDAT; Args := [a1] |}) in *.
  set (cmd2 := {| Name := CmdBDAT; Args := [a2; l] |}) in *.
  assert (Hlen : 0 <= gostd.len (bdatBuffer s)) by (unfold gostd.len; lia).
  (* the first chunk *)
  assert (E1 : r1 = (set_conn (sent (with_crlf (responseQueue s)
                                     ++ [("250 OK" ++ gostd.CRLF)%string])%list (conn s))
                       (set_state StateBdat
                          (set_bdatBuffer (bdatBuffer s ++ c1) (flushed s))), None)).
  { subst r1.
    rewrite (handleCommand_flushed x1 ln1 cmd1 s Hh Hp1 eq_refl);
      [| unfold IsAllowedInState; destruct Hs as [-> | ->]; reflexivity | reflexivity].
    assert (dispatch x1 cmd1 (flushed s) = handleBdat x1 cmd1 (flushed s)) as ->
      by reflexivity.
    rewrite (handleBdat_checked x1 cmd1 (flushed s) a1 [] n1 Hs eq_refl Ha1 Hn1
               (or_intror eq_refl));
      [| change (gostd.len (bdatBuffer s) + n1 < 2 ^ 63); lia].
    assert (bdatBuffer (flushed s) = bdatBuffer s) as -> by reflexivity.
    assert (getMaxMessageSize (flushed s) = getMaxMessageSize s) as -> by reflexivity.
    assert ((gostd.len (bdatBuffer s) + n1 >? getMaxMessageSize s) = false) as ->
      by (rewrite Z.gtb_ltb; apply Z.ltb_ge; lia).
    rewrite Hc1. cbv zeta.
    rewrite (reply_flushed "250 OK" s Hh eq_refl
               (set_state StateBdat (set_bdatBuffer (bdatBuffer s ++ c1) (flushed s)))
               eq_refl).
    rewrite finishCommand_empty by reflexivity. reflexivity. }
  set (s1 := fst r1) in *.
  assert (F1 : s1 = set_conn (sent (with_crlf (responseQueue s)
                                    ++ [("250 OK" ++ gostd.CRLF)%string])%list (conn s))
                      (set_state StateBdat
                         (set_bdatBuffer (bdatBuffer s ++ c1) (flushed s))))
    by (subst s1; rewrite E1; reflexivity).
  assert (Hh1 : healthy (conn s1)) by (rewrite F1; cbn; apply healthy_sent, Hh).
  assert (Hq1 : responseQueue s1 = []) by (rewrite F1; reflexivity).
  assert (Hb1 : bdatBuffer s1 = bdatBuffer s ++ c1) by (rewrite F1; reflexivity).
  assert (Hs1 : state s1 = StateBdat) by (rewrite F1; reflexivity).
  assert (Hm1 : getMaxMessageSize s1 = getMaxMessageSize s) by (rewrite F1; reflexivity).
  (* the last chunk *)
  assert (Hv2 : ValidateArgs cmd2 = None).
  { unfold ValidateArgs. cbn. rewrite Hlast. reflexivity. }
  destruct (storeMessage_result x2 (bdatBuffer s1 ++ c2)
              (set_bdatBuffer (bdatBuffer s1 ++ c2) (flushed s1)))
    as (msg & Est & G1 & G2 & G3).
  assert (E2 : r2 = (set_conn (sent [("250 OK Message accepted for delivery"
                                      ++ gostd.CRLF)%string] (conn s1))
                       (resetSessionState
                          (set_bdatBuffer ""
                             (set_storeLog (storeLog s1 ++ [msg])%list
                                (set_bdatBuffer (bdatBuffer s1 ++ c2) (flushed s1))))),
                     None)).
  { subst r2.
    rewrite (handleCommand_flushed x2 ln2 cmd2 s1 Hh1 Hp2 eq_refl);
      [| unfold IsAllowedInState; rewrite Hs1; reflexivity | exact Hv2].
    assert (dispatch x2 cmd2 (flushed s1) = handleBdat x2 cmd2 (flushed s1)) as ->
      by reflexivity.
    rewrite (handleBdat_checked x2 cmd2 (flushed s1) a2 [l] n2
               (or_intror Hs1) eq_refl Ha2 Hn2);
      [| left; rewrite F1; exact He
       | change (gostd.len (bdatBuffer s1) + n2 < 2 ^ 63);
         rewrite Hb1, length_len; lia ].
    assert (bdatBuffer (flushed s1) = bdatBuffer s1) as -> by reflexivity.
    assert (getMaxMessageSize (flushed s1) = getMaxMessageSize s1) as -> by reflexivity.
    assert ((gostd.len (bdatBuffer s1) + n2 >? getMaxMessageSize s1) = false) as ->
      by (rewrite Z.gtb_ltb; apply Z.ltb_ge; rewrite Hm1, Hb1, length_len; lia).
    rewrite Hc2, Hlast. cbv zeta. rewrite Est, (Hst msg).
    rewrite (reply_flushed "250 OK Message accepted for delivery" s1 Hh1 eq_refl
               (resetSessionState
                  (set_bdatBuffer ""
                     (set_storeLog (storeLog s1 ++ [msg])%list
                        (set_bdatBuffer (bdatBuffer s1 ++ c2) (flushed s1)))))
               eq_refl).
    rewrite finishCommand_empty by reflexivity.
    rewrite Hq1. reflexivity. }
  rewrite E1 in *. cbn [snd].
  split; [reflexivity|]. split; [exact Hs1|]. split; [exact Hb1|].
  rewrite E2. cbn [fst snd].
  split; [reflexivity|]. split; [reflexivity|]. split; [reflexivity|].
  split; [reflexivity|]. split; [reflexivity|].
  split.
  { cbn. rewrite F1. cbn. rewrite <- !app_assoc. reflexivity. }
  exists msg. split; [rewrite F1; reflexivity|].
  split; [rewrite G3, Hb1, append_assoc; reflexivity|].
  split; [rewrite G1, F1; reflexivity | rewrite G2, F1; reflexivity].
Qed.

End Bdat.

(* ------------------------------------------------------------------ *)
(** ** The EHLO response *)

Section Ehlo.
Context {L : GoStd}.

Lemma parseAndClampSize_range parts v :
  parseAndClampSize parts = (v, true) -> advertisedSizeMin <= v <= advertisedSizeMax.
Proof.
  unfold advertisedSizeMin, advertisedSizeMax.
  induction parts as [|p rest IH]; cbn [parseAndClampSize]; [discriminate|].
  destruct (sizeRegex p) as [m|]; [|exact IH].
  destruct (gostd.Atoi m) as [n|]; [|exact IH].
  destruct (Z.leb_spec n 0); [exact IH|].
  unfold advertisedSizeMin, advertisedSizeMax.
  destruct (Z.ltb_spec n 1000); [intros E; inversion E; lia|].
  destruct (n >? 10000000) eqn:G; intros E; inversion E; subst; [lia|].
  rewrite Z.gtb_ltb in G. apply Z.ltb_ge in G. lia.
Qed.

Lemma In_append1 (x y : string) (l : list string) :
  In x (append1 l y) <-> In x l \/ x = y.
Proof.
  unfold append1. rewrite in_app_iff. cbn. intuition congruence.
Qed.

Lemma removelast_append1 (l : list string) (y : string) :
  removelast (append1 l y) = l.
Proof. unfold append1. apply removelast_last. Qed.

Lemma last_append1 (l : list string) (y d : string) : last (append1 l y) d = y.
Proof. unfold append1. apply last_last. Qed.

End Ehlo.

Section EhloResponse.
Context {L : GoStd}.

Lemma In_opt (x : string) (b : bool) (ln : string) :
  In x (opt b ln) <-> b = true /\ x = ln.
Proof. destruct b; cbn; intuition congruence. Qed.

(** [addStandardCapabilities] as one expression. *)
Lemma addStandardCapabilities_eq (response parts : list string) (s : Session) :
  let auth := negb (hasCapability parts "noauth")
              && negb (String.eqb (getAuthMechanisms parts) "") in
  let e8 := negb (hasCapability parts "no8bit") in
  let sz := negb (hasCapability parts "nosize") in
  let pl := negb (hasCapability parts "nopipelining") in
  let st := negb (hasCapability parts "nostarttls") && HasTLS (config s) in
  let ch := negb (hasCapability parts "nochunking") in
  let u8 := negb (hasCapability parts "nosmtputf8") in
  let en := negb (hasCapability parts "noenhancedstatuscodes") in
  let parsed := sz && snd (parseAndClampSize parts) in
  addStandardCapabilities response parts s
  = (set_capabilities
       {| Size := sz; Pipelining := pl; EnhancedStatusCodes := en; SMTPUTF8 := u8;
          Chunking := ch; STARTTLS := st; EightBitMIME := e8 |}
       (set_advertisedSize
          (if parsed then fst (parseAndClampSize parts) else advertisedSize s) s),
     (response
      ++ opt auth ("250-AUTH " ++ getAuthMechanisms parts)
      ++ opt e8 "250-8BITMIME"
      ++ opt sz ("250-SIZE "
                 ++ gostd.itoa (if parsed then fst (parseAndClampSize parts)
                                else MaxMessageSize))
      ++ opt pl "250-PIPELINING"
      ++ opt st "250-STARTTLS"
      ++ opt ch "250-CHUNKING"
      ++ opt u8 "250-SMTPUTF8"
      ++ opt en "250-ENHANCEDSTATUSCODES")%list).
Proof.
  cbv zeta. unfold addStandardCapabilities. cbv zeta.
  change (gostd.itoa Code250) with "250".
  destruct (parseAndClampSize parts) as [v ok].
  generalize (hasCapability parts "noauth") (String.eqb (getAuthMechanisms parts) "")
    (hasCapability parts "no8bit") (hasCapability parts "nosize")
    (hasCapability parts "nopipelining") (hasCapability parts "nostarttls")
    (HasTLS (config s)) (hasCapability parts "nochunking")
    (hasCapability parts "nosmtputf8") (hasCapability parts "noenhancedstatuscodes").
  intros b1 b2 b3 b4 b5 b6 b7 b8 b9 b10.
  destruct b1, b2, b3, b4, ok, b5, b6, b7, b8, b9, b10;
    cbn [negb andb fst snd]; unfold append1, opt; rewrite <- ?app_assoc;
    cbn [app]; rewrite ?app_nil_r; reflexivity.
Qed.

Ltac decide_line :=
  repeat match goal with
         | H : _ \/ _ |- _ => destruct H
         | H : _ /\ _ |- _ => destruct H
         | H : False |- _ => destruct H
         | H : @eq string _ _ |- _ => cbn in H; (discriminate H || clear H)
         end.

(** The EHLO response starts with [250-badsmtp.test], ends with
    [250 OK], and every line before the last starts with [250-].  Each
    capability line is present exactly when the session has recorded the
    capability as enabled; a SIZE line is present exactly when SIZE is
    enabled, and it announces the limit the session enforces whenever no
    size was advertised before. *)
Theorem ehlo_lines_match_capabilities (h : string) (s : Session) :
  let r := buildEhloResponse h s in
  let caps := capabilities (fst r) in
  let resp := snd r in
  hd "" resp = "250-badsmtp.test" /\ last resp "" = "250 OK"
  /\ (forall ln, In ln (removelast resp) -> gostd.HasPrefix ln "250-" = true)
  /\ (In "250-8BITMIME" resp <-> EightBitMIME caps = true)
  /\ (In "250-PIPELINING" resp <-> Pipelining caps = true)
  /\ (In "250-STARTTLS" resp <-> STARTTLS caps = true)
  /\ (In "250-CHUNKING" resp <-> Chunking caps = true)
  /\ (In "250-SMTPUTF8" resp <-> SMTPUTF8 caps = true)
  /\ (In "250-ENHANCEDSTATUSCODES" resp <-> EnhancedStatusCodes caps = true)
  /\ ((exists n, In ("250-SIZE " ++ gostd.itoa n) resp) <-> Size caps = true)
  /\ (Size caps = true -> advertisedSize s <= 0 ->
      In ("250-SIZE " ++ gostd.itoa (getMaxMessageSize (fst r))) resp).
Proof.
  cbv zeta. unfold buildEhloResponse.
  change (gostd.itoa Code250) with "250". cbn [append].
  match goal with
  | |- context [addStandardCapabilities ?r0 ?p s] =>
      pose proof (addStandardCapabilities_eq r0 p s) as E; cbv zeta in E;
      rewrite E; clear E; generalize p
  end.
  intros parts. cbn [fst snd capabilities set_capabilities set_advertisedSize
                     Size Pipelining EnhancedStatusCodes SMTPUTF8 Chunking STARTTLS
                     EightBitMIME advertisedSize].
  rewrite removelast_append1, last_append1.
  split; [reflexivity|]. split; [reflexivity|].
  split.
  { intros ln. rewrite !in_app_iff, !In_opt. cbn [In].
    intros H.
    repeat match goal with
           | H : _ \/ _ |- _ => destruct H
           | H : _ /\ _ |- _ => destruct H
           | H : False |- _ => destruct H
           end; subst; reflexivity. }
  repeat (split;
          [ rewrite In_append1, !in_app_iff, !In_opt; cbn [In];
            split; [intros H; decide_line; assumption | intros H; rewrite H; auto 20]
          | ]).
  split.
  - split.
    + intros (n & H). revert H.
      rewrite In_append1, !in_app_iff, !In_opt. cbn [In]. intros H.
      repeat match goal with
             | H : _ \/ _ |- _ => destruct H
             | H : _ /\ _ |- _ => destruct H
             | H : False |- _ => destruct H
             end; try assumption; cbn in *; discriminate.
    + intros H. rewrite H. cbn [andb opt].
      eexists. rewrite In_append1, !in_app_iff. cbn [In]. left. right. right. right.
      left. left. reflexivity.
  - intros Hsz Hadv. rewrite Hsz. cbn [andb].
    rewrite In_append1, !in_app_iff. cbn [opt In]. left. right. right. right. left. left.
    f_equal. f_equal. unfold getMaxMessageSize. cbn [advertisedSize set_capabilities set_advertisedSize].
    destruct (parseAndClampSize parts) as [v ok] eqn:P. cbn [fst snd].
    destruct ok.
    + pose proof (parseAndClampSize_range parts v P) as R.
      unfold advertisedSizeMin in R.
      assert ((v >? 0) = true) as -> by (apply Z.gtb_gt; lia). reflexivity.
    + assert ((advertisedSize s >? 0) = false) as ->
        by (rewrite Z.gtb_ltb; apply Z.ltb_ge; lia).
      reflexivity.
Qed.

End EhloResponse.

(* ------------------------------------------------------------------ *)
(** ** The advertised SIZE, for every list of capability parts *)

Section AdvertisedSize.
Context {L : GoStd}.

Lemma parseAndClampSize_skip (before rest : list string) :
  Forall (fun p => sizeOf p = None) before ->
  parseAndClampSize (before ++ rest) = parseAndClampSize rest.
Proof.
  induction before as [|p before IH]; intros H; [reflexivity|].
  inversion H as [|p' l' Hp Hrest]; subst.
  cbn [app parseAndClampSize]. unfold sizeOf in Hp.
  destruct (sizeRegex p) as [m|]; [|exact (IH Hrest)].
  destruct (gostd.Atoi m) as [v|]; [|exact (IH Hrest)].
  destruct (v <=? 0); [exact (IH Hrest) | discriminate].
Qed.

Lemma parseAndClampSize_first (part : string) (rest : list string) (n : Z) :
  sizeOf part = Some n -> parseAndClampSize (part :: rest) = (clampSize n, true).
Proof.
  unfold sizeOf, clampSize. cbn [parseAndClampSize].
  destruct (sizeRegex part) as [m|]; [|discriminate].
  destruct (gostd.Atoi m) as [v|]; [|discriminate].
  destruct (Z.leb_spec v 0); [discriminate|]. intros [= <-].
  unfold advertisedSizeMin, advertisedSizeMax.
  destruct (Z.ltb_spec v 1000); [f_equal; lia|].
  destruct (v >? 10000000) eqn:G.
  - apply Z.gtb_lt in G. f_equal. lia.
  - rewrite Z.gtb_ltb in G. apply Z.ltb_ge in G. f_equal. lia.
Qed.

(** A part [size<N>]: N counts when it is at least 1 and fits an [int]. *)
Lemma sizeOf_size (ds : string) :
  digits ds ->
  exists v,
    gostd.parse_digits 0 ds = Some v /\ 0 <= v
    /\ sizeOf ("size" ++ ds)
       = if (1 <=? v) && (v <=? gostd.maxInt) then Some v else None.
Proof.
  intros Hd. pose proof Hd as [Hne Hall].
  destruct (parse_digits_bound ds 0 Hall) as (v & E & B).
  rewrite Z.mul_0_l, Z.add_0_l in E.
  exists v. split; [exact E|]. split; [lia|].
  unfold sizeOf. rewrite (sizeRegex_size ds Hd), (Atoi_digits ds Hne Hall), E.
  unfold gostd.minInt, gostd.maxInt.
  destruct (Z.leb_spec (-9223372036854775808) v); [|lia]. cbn [andb].
  destruct (Z.leb_spec v 9223372036854775807); cbn [andb].
  - destruct (Z.leb_spec v 0); destruct (Z.leb_spec 1 v); cbn [andb];
      first [reflexivity | lia].
  - rewrite andb_false_r. reflexivity.
Qed.

Lemma clampSize_range (n : Z) :
  1000 <= clampSize n <= 10000000
  /\ (n <= 1000 -> clampSize n = 1000)
  /\ (10000000 <= n -> clampSize n = 10000000)
  /\ (1000 <= n <= 10000000 -> clampSize n = n).
Proof. unfold clampSize, advertisedSizeMin, advertisedSizeMax. lia. Qed.

(** The SIZE line of the EHLO response and the limit the session
    stores. *)
Lemma buildEhloResponse_size (h : string) (s : Session) :
  let parts := capabilityParts h s in
  let r := buildEhloResponse h s in
  let sz := negb (hasCapability parts "nosize") in
  let parsed := sz && snd (parseAndClampSize parts) in
  advertisedSize (fst r)
  = (if parsed then fst (parseAndClampSize parts) else advertisedSize s)
  /\ forall x,
       In ("250-SIZE " ++ x) (snd r)
       <-> sz = true
           /\ x = gostd.itoa (if parsed then fst (parseAndClampSize parts)
                              else MaxMessageSize).
Proof.
  cbv zeta. unfold buildEhloResponse. fold (capabilityParts h s).
  change (gostd.itoa Code250) with "250". cbn [append].
  generalize (capabilityParts h s). intros parts.
  pose proof (addStandardCapabilities_eq ["250-badsmtp.test"] parts s) as E.
  cbv zeta in E. rewrite E. clear E.
  cbn [fst snd advertisedSize set_capabilities set_advertisedSize].
  split; [reflexivity|]. intros x.
  rewrite In_append1, !in_app_iff, !In_opt. cbn [In]. split.
  - intros H.
    repeat match goal with
           | H : _ \/ _ |- _ => destruct H
           | H : _ /\ _ |- _ => destruct H
           | H : False |- _ => destruct H
           end;
      match goal with
      | H : @eq string _ _ |- _ =>
          cbn in H; first [discriminate H | injection H as H]
      end.
    split; assumption.
  - intros [Hsz ->]. left. right. right. right. left. split; [exact Hsz | reflexivity].
Qed.

(** [C9] The SIZE of an EHLO response is decided by the first capability
    part, from the left, that gives a size: a part in which the leftmost
    [size<digits>] has a value N of at least 1 within the range of an
    [int]; [size<N>] itself is such a part.  The response then advertises
    N clamped to [1000, 10000000], in its only SIZE line, and the session
    stores the clamped value as its limit; [size1] gives 1000,
    [size20000000] gives 10000000 and [size50000] gives 50000.  Parts
    before it that give no size ([size0], or an N that overflows [int])
    are passed over, and the parts after it are not looked at.  When no
    part gives a size, the default [10485760] is advertised and the stored
    limit is unchanged.  When some part contains [nosize] there is no
    SIZE line and the stored limit is unchanged. *)
Theorem parseAndClampSize_clamps (h : string) (s : Session) :
  let parts := capabilityParts h s in
  let r := buildEhloResponse h s in
  let advertised x := In ("250-SIZE " ++ x) (snd r) in
  (forall before part after n,
     parts = (before ++ part :: after)%list ->
     Forall (fun p => sizeOf p = None) before -> sizeOf part = Some n ->
     parseAndClampSize parts = (clampSize n, true)
     /\ (hasCapability parts "nosize" = false ->
         advertisedSize (fst r) = clampSize n
         /\ forall x, advertised x <-> x = gostd.itoa (clampSize n)))
  /\ (Forall (fun p => sizeOf p = None) parts ->
      parseAndClampSize parts = (0, false)
      /\ (hasCapability parts "nosize" = false ->
          advertisedSize (fst r) = advertisedSize s
          /\ forall x, advertised x <-> x = "10485760"))
  /\ (hasCapability parts "nosize" = true ->
      advertisedSize (fst r) = advertisedSize s /\ forall x, ~ advertised x)
  /\ (forall ds, digits ds ->
      exists v,
        gostd.parse_digits 0 ds = Some v /\ 0 <= v
        /\ sizeOf ("size" ++ ds)
           = if (1 <=? v) && (v <=? gostd.maxInt) then Some v else None)
  /\ (forall n,
        1000 <= clampSize n <= 10000000
        /\ (n <= 1000 -> clampSize n = 1000)
        /\ (10000000 <= n -> clampSize n = 10000000)
        /\ (1000 <= n <= 10000000 -> clampSize n = n))
  /\ (sizeOf "size1" = Some 1 /\ clampSize 1 = 1000)
  /\ (sizeOf "size20000000" = Some 20000000 /\ clampSize 20000000 = 10000000)
  /\ (sizeOf "size50000" = Some 50000 /\ clampSize 50000 = 50000)
  /\ sizeOf "size0" = None
  /\ sizeOf "size9223372036854775808" = None.
Proof.
  cbv zeta.
  destruct (buildEhloResponse_size h s) as [A B]. cbv zeta in A, B.
  split; [|split; [|split; [|split; [|split]]]].
  - intros before part after n Hp Hb Hn.
    assert (P : parseAndClampSize (capabilityParts h s) = (clampSize n, true)).
    { rewrite Hp, (parseAndClampSize_skip before _ Hb).
      apply parseAndClampSize_first. exact Hn. }
    split; [exact P|]. intros Hns. rewrite Hns, P in A, B.
    cbn [negb andb fst snd] in A, B.
    split; [exact A|]. intros x. rewrite B. tauto.
  - intros Hall.
    assert (P : parseAndClampSize (capabilityParts h s) = (0, false)).
    { rewrite <- (app_nil_r (capabilityParts h s)).
      rewrite (parseAndClampSize_skip _ [] Hall). reflexivity. }
    split; [exact P|]. intros Hns. rewrite Hns, P in A, B.
    cbn [negb andb fst snd] in A, B.
    change (gostd.itoa MaxMessageSize) with "10485760" in B.
    split; [exact A|]. intros x. rewrite B. tauto.
  - intros Hns. rewrite Hns in A, B. cbn [negb andb fst snd] in A, B.
    split; [exact A|]. intros x Hx. apply B in Hx. destruct Hx. discriminate.
  - apply sizeOf_size.
  - apply clampSize_range.
  - repeat split; reflexivity.
Qed.

End AdvertisedSize.

(* ------------------------------------------------------------------ *)
(** ** The addresses that ask for a synthetic error *)

Lemma span_app (p : ascii -> bool) (a b : string) :
  gostd.all_bytes p a = true ->
  match b with EmptyString => True | String c _ => p c = false end ->
  gostd.span p (a ++ b) = (a, b).
Proof.
  intros Ha Hb. induction a as [|c a IH]; cbn.
  - destruct b as [|c b]; [reflexivity|]. cbn. rewrite Hb. reflexivity.
  - cbn in Ha. apply andb_true_iff in Ha. destruct Ha as [Hc Ha].
    rewrite Hc, (IH Ha). reflexivity.
Qed.

Lemma take_app (a b : string) : gostd.take (String.length a) (a ++ b) = a.
Proof. induction a as [|c a IH]; cbn; [destruct b; reflexivity | rewrite IH; reflexivity]. Qed.

Lemma drop_app (a b : string) : gostd.drop (String.length a) (a ++ b) = b.
Proof. induction a as [|c a IH]; cbn; [reflexivity | exact IH]. Qed.

Lemma three_digits_app (code r : string) :
  String.length code = 3%nat -> gostd.all_bytes gostd.is_digit code = true ->
  smtp.three_digits (code ++ r) = Some (code, r).
Proof.
  intros Hl Hd. unfold smtp.three_digits.
  rewrite <- Hl. rewrite take_app, drop_app, Nat.eqb_refl, Hd. reflexivity.
Qed.

Lemma digits_then_app (x r : string) (stop : ascii) :
  digits x -> gostd.is_digit stop = false ->
  smtp.digits_then (x ++ String stop r) stop = Some (x, r).
Proof.
  intros [Hne Hd] Hs. unfold smtp.digits_then.
  rewrite (span_app gostd.is_digit x (String stop r) Hd Hs).
  destruct x as [|c x]; [congruence|].
  rewrite Ascii.eqb_refl. reflexivity.
Qed.

Section Patterns.
Context {L : GoStd}.

(** An address whose lower-cased form is a lower-case verb, a three-digit
    code and [@] is read by [parsePrefixedError], under a prefix equal to
    the verb up to case, as that code with its standard message; with
    [_x.y.z] between the code and the [@] the enhanced status code
    [x.y.z] is stored and placed between code and message. *)
Theorem error_pattern_is_recognised (prefix email verb code rest : string) :
  verb <> "" -> gostd.all_bytes gostd.is_lower verb = true ->
  String.length code = 3%nat -> gostd.all_bytes gostd.is_digit code = true ->
  strings_EqualFold verb prefix = true ->
  exists n,
    gostd.Atoi code = Some n /\ 0 <= n <= 999
    /\ (strings_ToLower email = verb ++ code ++ "@" ++ rest ->
        parsePrefixedError prefix email
        = Some {| Code := n; Enhanced := "";
                  smtp.Message := gostd.itoa n ++ " " ++ GetErrorMessage n |})
    /\ (forall x y z,
          digits x -> digits y -> digits z ->
          strings_ToLower email
          = verb ++ code ++ "_" ++ x ++ "." ++ y ++ "." ++ z ++ "@" ++ rest ->
          parsePrefixedError prefix email
          = Some {| Code := n; Enhanced := x ++ "." ++ y ++ "." ++ z;
                    smtp.Message := gostd.itoa n ++ " " ++ (x ++ "." ++ y ++ "." ++ z)
                                    ++ " " ++ GetErrorMessage n |}).
Proof.
  intros Hne Hlow Hl Hd Hf.
  destruct (three_digits_code (code ++ "") code "" (three_digits_app code "" Hl Hd))
    as (_ & _ & n & Hn & Hr).
  exists n. split; [exact Hn|]. split; [exact Hr|].
  assert (Hc0 : match code with EmptyString => True
                           | String c _ => gostd.is_lower c = false end).
  { destruct code as [|c code]; [exact I|]. cbn in Hd.
    apply andb_true_iff in Hd. destruct Hd as [Hd _].
    destruct c as [b0 b1 b2 b3 b4 b5 b6 b7].
    destruct b0, b1, b2, b3, b4, b5, b6, b7; try discriminate Hd; reflexivity. }
  assert (Hsp : forall r, gostd.span gostd.is_lower (verb ++ code ++ r) = (verb, code ++ r)).
  { intros r. apply span_app; [exact Hlow|].
    destruct code as [|c code]; [discriminate Hl|]. exact Hc0. }
  split.
  - intros He. unfold parsePrefixedError. rewrite He.
    unfold smtp.extendedRegex, smtp.basicRegex. rewrite Hsp.
    destruct verb as [|v0 verb]; [congruence|].
    rewrite (three_digits_app code _ Hl Hd). cbn [append].
    rewrite Hf, Hn. reflexivity.
  - intros x y z Hx Hy Hz He. unfold parsePrefixedError. rewrite He.
    unfold smtp.extendedRegex. rewrite Hsp.
    destruct verb as [|v0 verb]; [congruence|].
    rewrite (three_digits_app code _ Hl Hd). cbn [append].
    rewrite (digits_then_app x _ "." Hx eq_refl).
    rewrite (digits_then_app y _ "." Hy eq_refl).
    rewrite (digits_then_app z _ "@" Hz eq_refl).
    rewrite Hf, Hn. reflexivity.
Qed.

Lemma parsePrefixedError_message (prefix email : string) (er : ErrorResult) :
  parsePrefixedError prefix email = Some er ->
  smtp.Message er
  = if String.eqb (Enhanced er) ""
    then gostd.itoa (Code er) ++ " " ++ GetErrorMessage (Code er)
    else gostd.itoa (Code er) ++ " " ++ Enhanced er ++ " " ++ GetErrorMessage (Code er).
Proof.
  unfold parsePrefixedError.
  set (e := strings_ToLower email).
  assert (B : match smtp.basicRegex e with
              | Some [verb; c] =>
                  if strings_EqualFold verb prefix
                  then match gostd.Atoi c with
                       | Some code =>
                           Some {| Code := code; Enhanced := "";
                                   smtp.Message := gostd.itoa code ++ " " ++ GetErrorMessage code |}
                       | None => None
                       end
                  else None
              | _ => None
              end = Some er ->
              smtp.Message er
              = if String.eqb (Enhanced er) ""
                then gostd.itoa (Code er) ++ " " ++ GetErrorMessage (Code er)
                else gostd.itoa (Code er) ++ " " ++ Enhanced er ++ " "
                     ++ GetErrorMessage (Code er)).
  { destruct (smtp.basicRegex e) as [[|v [|c [|]]]|]; try discriminate.
    destruct (strings_EqualFold v prefix); [|discriminate].
    destruct (gostd.Atoi c); [|discriminate].
    intros H. injection H as <-. reflexivity. }
  destruct (smtp.extendedRegex e) as [m|] eqn:X; [|exact B].
  destruct (extendedRegex_inv _ _ X) as (verb & c & x & y & z & -> & _ & Dx & _ & _).
  destruct (strings_EqualFold verb prefix); [|exact B].
  destruct (gostd.Atoi c); [|exact B].
  intros H. injection H as <-. cbn [Enhanced Code smtp.Message].
  destruct Dx as [Dx _]. destruct x as [|x0 x]; [congruence|]. reflexivity.
Qed.

(** For every error that [parsePrefixedError] returns, the reply sent is
    the stored message when the session has ENHANCEDSTATUSCODES enabled,
    and the code with its standard message, without the enhanced status
    code, when it has not. *)
Theorem stored_message_is_the_enhanced_reply (prefix email : string)
    (er : ErrorResult) (s : Session) :
  parsePrefixedError prefix email = Some er ->
  (EnhancedStatusCodes (capabilities s) = true ->
   formatErrorResult s (Some er) = smtp.Message er)
  /\ (EnhancedStatusCodes (capabilities s) = false ->
      formatErrorResult s (Some er)
      = gostd.itoa (Code er) ++ " " ++ GetErrorMessage (Code er)).
Proof.
  intros H. rewrite (parsePrefixedError_message prefix email er H).
  unfold formatErrorResult. split; intros ->; cbn [andb]; [|reflexivity].
  destruct (String.eqb (Enhanced er) ""); reflexivity.
Qed.

End Patterns.

(* ------------------------------------------------------------------ *)
(** ** Shutdown *)

Section Shutdown.
Context {L : GoStd}.
Import shutdown.

(** [CloseWith421] always leaves the connection closed and touches
    nothing of the session but the connection and the queue.  On a
    healthy connection it writes the queued responses, then the 421 line
    with the given reason (the standard text when the reason is empty),
    empties the queue and returns the error of the close.  When no 421
    was queued, a 421 line is never followed by another line. *)
Theorem shutdown_notice_is_last (closeErr : option error) (reason : string)
    (s : Session) :
  let r := CloseWith421 closeErr reason s in
  let notice :=
    "421 " ++ (if String.eqb reason ""
               then "Service not available, closing transmission channel"
               else reason) in
  closed (conn (fst r)) = true
  /\ core (fst r) = core s
  /\ (healthy (conn s) ->
      snd r = closeErr /\ responseQueue (fst r) = []
      /\ written (conn (fst r))
         = (written (conn s) ++ with_crlf (responseQueue s)
            ++ [(notice ++ gostd.CRLF)%string])%list)
  /\ (closed (conn s) = false -> trace_ok (conn s) ->
      Forall (fun q => isResponse421 q = false) (responseQueue s) ->
      trace_ok (conn (fst r))).
Proof.
  cbv zeta. unfold CloseWith421.
  change (gostd.itoa Code421) with "421".
  change (GetErrorMessage Code421)
    with "Service not available, closing transmission channel".
  set (notice := "421 " ++ (if negb (String.eqb reason "") then reason
                            else "Service not available, closing transmission channel")).
  assert (Hn : "421 " ++ (if String.eqb reason ""
                          then "Service not available, closing transmission channel"
                          else reason) = notice)
    by (subst notice; destruct (String.eqb reason ""); reflexivity).
  rewrite Hn. clear Hn.
  split; [|split; [|split]].
  - destruct (flushResponses s) as [s1 e1].
    destruct (conn_Write _ (conn s1)) as [c2 ok].
    destruct ok; cbn [negb]; [destruct closeErr|]; reflexivity.
  - pose proof (core_flushResponses s) as F.
    destruct (flushResponses s) as [s1 e1]. cbn [fst] in F.
    destruct (conn_Write _ (conn s1)) as [c2 ok].
    destruct ok; cbn [negb]; [destruct closeErr|]; exact F.
  - intros Hh. rewrite (flushResponses_healthy s Hh).
    cbn [conn set_conn set_responseQueue].
    rewrite (conn_Write_healthy _ _ (healthy_sent _ _ Hh)). cbn [negb].
    destruct closeErr; cbn; rewrite <- app_assoc; repeat split.
  - intros Hc Ht Hq. unfold flushResponses.
    assert (W : forall c, closed c = false -> trace_ok c ->
                trace_ok (conn_Close (fst (conn_Write (notice ++ gostd.CRLF) c)))).
    { intros c Hcc Htc.
      destruct (conn_Write_cases (notice ++ gostd.CRLF) c) as [E|[_ E]]; rewrite E.
      - apply trace_ok_Close. exact Htc.
      - apply trace_ok_close_after; assumption. }
    destruct (responseQueue s) as [|q0 q] eqn:Q.
    + specialize (W (conn s) Hc Ht).
      destruct (conn_Write _ (conn s)) as [c2 ok].
      destruct ok; cbn [negb]; [destruct closeErr|]; exact W.
    + destruct (writeAll_trace (q0 :: q) (conn s) Ht Hq) as (T1 & C1).
      destruct (writeAll (q0 :: q) (conn s)) as [c1 ok1]. cbn [fst] in T1, C1.
      assert (Hc1 : closed c1 = false) by congruence.
      specialize (W c1 Hc1 T1).
      destruct ok1; cbn [conn set_conn set_responseQueue];
        destruct (conn_Write _ c1) as [c2 ok];
        destruct ok; cbn [negb]; try destruct closeErr; exact W.
Qed.

End Shutdown.

(* ------------------------------------------------------------------ *)
(** ** Ports *)

Section Ports.
Import config.

Lemma wrap64_under (z : Z) : - 2 ^ 63 - 2 ^ 64 <= z < - 2 ^ 63 -> wrap64 z = z + 2 ^ 64.
Proof.
  intros H. unfold wrap64.
  replace (z + 2 ^ 63) with ((z + 2 ^ 63 + 2 ^ 64) + (-1) * 2 ^ 64) by lia.
  rewrite Z_mod_plus_full, Z.mod_small; lia.
Qed.

(** Inside a window of [DelayCount] ports the offset is an index of
    [DelayOptions], also when the end of the window overflows. *)
Lemma window_offset (port start : Z) :
  - 2 ^ 63 <= port < 2 ^ 63 -> - 2 ^ 63 <= start < 2 ^ 63 ->
  (port >=? start) && (port <? wrap64 (start + DelayCount)) = true ->
  start + DelayCount < 2 ^ 63 /\ 0 <= port - start < 10
  /\ wrap64 (port - start) = port - start.
Proof.
  intros Hp Hs H. apply andb_true_iff in H. destruct H as [H1 H2].
  rewrite Z.geb_le in H1. rewrite Z.ltb_lt in H2. unfold DelayCount in *.
  destruct (Z_lt_ge_dec (start + 10) (2 ^ 63)) as [Hlt|Hge].
  - rewrite wrap64_small in H2 by lia.
    split; [exact Hlt|]. split; [lia|]. apply wrap64_small. lia.
  - rewrite wrap64_over in H2 by lia. lia.
Qed.

Lemma window_outside (port start : Z) :
  - 2 ^ 63 <= start -> start + DelayCount < 2 ^ 63 ->
  (port >=? start) && (port <? wrap64 (start + DelayCount))
  = (start <=? port) && (port <? start + 10).
Proof.
  intros Hs Hlt. unfold DelayCount in *. rewrite wrap64_small by lia.
  rewrite Z.geb_leb. reflexivity.
Qed.

Lemma DelayOption_nth (k : Z) :
  0 <= k < 10 -> DelayOption k = Some (nth (Z.to_nat k) DelayOptions 0).
Proof.
  intros H. unfold DelayOption.
  assert (E : (0 <=? k) && (k <? Z.of_nat (List.length DelayOptions)) = true).
  { apply andb_true_iff. split; [apply Z.leb_le | apply Z.ltb_lt]; simpl; lia. }
  rewrite E. apply nth_error_nth'. simpl. lia.
Qed.

Lemma DelayOption_drops (k : Z) d :
  0 <= k < 10 -> DelayOption k = Some d -> (k =? 0) = false -> d > 0.
Proof.
  intros H E K. rewrite (DelayOption_nth k H) in E. injection E as <-.
  apply Z.eqb_neq in K.
  assert (C : k = 1 \/ k = 2 \/ k = 3 \/ k = 4 \/ k = 5 \/ k = 6 \/ k = 7
              \/ k = 8 \/ k = 9) by lia.
  repeat (destruct C as [->|C]; [vm_compute; reflexivity|]).
  subst k. vm_compute. reflexivity.
Qed.

Lemma window_cases (port start : Z) :
  - 2 ^ 63 <= port < 2 ^ 63 -> - 2 ^ 63 <= start < 2 ^ 63 ->
  ((port >=? start) && (port <? wrap64 (start + DelayCount)) = true
   /\ 0 <= port - start < 10 /\ wrap64 (port - start) = port - start
   /\ (start <=? port) && (port <? start + 10) = true)
  \/ ((port >=? start) && (port <? wrap64 (start + DelayCount)) = false
      /\ (start + 10 < 2 ^ 63 -> (start <=? port) && (port <? start + 10) = false)).
Proof.
  intros Hp Hs.
  destruct ((port >=? start) && (port <? wrap64 (start + DelayCount))) eqn:W.
  - left. destruct (window_offset port start Hp Hs W) as (W1 & W2 & W3).
    split; [reflexivity|]. split; [exact W2|]. split; [exact W3|].
    apply andb_true_iff. split; [apply Z.leb_le | apply Z.ltb_lt]; lia.
  - right. split; [reflexivity|]. intros Hlt.
    rewrite window_outside in W by (unfold DelayCount; lia). exact W.
Qed.

Lemma first_port (port start : Z) :
  (port =? start) = (port - start =? 0).
Proof. destruct (Z.eqb_spec port start), (Z.eqb_spec (port - start) 0); lia. Qed.

Lemma not_first_port (port start : Z) :
  (start <=? port) && (port <? start + 10) = false -> (port =? start) = false.
Proof.
  intros H. apply Z.eqb_neq. intros ->.
  apply andb_false_iff in H. destruct H as [H|H];
    [apply Z.leb_gt in H | apply Z.ltb_ge in H]; lia.
Qed.

(** [AnalysePortBehaviour] never indexes [DelayOptions] out of range,
    for any three 64-bit values of the port and the two window starts.
    A port at offset k of the ten-port greeting window gets the k-th
    delay option as greeting delay, a port at offset k of the drop window
    the k-th option as drop delay, and the first port of the drop window
    an immediate drop; outside a window the setting is unchanged, and no
    other setting is touched. *)
Theorem port_window_selects_delay (port gstart dstart : Z) (c : Config)
    (Hport : - 2 ^ 63 <= port < 2 ^ 63)
    (Hg : - 2 ^ 63 <= gstart < 2 ^ 63)
    (Hd : - 2 ^ 63 <= dstart < 2 ^ 63) :
  exists c',
    AnalysePortBehaviour port gstart dstart c = Some c'
    /\ CommandDelay c' = CommandDelay c
    /\ TLSHostname c' = TLSHostname c
    /\ CapabilityParser c' = CapabilityParser c
    /\ (gstart + 10 < 2 ^ 63 ->
        GreetingDelay c'
        = if (gstart <=? port) && (port <? gstart + 10)
          then nth (Z.to_nat (port - gstart)) DelayOptions 0
          else GreetingDelay c)
    /\ (dstart + 10 < 2 ^ 63 ->
        DropDelay c'
        = (if (dstart <=? port) && (port <? dstart + 10)
           then nth (Z.to_nat (port - dstart)) DelayOptions 0
           else DropDelay c)
        /\ DropImmediate c' = (if port =? dstart then true else DropImmediate c)).
Proof.
  unfold AnalysePortBehaviour.
  destruct (window_cases port gstart Hport Hg) as [(G & G2 & G3 & G4)|(G & G4)];
    destruct (window_cases port dstart Hport Hd) as [(D & D2 & D3 & D4)|(D & D4)];
    rewrite G, D, ?G3, ?D3, ?(DelayOption_nth _ G2), ?(DelayOption_nth _ D2);
    try rewrite <- (first_port port dstart);
    try (destruct (port =? dstart) eqn:Z0);
    (eexists; split; [reflexivity|]);
    cbn [GreetingDelay DropDelay DropImmediate CommandDelay TLSHostname
         CapabilityParser set_GreetingDelay set_DropDelay set_DropImmediate];
    repeat split; intros;
    rewrite ?G4, ?D4, ?Z0 by assumption; try reflexivity;
    try (rewrite (not_first_port port dstart) by auto; reflexivity);
    exfalso; rewrite (not_first_port port dstart) in Z0 by auto; discriminate.
Qed.

(** For two ranges whose start is not above their end, [OverlapsWith]
    is symmetric and holds exactly when some port is contained in
    both. *)
Theorem overlap_iff_common_port (pr other : PortRange)
    (Hpr : Start pr <= Stop pr) (Hother : Start other <= Stop other) :
  OverlapsWith pr other = OverlapsWith other pr
  /\ (OverlapsWith pr other = true
      <-> exists port, Contains pr port = true /\ Contains other port = true).
Proof.
  unfold OverlapsWith, Contains. split; [apply andb_comm|]. split.
  - intros H. apply andb_true_iff in H. destruct H as [H1 H2].
    apply Z.leb_le in H1. apply Z.leb_le in H2.
    exists (Z.max (Start pr) (Start other)).
    rewrite !andb_true_iff, !Z.geb_le, !Z.leb_le. lia.
  - intros (port & H1 & H2).
    rewrite !andb_true_iff, !Z.geb_le, !Z.leb_le in *. lia.
Qed.

Lemma overlap_after_none pr later :
  overlap_after pr later = None
  <-> Forall (fun other => OverlapsWith pr other = false) later.
Proof.
  induction later as [|o rest IH]; simpl.
  - split; auto.
  - destruct (OverlapsWith pr o) eqn:E.
    + split; [discriminate|]. intros H. inversion H. congruence.
    + rewrite IH. split; intros H; [constructor; auto|inversion H; auto].
Qed.

Lemma overlap_after_some pr later e :
  overlap_after pr later = Some e ->
  exists other, In other later /\ OverlapsWith pr other = true
                /\ e = ConflictError pr other.
Proof.
  induction later as [|o rest IH]; simpl; [discriminate|].
  destruct (OverlapsWith pr o) eqn:E.
  - intros [= <-]. exists o. auto.
  - intros H. destruct (IH H) as (other & Hin & Ho & He). exists other. auto.
Qed.

(** [ValidateRangeOverlaps] returns no error exactly when no range of
    the list overlaps a later one; then no port lies in two ranges at
    different positions.  An error is the conflict of two overlapping
    ranges of the list. *)
Theorem validated_ranges_are_disjoint (ranges : list PortRange) :
  (ValidateRangeOverlaps ranges = None
   <-> ForallOrdPairs (fun a b => OverlapsWith a b = false) ranges)
  /\ (ValidateRangeOverlaps ranges = None ->
      forall i j a b port,
        (i < j)%nat -> nth_error ranges i = Some a -> nth_error ranges j = Some b ->
        Contains a port = true -> Contains b port = false)
  /\ (forall e, ValidateRangeOverlaps ranges = Some e ->
      exists a b, In a ranges /\ In b ranges /\ OverlapsWith a b = true
                  /\ e = ConflictError a b).
Proof.
  assert (A : ValidateRangeOverlaps ranges = None
              <-> ForallOrdPairs (fun a b => OverlapsWith a b = false) ranges).
  { induction ranges as [|pr later IH]; simpl.
    - split; [constructor|reflexivity].
    - destruct (overlap_after pr later) eqn:E.
      + split; [discriminate|]. intros H. inversion H; subst.
        apply overlap_after_none in H2. congruence.
      + rewrite IH. apply overlap_after_none in E.
        split; intros H; [constructor; auto|inversion H; auto]. }
  split; [exact A|]. split.
  - intros H. apply A in H. clear A.
    induction H as [|pr later F P IH]; intros i j a b port Hij Hi Hj Ca.
    + destruct i; discriminate.
    + destruct j as [|j]; [lia|]. simpl in Hj.
      destruct i as [|i]; simpl in Hi.
      * injection Hi as <-. apply nth_error_In in Hj.
        rewrite Forall_forall in F. specialize (F b Hj).
        unfold OverlapsWith, Contains in *.
        destruct ((port >=? Start b) && (port <=? Stop b)) eqn:Cb; [|reflexivity].
        rewrite andb_true_iff, Z.geb_le, Z.leb_le in Ca, Cb.
        rewrite andb_false_iff, !Z.leb_gt in F. lia.
      * apply (IH i j a b port); auto. lia.
  - clear A. induction ranges as [|pr later IH]; simpl; intros e H; [discriminate|].
    destruct (overlap_after pr later) eqn:E.
    + injection H as <-. destruct (overlap_after_some _ _ _ E) as (o & Hin & Ho & He).
      exists pr, o. auto.
    + destruct (IH e H) as (a & b & Ha & Hb & Hab). exists a, b. auto.
Qed.

End Ports.

Section DropPorts.
Context {L : GoStd}.
Import config.

Lemma greeting_core x ln s :
  state s = StateGreeting -> core (fst (handleCommand x ln s)) = core s.
Proof.
  intros Hs.
  destruct (handleCommand_effect x ln s)
    as [C|(cmd & s0 & u & _ & _ & _ & _ & C0 & E & C)]; [exact C|].
  rewrite C, <- C0.
  assert (H0 : state s0 = StateGreeting)
    by (apply core_fields in C0; destruct C0 as (-> & _); exact Hs).
  destruct E; try reflexivity;
    repeat match goal with
           | H : _ \/ _ |- _ => destruct H
           | H : In _ _ |- _ => simpl in H
           | H : False |- _ => destruct H
           end; congruence.
Qed.

Lemma greeting_loop inputs s :
  state s = StateGreeting -> core (fst (runCommandLoop inputs s)) = core s.
Proof.
  apply (loop_relation (fun a b => state a = StateGreeting -> core b = core a)).
  - intros a a' b b' Ca Cb H Ha. rewrite <- Cb, <- Ca. apply H.
    apply core_fields in Ca. destruct Ca as (-> & _). exact Ha.
  - reflexivity.
  - intros a b c A B Ha. specialize (A Ha). rewrite <- A. apply B.
    apply core_fields in A. destruct A as (-> & _). exact Ha.
  - intros y l t. apply greeting_core.
Qed.

(** A connection on any of the ten ports of the drop window is never
    greeted: [AnalysePortBehaviour] turns on the immediate drop or a
    positive drop delay, the session writes no banner and stays in the
    state GREETING, and whatever the client sends afterwards the session
    ends closed with state, envelope, authentication and store as at the
    start. *)
Theorem drop_port_is_never_greeted (port gstart dstart : Z) (c : Config)
    (cn : Conn) (host : string) (tls : option ConnectionState)
    (inputs : list Input)
    (Hg : - 2 ^ 63 <= gstart < 2 ^ 63)
    (Hd : - 2 ^ 63 <= dstart /\ dstart + 10 < 2 ^ 63)
    (Hin : dstart <= port < dstart + 10) :
  exists c',
    AnalysePortBehaviour port gstart dstart c = Some c'
    /\ let s := NewSessionWithHostname cn c' host tls in
       setupSessionBehaviourAndGreet s = (s, None)
       /\ core (fst (Handle inputs s)) = core s
       /\ closed (conn (fst (Handle inputs s))) = true.
Proof.
  assert (Hport : - 2 ^ 63 <= port < 2 ^ 63) by lia.
  assert (Hwin : (port >=? dstart) && (port <? wrap64 (dstart + DelayCount)) = true).
  { rewrite window_outside by (unfold DelayCount; lia).
    apply andb_true_iff. split; [apply Z.leb_le | apply Z.ltb_lt]; lia. }
  assert (Hd' : - 2 ^ 63 <= dstart < 2 ^ 63) by lia.
  clear Hd. rename Hd' into Hd.
  assert (A : exists c', AnalysePortBehaviour port gstart dstart c = Some c'
                         /\ (DropImmediate c' = true \/ DropDelay c' > 0)).
  { unfold AnalysePortBehaviour. rewrite Hwin.
    destruct (window_offset port dstart Hport Hd Hwin) as (D1 & D2 & D3).
    rewrite D3. pose proof (DelayOption_drops (port - dstart)) as Dr.
    rewrite (DelayOption_nth _ D2) in *.
    destruct ((port >=? gstart) && (port <? wrap64 (gstart + DelayCount))) eqn:G.
    - destruct (window_offset port gstart Hport Hg G) as (G1 & G2 & G3).
      rewrite G3, (DelayOption_nth _ G2).
      destruct (port - dstart =? 0) eqn:Z0; eexists; (split; [reflexivity|]);
        [left; reflexivity | right; cbn; eapply Dr; eauto].
    - destruct (port - dstart =? 0) eqn:Z0; eexists; (split; [reflexivity|]);
        [left; reflexivity | right; cbn; eapply Dr; eauto]. }
  destruct A as (c' & E & Hdrop). exists c'. split; [exact E|]. cbv zeta.
  set (s := NewSessionWithHostname cn c' host tls).
  assert (S0 : setupSessionBehaviourAndGreet s = (s, None)).
  { unfold setupSessionBehaviourAndGreet. change (config s) with c'.
    destruct Hdrop as [-> | Hdd]; [reflexivity|].
    destruct (DropImmediate c'); [reflexivity|].
    assert (Hgt : (DropDelay c' >? 0) = true) by (apply Z.gtb_lt; lia).
    rewrite Hgt. reflexivity. }
  split; [exact S0|]. unfold Handle. rewrite S0.
  pose proof (greeting_loop inputs s eq_refl) as Lp.
  destruct (runCommandLoop inputs s) as [s2 e]. cbn [fst] in *.
  split; [exact Lp | reflexivity].
Qed.

End DropPorts.

(* ------------------------------------------------------------------ *)
(** ** Authentication *)

Section Plain.
Context {L : GoStd}.
Import auth.

Lemma prefix_byte (b c : ascii) (t : string) :
  String.prefix (String b "") (String c t) = Ascii.eqb b c.
Proof.
  cbn. destruct (ascii_dec b c) as [->|N].
  - rewrite Ascii.eqb_refl. destruct t; reflexivity.
  - symmetry. apply Ascii.eqb_neq. exact N.
Qed.

Lemma Index_none_cons (b c : ascii) (t : string) :
  gostd.Index (String c t) (String b "") = None ->
  Ascii.eqb b c = false /\ gostd.Index t (String b "") = None.
Proof.
  cbn [gostd.Index]. rewrite prefix_byte.
  destruct (Ascii.eqb b c); [discriminate|].
  destruct (gostd.Index t (String b "")); [discriminate|]. auto.
Qed.

(** The first separator of [a ++ sep ++ r] is the one after [a] when [a]
    holds none. *)
Lemma Index_first (b : ascii) (a r : string) :
  gostd.Index a (String b "") = None ->
  gostd.Index (a ++ String b r) (String b "") = Some (String.length a).
Proof.
  induction a as [|c a IH]; intros H.
  - cbn [append gostd.Index]. rewrite prefix_byte, Ascii.eqb_refl. reflexivity.
  - destruct (Index_none_cons _ _ _ H) as (N & H').
    change (String c a ++ String b r) with (String c (a ++ String b r)).
    cbn [gostd.Index]. rewrite prefix_byte, N, (IH H'). reflexivity.
Qed.

Lemma drop_S_app (b : ascii) (a r : string) :
  gostd.drop (S (String.length a)) (a ++ String b r) = r.
Proof. induction a as [|c a IH]; cbn; [reflexivity | exact IH]. Qed.

Lemma SplitN3_three (z u p : string) :
  gostd.Index z NUL = None -> gostd.Index u NUL = None ->
  SplitN3 (z ++ NUL ++ u ++ NUL ++ p) NUL = [z; u; p].
Proof.
  intros Hz Hu. unfold SplitN3, NUL in *.
  change (String "000" "" ++ u ++ String "000" "" ++ p)
    with (String "000" (u ++ String "000" p)).
  rewrite (Index_first _ _ _ Hz), drop_S_app, (Index_first _ _ _ Hu).
  rewrite take_app, take_app, drop_S_app. reflexivity.
Qed.

Lemma SplitN3_two (z u : string) :
  gostd.Index z NUL = None -> gostd.Index u NUL = None ->
  SplitN3 (z ++ NUL ++ u) NUL = [z; u].
Proof.
  intros Hz Hu. unfold SplitN3, NUL in *.
  change (String "000" "" ++ u) with (String "000" u).
  rewrite (Index_first _ _ _ Hz), drop_S_app, Hu, take_app. reflexivity.
Qed.

(** AUTH PLAIN, with the payload on the command line or read from the
    connection: when the decoded payload has the form
    authzid NUL user NUL password the user name returned is the text
    between the first two NUL bytes (the password may hold further NUL
    bytes); a payload with fewer than two NUL bytes is rejected with
    [invalid PLAIN format]. *)
Theorem plain_user_is_second_field (decode : string -> option string)
    (readLine : option string) (parts : list string) (authData decoded : string)
    (Hparts : (exists name mech more, parts = name :: mech :: authData :: more)
              \/ (exists name mech line,
                    parts = [name; mech] /\ readLine = Some line
                    /\ authData = strings_TrimSpace line))
    (Hdata : authData <> "")
    (Hdecode : decode authData = Some decoded) :
  (forall z u p,
     decoded = z ++ NUL ++ u ++ NUL ++ p ->
     gostd.Index z NUL = None -> gostd.Index u NUL = None ->
     PlainHandler_Authenticate decode readLine parts = Ok u)
  /\ (forall z u,
        decoded = z ++ NUL ++ u ->
        gostd.Index z NUL = None -> gostd.Index u NUL = None ->
        PlainHandler_Authenticate decode readLine parts
        = Err (ErrMsg "invalid PLAIN format"))
  /\ (gostd.Index decoded NUL = None ->
      PlainHandler_Authenticate decode readLine parts
      = Err (ErrMsg "invalid PLAIN format")).
Proof.
  assert (E : PlainHandler_Authenticate decode readLine parts
              = match SplitN3 decoded NUL with
                | [_; username; _] => Ok username
                | _ => Err (ErrMsg "invalid PLAIN format")
                end).
  { apply String.eqb_neq in Hdata. unfold PlainHandler_Authenticate.
    destruct Hparts as [(name & mech & more & ->)
                       |(name & mech & line & -> & -> & Hl)].
    - rewrite Hdata, Hdecode. reflexivity.
    - rewrite <- Hl, Hdata, Hdecode. reflexivity. }
  rewrite E. split; [|split].
  - intros z u p -> Hz Hu. rewrite (SplitN3_three z u p Hz Hu). reflexivity.
  - intros z u -> Hz Hu. rewrite (SplitN3_two z u Hz Hu). reflexivity.
  - intros H. unfold SplitN3. rewrite H. reflexivity.
Qed.

End Plain.

Section DefaultAuth.
Context {L : GoStd}.
Import auth config.

(** With the default authenticator, an AUTH whose handler yields the
    user name [u] succeeds exactly when [u] does not contain [badauth]:
    the reply is [235 Authentication successful], the session is
    authenticated and in the state MAIL; otherwise the reply is
    [535 Authentication failed] and the state is unchanged.  A failed
    AUTH does not clear an authentication obtained earlier, and the
    envelope is untouched either way. *)
Theorem default_authenticator_decides (x : Extern) (cmd : Command) (s : Session)
    (mech u : string) (rest : list string)
    (Hauth : authenticate x = DefaultAuthenticator_Authenticate)
    (Hstate : state s = StateMail \/ state s = StateAuth)
    (Hnone : authErrorResult s = None)
    (Hargs : Args cmd = mech :: rest)
    (Hmech : auth_NewHandler mech = true)
    (Huser : authUsername x = Some u)
    (Hconn : healthy (conn s))
    (Hmode : pipeliningMode s = false) :
  let r := handleAuth x cmd s in
  let ok := negb (gostd.Contains u "badauth") in
  snd r = None
  /\ written (conn (fst r))
     = (written (conn s)
        ++ with_crlf (map (fun p => ("334 " ++ p)%string) (authPrompts x))
        ++ [((if ok then "235 Authentication successful"
              else "535 Authentication failed") ++ gostd.CRLF)%string])%list
  /\ authenticated (fst r) = authenticated s || ok
  /\ state (fst r) = (if ok then StateMail else state s)
  /\ mailFrom (fst r) = mailFrom s /\ rcptTo (fst r) = rcptTo s.
Proof.
  cbv zeta. unfold handleAuth.
  assert (G : negb (State_eqb (state s) StateMail)
              && negb (State_eqb (state s) StateAuth) = false)
    by (destruct Hstate as [-> | ->]; reflexivity).
  rewrite G, Hnone, Hargs, Hmech. cbn [negb].
  unfold auth_Authenticate. rewrite (writeAll_healthy _ _ Hconn), Huser, Hauth.
  unfold DefaultAuthenticator_Authenticate, IsValidAuth. rewrite negb_involutive.
  set (c1 := {| written := _; closed := false; accepts := accepts (conn s) |}).
  assert (H1 : healthy c1) by (destruct Hconn; split; [reflexivity|assumption]).
  destruct (gostd.Contains u "badauth"); cbn [negb Active].
  - rewrite writeResponse_direct by (try reflexivity; assumption).
    cbn. rewrite <- app_assoc, orb_false_r. repeat split.
  - rewrite writeResponse_direct by (try reflexivity; assumption).
    cbn. rewrite <- app_assoc, orb_true_r. repeat split.
Qed.

End DefaultAuth.

(* ------------------------------------------------------------------ *)
(** ** Addresses *)

Section Addresses.
Context {L : GoStd}.
Import smtp_email.

Lemma LastIndexByte_none (b : ascii) (s : string) :
  gostd.LastIndexByte s b = None
  <-> gostd.all_bytes (fun c => negb (Ascii.eqb c b)) s = true.
Proof.
  induction s as [|c s IH]; cbn; [split; reflexivity|].
  destruct (gostd.LastIndexByte s b) as [i|].
  - split; [discriminate|]. intros H. apply andb_true_iff in H.
    destruct H as [_ H]. apply IH in H. discriminate.
  - destruct (Ascii.eqb c b); cbn; [split; discriminate|].
    split; intros _; [apply IH|]; reflexivity.
Qed.

Lemma LastIndexByte_some (b : ascii) (s : string) (i : nat) :
  gostd.LastIndexByte s b = Some i ->
  s = gostd.take i s ++ String b (gostd.drop (S i) s)
  /\ (i < String.length s)%nat
  /\ String.length (gostd.take i s) = i
  /\ gostd.LastIndexByte (gostd.drop (S i) s) b = None.
Proof.
  revert i. induction s as [|c s IH]; intros i; cbn [gostd.LastIndexByte];
    [discriminate|].
  destruct (gostd.LastIndexByte s b) as [j|] eqn:E.
  - intros [= <-]. destruct (IH j eq_refl) as (A & B & C & D).
    cbn. rewrite C. repeat split; try lia; try exact D.
    f_equal. exact A.
  - destruct (Ascii.eqb_spec c b) as [->|N]; [|discriminate].
    intros [= <-]. cbn. repeat split; try lia. exact E.
Qed.

Lemma LastIndexByte_app (b : ascii) (a d : string) :
  gostd.LastIndexByte d b = None ->
  gostd.LastIndexByte (a ++ String b d) b = Some (String.length a).
Proof.
  intros H. induction a as [|c a IH]; cbn.
  - rewrite H, Ascii.eqb_refl. reflexivity.
  - rewrite IH. reflexivity.
Qed.

Lemma length_app (a b : string) :
  String.length (a ++ b) = (String.length a + String.length b)%nat.
Proof. induction a as [|c a IH]; cbn; [reflexivity | rewrite IH; reflexivity]. Qed.

(** [ValidateEmailAddress] accepts exactly the addresses made of a local
    part, the last [@] and a domain, where the local part has 1 to 64
    bytes, all from the allowed ASCII set, and the domain has 1 to 255
    bytes and matches the domain pattern. *)
Theorem valid_address_shape (email : string) :
  ValidateEmailAddress email = true
  <-> exists localPart domain,
        email = localPart ++ "@" ++ domain
        /\ gostd.all_bytes (fun c => negb (Ascii.eqb c "@")) domain = true
        /\ 1 <= gostd.len localPart <= 64
        /\ gostd.all_bytes asciiLocalByte localPart = true
        /\ 1 <= gostd.len domain <= 255
        /\ domainRegex_MatchString domain = true.
Proof.
  unfold ValidateEmailAddress, ValidateDomain, asciiLocalRe, MaxLocalPartLength,
    MaxDomainLength, gostd.len. split.
  - destruct (gostd.LastIndexByte email "@") as [i|] eqn:E; [|discriminate].
    destruct (LastIndexByte_some _ _ _ E) as (A & B & C & D).
    destruct ((i =? 0)%nat || (i =? String.length email - 1)%nat) eqn:G;
      [discriminate|].
    apply orb_false_iff in G. destruct G as [G1 G2].
    apply Nat.eqb_neq in G1. apply Nat.eqb_neq in G2.
    set (lp := gostd.take i email) in *.
    set (dm := gostd.drop (S i) email) in *.
    destruct (String.eqb lp "") eqn:L0; cbn [negb andb]; [discriminate|].
    destruct (gostd.all_bytes asciiLocalByte lp) eqn:L1; cbn [negb];
      [|discriminate].
    destruct (Z.of_nat (String.length lp) >? 64) eqn:L2; [discriminate|].
    destruct (String.eqb dm "") eqn:D0; [discriminate|].
    destruct (Z.of_nat (String.length dm) >? 255) eqn:D1; [discriminate|].
    intros M. exists lp, dm.
    split; [exact A|]. split; [apply LastIndexByte_none; exact D|].
    rewrite Z.gtb_ltb in L2, D1. apply Z.ltb_ge in L2. apply Z.ltb_ge in D1.
    apply String.eqb_neq in D0.
    repeat split; try lia; try assumption.
    destruct dm; [congruence | cbn; lia].
  - intros (lp & dm & -> & Hat & Hl & Hb & Hd & Hm).
    change (lp ++ "@" ++ dm) with (lp ++ String "@" dm).
    apply LastIndexByte_none in Hat.
    rewrite (LastIndexByte_app _ lp dm Hat), length_app. cbn [String.length].
    assert (G : (String.length lp =? 0)%nat
                || (String.length lp =? String.length lp + S (String.length dm) - 1)%nat
                = false).
    { apply orb_false_iff. split; apply Nat.eqb_neq; lia. }
    rewrite G, take_app, drop_S_app, Hb.
    assert (L0 : String.eqb lp "" = false)
      by (apply String.eqb_neq; intros ->; cbn in Hl; lia).
    assert (D0 : String.eqb dm "" = false)
      by (apply String.eqb_neq; intros ->; cbn in Hd; lia).
    rewrite L0, D0. cbn [negb andb].
    assert (L2 : (Z.of_nat (String.length lp) >? 64) = false)
      by (rewrite Z.gtb_ltb; apply Z.ltb_ge; lia).
    assert (D1 : (Z.of_nat (String.length dm) >? 255) = false)
      by (rewrite Z.gtb_ltb; apply Z.ltb_ge; lia).
    rewrite L2, D1. exact Hm.
Qed.

End Addresses.

(* ------------------------------------------------------------------ *)
(** ** The envelope outside a transaction *)

Section EnvelopeInvariant.
Context {L : GoStd}.

(** Whatever the client sends, a session that ends in one of the states
    GREETING, HELO, AUTH or MAIL has no sender and no recipients: the
    envelope is only ever filled inside a transaction. *)
Theorem envelope_empty_outside_transaction (inputs : list Input) (c : Conn)
    (cfg : Config) (host : string) (tls : option ConnectionState) :
  let s := fst (Handle inputs (NewSessionWithHostname c cfg host tls)) in
  In (state s) [StateGreeting; StateHelo; StateAuth; StateMail] ->
  mailFrom s = "" /\ rcptTo s = [].
Proof.
  cbv zeta. intros Hs.
  pose proof (idle_Handle inputs c cfg host tls) as I. unfold idle in I.
  destruct (state (fst (Handle inputs (NewSessionWithHostname c cfg host tls))));
    try exact I; simpl in Hs;
    repeat match goal with H : _ \/ _ |- _ => destruct H end;
    try discriminate; contradiction.
Qed.

End EnvelopeInvariant.

(* ------------------------------------------------------------------ *)
(** ** Instances of the further theorems *)

Import cases.

(** EHLO size2000-size5000.example.com: the first part decides. *)
Lemma parseAndClampSize_clamps_witness :
  advertisedSize (fst (buildEhloResponse (L := asciiStd)
                         "size2000-size5000.example.com" fresh)) = 2000
  /\ In "250-SIZE 2000"
        (snd (buildEhloResponse (L := asciiStd) "size2000-size5000.example.com" fresh))
  /\ ~ In "250-SIZE 5000"
        (snd (buildEhloResponse (L := asciiStd) "size2000-size5000.example.com" fresh)).
Proof.
  assert (Hb : Forall (fun p => sizeOf p = None) (@nil string)) by constructor.
  destruct (proj1 (parseAndClampSize_clamps (L := asciiStd)
                     "size2000-size5000.example.com" fresh)
              [] "size2000" ["size5000"] 2000 eq_refl Hb eq_refl) as [_ H].
  destruct (H eq_refl) as [A B].
  split; [exact A|]. split.
  - apply (proj2 (B "2000")). reflexivity.
  - intros H5. apply (proj1 (B "5000")) in H5. discriminate H5.
Defined.

(** AUTH PLAIN after EHLO, answered as the user alice. *)
Lemma authenticated_by_auth_only_witness :
  state (fst (handleCommand (L := asciiStd) (as_user "alice") "AUTH PLAIN" inMail))
  = StateMail.
Proof.
  destruct (authenticated_by_auth_only (L := asciiStd) (as_user "alice")
              "AUTH PLAIN" inMail eq_refl eq_refl)
    as (c & mech & rest & u & user & _ & _ & _ & _ & _ & _ & _ & _ & _ & H).
  exact H.
Defined.

(** EHLO and MAIL FROM after the banner. *)
Lemma argument_list_never_out_of_range_witness :
  snd (runCommandLoop (L := asciiStd) [ehlo; cmd "MAIL FROM:<a@x.example>"] greeted)
  <> Some Panic.
Proof.
  refine (proj1 (argument_list_never_out_of_range (L := asciiStd)
                   [ehlo; cmd "MAIL FROM:<a@x.example>"] greeted _)).
  repeat constructor; intros; discriminate.
Defined.

(** NOOP after EHLO. *)
Lemma one_reply_for_each_command_witness :
  exists rsp,
    conn (fst (handleCommand (L := asciiStd) quiet "NOOP" inMail))
    = sent [crlf rsp] (conn inMail).
Proof.
  assert (Hh : healthy (conn inMail))
    by (split; [vm_compute; reflexivity | intros; reflexivity]).
  assert (Hb : forall c, ParseCommand (L := asciiStd) "NOOP" = Some c ->
                         breaksPipelining (Name c) = false)
    by (intros c H; vm_compute in H; injection H as <-; reflexivity).
  destruct (one_reply_for_each_command (L := asciiStd) quiet "NOOP" inMail
              Hh Hb eq_refl) as (rsp & _ & H).
  exists rsp. apply H. reflexivity.
Defined.

(** QUIT followed by NOOP, after EHLO. *)
Lemma quit_ends_the_loop_witness :
  runCommandLoop (L := asciiStd) [cmd "QUIT"; cmd "NOOP"] inMail
  = runCommandLoop (L := asciiStd) [cmd "QUIT"] inMail.
Proof.
  refine (proj1 (quit_ends_the_loop (L := asciiStd) (cmd "QUIT") [cmd "NOOP"] inMail
                   {| Name := "QUIT"; Args := [] |} _ _ _ _ _)).
  - vm_compute. discriminate.
  - vm_compute. reflexivity.
  - vm_compute. reflexivity.
  - reflexivity.
  - vm_compute. reflexivity.
Defined.

(** DATA with the body [hello] after MAIL FROM and RCPT TO. *)
Lemma data_stores_the_envelope_witness :
  state (fst (handleCommand (L := asciiStd) (with_body "hello") "DATA" inRcpt1000))
  = StateMail.
Proof.
  refine (proj1 (proj2 (data_stores_the_envelope (L := asciiStd) (with_body "hello")
                          "DATA" [] inRcpt1000 "hello" _ _ _ _ _ _ _))).
  - vm_compute. reflexivity.
  - vm_compute. reflexivity.
  - vm_compute. reflexivity.
  - split; [vm_compute; reflexivity | intros; reflexivity].
  - reflexivity.
  - vm_compute. discriminate.
  - intros m. reflexivity.
Defined.

(** The same DATA where the store reports an exceeded quota. *)
Lemma storage_failure_keeps_the_transaction_witness :
  state (fst (handleCommand (L := asciiStd) (store_fails "hello" "quota exceeded")
                "DATA" inRcpt1000))
  = StateData.
Proof.
  refine (proj1 (proj2 (storage_failure_keeps_the_transaction (L := asciiStd)
                          (store_fails "hello" "quota exceeded")
                          "DATA" [] inRcpt1000 "hello" "quota exceeded"
                          _ _ _ _ _ _ _))).
  - vm_compute. reflexivity.
  - vm_compute. reflexivity.
  - vm_compute. reflexivity.
  - split; [vm_compute; reflexivity | intros; reflexivity].
  - reflexivity.
  - vm_compute. discriminate.
  - intros m. reflexivity.
Defined.


(** BDAT 2 with [ab], then BDAT 3 LAST with [cde]. *)
Lemma bdat_chunks_are_concatenated_witness :
  state (fst (handleCommand (L := asciiStd) (with_body "cde") "BDAT 3 LAST"
                (fst (handleCommand (L := asciiStd) (with_body "ab") "BDAT 2"
                        inRcpt1000))))
  = StateMail.
Proof.
  pose proof (bdat_chunks_are_concatenated (L := asciiStd)
                (with_body "ab") (with_body "cde") "BDAT 2" "BDAT 3 LAST"
                "2" "3" "LAST" 2 3 "ab" "cde" inRcpt1000) as T.
  cbv zeta in T.
  refine (proj1 (proj2 (proj2 (proj2 (proj2 (T _ _ _ _ _ _ _ _ _ _ _ _ _ _ _ _)))))).
  - split; [vm_compute; reflexivity | intros; reflexivity].
  - left. vm_compute. reflexivity.
  - vm_compute. reflexivity.
  - vm_compute. reflexivity.
  - vm_compute. reflexivity.
  - vm_compute. reflexivity.
  - lia.
  - reflexivity.
  - reflexivity.
  - vm_compute. reflexivity.
  - vm_compute. reflexivity.
  - vm_compute. reflexivity.
  - lia.
  - reflexivity.
  - intros m. reflexivity.
  - vm_compute. discriminate.
Defined.

(** [data552@x.example] under the prefix [data]. *)
Lemma error_pattern_is_recognised_witness :
  exists n,
    parsePrefixedError (L := asciiStd) "data" "data552@x.example"
    = Some {| Code := n; Enhanced := "";
              smtp.Message := gostd.itoa n ++ " " ++ GetErrorMessage n |}.
Proof.
  assert (Hv : "data" <> "") by discriminate.
  destruct (error_pattern_is_recognised (L := asciiStd) "data" "data552@x.example"
              "data" "552" "x.example" Hv eq_refl eq_refl eq_refl eq_refl)
    as (n & _ & _ & H & _).
  exists n. apply H. reflexivity.
Defined.

(** [rcpt550_5.1.1@y.example] under the prefix [rcpt], in a session with
    ENHANCEDSTATUSCODES. *)
Lemma stored_message_is_the_enhanced_reply_witness :
  formatErrorResult inMail (Some err550_511)
  = "550 5.1.1 Requested action not taken: mailbox unavailable".
Proof.
  refine (proj1 (stored_message_is_the_enhanced_reply (L := asciiStd)
                   "rcpt" "rcpt550_5.1.1@y.example" err550_511 inMail _) _).
  - vm_compute. reflexivity.
  - vm_compute. reflexivity.
Defined.

(** Port 25203 with the windows at 25200 and 25600. *)
Lemma port_window_selects_delay_witness :
  exists c',
    config.AnalysePortBehaviour 25203 25200 25600 defaultConfig = Some c'
    /\ GreetingDelay c' = 8.
Proof.
  destruct (port_window_selects_delay 25203 25200 25600 defaultConfig)
    as (c' & E & _ & _ & _ & G & _); try lia.
  exists c'. split; [exact E|]. apply G. lia.
Defined.

(** The greeting-delay range against the drop-delay range. *)
Lemma overlap_iff_common_port_witness :
  config.OverlapsWith greetingRange dropRange
  = config.OverlapsWith dropRange greetingRange.
Proof.
  refine (proj1 (overlap_iff_common_port greetingRange dropRange _ _));
    vm_compute; discriminate.
Defined.

(** A connection on port 25601, and EHLO from the client. *)
Lemma drop_port_is_never_greeted_witness :
  exists c',
    config.AnalysePortBehaviour 25601 25200 25600 defaultConfig = Some c'
    /\ written (conn (fst (setupSessionBehaviourAndGreet (L := asciiStd)
                             (NewSessionWithHostname wire c' "" None)))) = [].
Proof.
  destruct (drop_port_is_never_greeted (L := asciiStd) 25601 25200 25600
              defaultConfig wire "" None [ehlo]) as (c' & E & S0 & _); try lia.
  exists c'. split; [exact E|]. rewrite S0. reflexivity.
Defined.

(** AUTH PLAIN AGFsaWNlAHNlY3JldA== *)
Lemma plain_user_is_second_field_witness :
  auth.PlainHandler_Authenticate (L := asciiStd) decode_alice None
    ["AUTH"; "PLAIN"; "AGFsaWNlAHNlY3JldA=="]
  = Ok "alice".
Proof.
  assert (Hd : "AGFsaWNlAHNlY3JldA==" <> "") by discriminate.
  refine (proj1 (plain_user_is_second_field (L := asciiStd) decode_alice None
                   ["AUTH"; "PLAIN"; "AGFsaWNlAHNlY3JldA=="]
                   "AGFsaWNlAHNlY3JldA==" alice_plain _ Hd eq_refl)
            "" "alice" "secret" eq_refl eq_refl eq_refl).
  left. exists "AUTH", "PLAIN", []. reflexivity.
Defined.

(** AUTH PLAIN after EHLO, answered as the user badauth-bob. *)
Lemma default_authenticator_decides_witness :
  authenticated (fst (handleAuth (L := asciiStd) (pattern_user "badauth-bob")
                        {| Name := "AUTH"; Args := ["PLAIN"] |} inMail))
  = false.
Proof.
  refine (proj1 (proj2 (proj2 (default_authenticator_decides (L := asciiStd)
            (pattern_user "badauth-bob") {| Name := "AUTH"; Args := ["PLAIN"] |}
            inMail "PLAIN" "badauth-bob" [] eq_refl _ _ eq_refl _ eq_refl _ _)))).
  - left. vm_compute. reflexivity.
  - vm_compute. reflexivity.
  - vm_compute. reflexivity.
  - split; [vm_compute; reflexivity | intros; reflexivity].
  - vm_compute. reflexivity.
Defined.

(** The session after the banner and EHLO. *)
Lemma envelope_empty_outside_transaction_witness :
  mailFrom (fst (Handle (L := asciiStd) [ehlo]
                   (NewSessionWithHostname wire defaultConfig "" None))) = "".
Proof.
  refine (proj1 (envelope_empty_outside_transaction (L := asciiStd) [ehlo] wire
                   defaultConfig "" None _)).
  vm_compute. auto.
Defined.
